(** * PhishSafe: the client-side encryption subsystem

    A shallow embedding of
    - [utils/crypto.ts]            (module [Crypto]),
    - [utils/indexedDB.ts]         (module [IndexedDB]),
    - [contexts/EncryptionContext.tsx] (module [Session]),
    - [hooks/useRateLimitStatus.ts]    (module [RateLimit]),
    followed by the properties of the specification that were checked
    against it.

    Conventions of the embedding.
    - A JavaScript exception is a value [Throw message]; a function that
      may throw returns a [result].
    - Browser built-ins (Web Crypto, [TextEncoder], [btoa]/[atob], [JSON],
      the random generator) are fields of a [Platform]; what is assumed of
      them is spelled out in [PlatformLaws].
    - The network, the clock and the random generator are inputs of each
      operation: every operation is a function of the responses it receives.
    - React state is a record; an operation reads the state it was created
      with and its [setX] calls are applied when it ends. Operations run
      one after the other (the single-threaded model of the specification).
    - A [string] is a well-formed JavaScript string; a number that the code
      computes with (a timestamp, a count of attempts) is an integer.
    - Where [Promise.all] awaits several decryptions, the failure reported
      is the first in the order written; no caller looks at which one. *)

From Stdlib Require Import ZArith String Ascii List Bool Lia.
From Stdlib.Strings Require Import Byte.
From stdpp Require Import base option gmap strings list pretty.

Import ListNotations.
Local Open Scope string_scope.
Local Open Scope Z_scope.

(** ** JavaScript values used by the code *)

(** Exceptions: [throw new Error(message)]. *)
Inductive result (A : Type) : Type :=
| Ok (a : A)
| Throw (message : string).
Arguments Ok {A} a.
Arguments Throw {A} message.

Definition bind {A B} (r : result A) (k : A -> result B) : result B :=
  match r with
  | Ok a => k a
  | Throw m => Throw m
  end.

Notation "'let*' x ':=' r 'in' k" := (bind r (fun x => k))
  (at level 10, x pattern, r at level 100, k at level 200).

(** [try { r } catch (e) { h e }] *)
Definition try_catch {A} (r : result A) (h : string -> result A) : result A :=
  match r with
  | Ok a => Ok a
  | Throw m => h m
  end.

Definition is_ok {A} (r : result A) : bool :=
  match r with Ok _ => true | Throw _ => false end.

Module Js.

(** Truthiness of a string: only [''] is falsy. *)
Definition truthy (s : string) : bool := negb (String.eqb s "").

(** Truthiness of [string | null | undefined]. *)
Definition truthy_opt (o : option string) : bool :=
  match o with
  | Some s => truthy s
  | None => false
  end.

(** [a || b] on strings. *)
Definition or_else (a : option string) (b : string) : string :=
  match a with
  | Some s => if truthy s then s else b
  | None => b
  end.

(** [o || null] *)
Definition or_null (o : option string) : option string :=
  if truthy_opt o then o else None.

(** [hay.includes(needle)] *)
Fixpoint includes (needle hay : string) : bool :=
  String.prefix needle hay
  || match hay with
     | EmptyString => false
     | String _ rest => includes needle rest
     end.

(** The three states of an optional, nullable property. *)
Inductive optional (A : Type) : Type :=
| Undefined
| Null
| Defined (a : A).
Arguments Undefined {A}.
Arguments Null {A}.
Arguments Defined {A} a.

End Js.

(** ** indexedDB.ts: the Local Key-Material Store *)

Module IndexedDB.

(** A record of the object store ['encryptionKeys'] (key path [userSub]).
    [salt] and [updatedAt] are absent from the records that
    [storeEncryptedKey] writes. *)
Record KeyRecord : Type := {
  userSub : string;
  encryptedKeyMaterial : string;
  salt : option string;
  createdAt : string;
  updatedAt : option string;
}.

(** The database: [opens] tells whether [indexedDB.open] succeeds. *)
Record Database : Type := {
  opens : bool;
  encryptionKeys : gmap string KeyRecord;
}.

Definition initDB (db : Database) : result (gmap string KeyRecord) :=
  if opens db then Ok (encryptionKeys db) else Throw "Failed to open IndexedDB".

(** [store.put(record)] *)
Definition put (r : KeyRecord) (db : Database) : Database :=
  {| opens := opens db; encryptionKeys := <[userSub r := r]> (encryptionKeys db) |}.

(** What can go wrong with one call whatever the database holds: the
    database, which every call opens anew, does not open this time, or
    the request of the call ends in [onerror]. *)
Inductive Fault : Type :=
| OpenFails
| RequestFails.

(** [nowIso] is [new Date().toISOString()]; [fault] is what goes wrong
    with this call, if anything. *)
Definition storeEncryptedKey (fault : option Fault) (user : string)
    (material : string) (nowIso : string) (db : Database)
    : result Database :=
  let* _ := (match fault with
             | Some OpenFails => Throw "Failed to open IndexedDB"
             | _ => initDB db
             end) in
  match fault with
  | Some RequestFails => Throw "Failed to store encrypted key"
  | _ =>
      Ok (put {| userSub := user;
                 encryptedKeyMaterial := material;
                 salt := None;
                 createdAt := nowIso;
                 updatedAt := None |} db)
  end.

Definition getEncryptedKey (user : string) (db : Database)
    : result (option string) :=
  let* store := initDB db in
  Ok (match store !! user with
      | Some r => Some (encryptedKeyMaterial r)
      | None => None
      end).

(** The record that [clearEncryptedKey] writes over an existing one:
    [{ userSub, encryptedKeyMaterial: '', salt: existing.salt || '',
    createdAt: existing.createdAt || now, updatedAt: now }]. *)
Definition cleared (user nowIso : string) (existing : KeyRecord) : KeyRecord :=
  {| userSub := user;
     encryptedKeyMaterial := "";
     salt := Some (Js.or_else (salt existing) "");
     createdAt := Js.or_else (Some (createdAt existing)) nowIso;
     updatedAt := Some nowIso |}.

Definition clearEncryptedKey (user : string) (nowIso : string)
    (db : Database) : result Database :=
  let* store := initDB db in
  match store !! user with
  | Some existing => Ok (put (cleared user nowIso existing) db)
  | None => Ok db
  end.

Definition hasEncryptedKey (user : string) (db : Database) : result bool :=
  let* key := getEncryptedKey user db in
  Ok (match key with Some _ => true | None => false end).

Definition storeSalt (user : string) (s : string) (nowIso : string)
    (db : Database) : result Database :=
  let* store := initDB db in
  let existing := store !! user in
  Ok (put {| userSub := user;
             encryptedKeyMaterial :=
               Js.or_else (encryptedKeyMaterial <$> existing) "";
             salt := Some s;
             createdAt := Js.or_else (createdAt <$> existing) nowIso;
             updatedAt := Some nowIso |} db).

Definition getSalt (user : string) (db : Database) : result (option string) :=
  let* store := initDB db in
  Ok (Js.or_null (store !! user ≫= salt)).

End IndexedDB.

(** ** JSON values *)

Module Json.

Section Tree.
Variable number : Type.

(** What [JSON.parse] returns and [JSON.stringify] accepts; [number]
    stands for the finite numbers JSON can carry. The members of an
    object are listed in the order the object enumerates them. *)
Local Unset Elimination Schemes.
Inductive json : Type :=
| JNull
| JBool (b : bool)
| JNum (n : number)
| JStr (s : string)
| JArr (items : list json)
| JObj (members : list (string * json)).
Local Set Elimination Schemes.

Fixpoint assoc (name : string) (members : list (string * json))
    : option json :=
  match members with
  | [] => None
  | (k, v) :: rest => if String.eqb k name then Some v else assoc name rest
  end.

(** [v.name] for a name that is no built-in property: a [TypeError] on
    [null], [undefined] ([None]) on anything but an object that has it. *)
Definition member (v : json) (name : string) : result (option json) :=
  match v with
  | JNull => Throw "Cannot read properties of null"
  | JObj members => Ok (assoc name members)
  | _ => Ok None
  end.

Variable number_truthy : number -> bool.

Definition is_truthy (v : json) : bool :=
  match v with
  | JNull => false
  | JBool b => b
  | JNum n => number_truthy n
  | JStr s => Js.truthy s
  | JArr _ | JObj _ => true
  end.

(** Values that survive [JSON.parse (JSON.stringify v)]: the member
    names of every object are distinct. *)
Fixpoint distinct (names : list string) : bool :=
  match names with
  | [] => true
  | n :: rest => negb (existsb (String.eqb n) rest) && distinct rest
  end.

Fixpoint valid (v : json) : bool :=
  match v with
  | JArr items => forallb valid items
  | JObj members =>
      distinct (map fst members)
      && forallb (fun kv => valid (snd kv)) members
  | _ => true
  end.
End Tree.

Arguments JNull {number}.
Arguments JBool {number} b.
Arguments JNum {number} n.
Arguments JStr {number} s.
Arguments JArr {number} items.
Arguments JObj {number} members.
Arguments assoc {number} name members.
Arguments member {number} v name.
Arguments is_truthy {number} number_truthy v.
Arguments valid {number} v.

End Json.

(** ** The browser platform *)

(** The built-ins the code calls. [Rng] is the state of
    [crypto.getRandomValues]; [pbkdf2] is [importKey] followed by
    [deriveKey] with PBKDF2/SHA-256 to an AES-GCM key of the given length;
    [aes_gcm_decrypt] is [None] when it rejects with an [OperationError]. *)
Class Platform : Type := {
  number : Type;
  number_truthy : number -> bool;
  number_of_Z : Z -> number;
  CryptoKey : Type;
  Rng : Type;
  getRandomValues : nat -> Rng -> list byte * Rng;
  TextEncoder_encode : string -> list byte;
  TextDecoder_decode : list byte -> string;
  pbkdf2 : list byte -> list byte -> Z -> Z -> CryptoKey;
  aes_gcm_encrypt : CryptoKey -> list byte -> list byte -> list byte;
  aes_gcm_decrypt : CryptoKey -> list byte -> list byte -> option (list byte);
  btoa : string -> string;
  atob : string -> option string;
  JSON_stringify : Json.json number -> string;
  JSON_parse : string -> option (Json.json number);
  toISOString : Z -> string;
}.

Abbreviation json := (Json.json number).

(** What is assumed of the platform. [new TextDecoder().decode] drops a
    leading U+FEFF and [TextEncoder.encode] replaces lone surrogates, so
    text in general does not survive encoding and decoding; the text that
    [JSON.stringify] writes has neither, nor has the empty text. *)
Class PlatformLaws (P : Platform) : Prop := {
  random_length : forall n g, length (fst (getRandomValues n g)) = n;
  utf8_json : forall v : json,
    TextDecoder_decode (TextEncoder_encode (JSON_stringify v))
    = JSON_stringify v;
  utf8_empty : TextDecoder_decode (TextEncoder_encode "") = "";
  gcm_roundtrip : forall k iv p,
    length iv = 12%nat ->
    aes_gcm_decrypt k iv (aes_gcm_encrypt k iv p) = Some p;
  gcm_tag : forall k iv p, aes_gcm_encrypt k iv p <> [];
  base64_roundtrip : forall s, atob (btoa s) = Some s;
  base64_nonempty : forall s, s <> "" -> btoa s <> "";
  json_roundtrip : forall v : json,
    Json.valid v = true -> JSON_parse (JSON_stringify v) = Some v;
  json_nonempty : forall v : json, JSON_stringify v <> "";
}.

(** ** crypto.ts: key derivation and the authenticated cipher *)

Module Crypto.
Section WithPlatform.
Context {P : Platform}.

Definition PBKDF2_ITERATIONS : Z := 100000.
Definition KEY_LENGTH : Z := 256.
Definition IV_LENGTH : nat := 12.

(** [iterations] defaults to [PBKDF2_ITERATIONS] at the call sites. *)
Definition deriveKey (passphrase : string) (salt : list byte)
    (iterations : Z) : CryptoKey :=
  pbkdf2 (TextEncoder_encode passphrase) salt iterations KEY_LENGTH.

Definition generateSalt (g : Rng) : list byte * Rng :=
  getRandomValues 16 g.

(** The loop appends [String.fromCharCode(bytes[i])] for each byte. *)
Definition arrayBufferToBase64 (buffer : list byte) : string :=
  btoa (string_of_list_byte buffer).

(** The loop stores [binary.charCodeAt(i)] for each character;
    [atob] throws on text that is not base64. *)
Definition base64ToArrayBuffer (base64 : string) : result (list byte) :=
  match atob base64 with
  | Some binary => Ok (list_byte_of_string binary)
  | None => Throw "The string to be decoded is not correctly encoded."
  end.

(** [{ ciphertext, iv }] *)
Record Encrypted : Type := {
  ciphertext : string;
  iv : string;
}.

Definition encrypt (plaintext : string) (key : CryptoKey) (g : Rng)
    : Encrypted * Rng :=
  let data := TextEncoder_encode plaintext in
  let (nonce, g') := getRandomValues IV_LENGTH g in
  let encrypted := aes_gcm_encrypt key nonce data in
  ({| ciphertext := arrayBufferToBase64 encrypted;
      iv := arrayBufferToBase64 nonce |}, g').

Definition decrypt (c : string) (i : string) (key : CryptoKey)
    : result string :=
  let* encryptedData := base64ToArrayBuffer c in
  let* ivBuffer := base64ToArrayBuffer i in
  match aes_gcm_decrypt key ivBuffer encryptedData with
  | Some decrypted => Ok (TextDecoder_decode decrypted)
  | None => Throw "OperationError"
  end.

(** [JSON.stringify({ ciphertext, iv })] *)
Definition stringifyEncrypted (e : Encrypted) : string :=
  JSON_stringify
    (Json.JObj [("ciphertext", Json.JStr (ciphertext e));
                ("iv", Json.JStr (iv e))]).

(** [JSON.parse(text)], a [SyntaxError] when it fails. *)
Definition parse (text : string) : result json :=
  match JSON_parse text with
  | Some v => Ok v
  | None => Throw "Unexpected token in JSON"
  end.

(** A member handed to [decrypt] as text. The code casts without
    checking; a member that is missing or is no string makes [atob] or
    the cipher reject, which is a throw here. *)
Definition text_member (v : json) (name : string) : result string :=
  let* m := Json.member v name in
  match m with
  | Some (Json.JStr s) => Ok s
  | _ => Throw "The string to be decoded is not correctly encoded."
  end.

(** The sensitive fields of an analysis record, in the clear. *)
Record AnalysisData : Type := {
  userEmail : string;
  inputContent : string;
  analysisContext : Js.optional json;
  mlResult : json;
}.

(** The same fields, each a serialized [{ ciphertext, iv }]. *)
Record EncryptedAnalysisData : Type := {
  encUserEmail : string;
  encInputContent : string;
  encAnalysisContext : option string;
  encMlResult : string;
}.

(** [data.analysisContext ? JSON.stringify(data.analysisContext) : ''] *)
Definition contextText (c : Js.optional json) : string :=
  match c with
  | Js.Defined v =>
      if Json.is_truthy number_truthy v then JSON_stringify v else ""
  | _ => ""
  end.

(** The four [encrypt] calls draw their nonces in the order written. *)
Definition encryptAnalysisData (data : AnalysisData) (key : CryptoKey)
    (g : Rng) : EncryptedAnalysisData * Rng :=
  let (encryptedEmail, g1) := encrypt (userEmail data) key g in
  let (encryptedContent, g2) := encrypt (inputContent data) key g1 in
  let (encryptedContext, g3) :=
    encrypt (contextText (analysisContext data)) key g2 in
  let (encryptedMlResult, g4) :=
    encrypt (JSON_stringify (mlResult data)) key g3 in
  ({| encUserEmail := stringifyEncrypted encryptedEmail;
      encInputContent := stringifyEncrypted encryptedContent;
      encAnalysisContext := Some (stringifyEncrypted encryptedContext);
      encMlResult := stringifyEncrypted encryptedMlResult |}, g4).

(** [contextData && contextData.ciphertext ? decrypt(...).then(text =>
    text ? JSON.parse(text) : null) : Promise.resolve(null)] *)
Definition decryptContext (contextData : option json) (key : CryptoKey)
    : result (Js.optional json) :=
  match contextData with
  | None => Ok Js.Null
  | Some v =>
      if Json.is_truthy number_truthy v then
        let* c := Json.member v "ciphertext" in
        match c with
        | Some cv =>
            if Json.is_truthy number_truthy cv then
              let* ct := text_member v "ciphertext" in
              let* nonce := text_member v "iv" in
              let* text := decrypt ct nonce key in
              if Js.truthy text then
                let* parsed := parse text in Ok (Js.Defined parsed)
              else Ok Js.Null
            else Ok Js.Null
        | None => Ok Js.Null
        end
      else Ok Js.Null
  end.

Definition decryptAnalysisData (encrypted : EncryptedAnalysisData)
    (key : CryptoKey) : result AnalysisData :=
  let* emailData := parse (encUserEmail encrypted) in
  let* contentData := parse (encInputContent encrypted) in
  let* contextData :=
    (if Js.truthy_opt (encAnalysisContext encrypted)
     then let* v := parse (default "" (encAnalysisContext encrypted)) in
          Ok (Some v)
     else Ok None) in
  let* mlResultData := parse (encMlResult encrypted) in
  let* emailC := text_member emailData "ciphertext" in
  let* emailIv := text_member emailData "iv" in
  let* email := decrypt emailC emailIv key in
  let* contentC := text_member contentData "ciphertext" in
  let* contentIv := text_member contentData "iv" in
  let* content := decrypt contentC contentIv key in
  let* context := decryptContext contextData key in
  let* mlC := text_member mlResultData "ciphertext" in
  let* mlIv := text_member mlResultData "iv" in
  let* mlText := decrypt mlC mlIv key in
  let* ml := parse mlText in
  Ok {| userEmail := email;
        inputContent := content;
        analysisContext := context;
        mlResult := ml |}.

Definition encryptKeyMaterial (plaintext : string) (key : CryptoKey)
    (g : Rng) : string * Rng :=
  let (encrypted, g') := encrypt plaintext key g in
  (stringifyEncrypted encrypted, g').

Definition decryptKeyMaterial (encrypted : string) (key : CryptoKey)
    : result string :=
  let* data := parse encrypted in
  let* c := text_member data "ciphertext" in
  let* i := text_member data "iv" in
  decrypt c i key.


(** *** Vocabulary of the properties *)

(** A text as [TextEncoder] and [TextDecoder] hand it back: without a
    leading U+FEFF, and with U+FFFD for every lone surrogate. *)
Definition decodedText (text : string) : string :=
  TextDecoder_decode (TextEncoder_encode text).

(** The context comes back as it was when it was an object, and as
    [null] when it was absent or [null]. *)
Definition returnedContext (c : Js.optional json) : Js.optional json :=
  match c with
  | Js.Defined v => Js.Defined v
  | _ => Js.Null
  end.

Definition isRecord (v : json) : bool :=
  match v with
  | Json.JObj _ => Json.valid v
  | _ => false
  end.

(** A record that can be encrypted: [mlResult] is JSON data and the
    context, when there is one, is a JSON object. *)
Definition wellFormed (data : AnalysisData) : bool :=
  Json.valid (mlResult data)
  && match analysisContext data with
     | Js.Defined v => isRecord v
     | _ => true
     end.

End WithPlatform.
End Crypto.

(** ** Calls to the backend *)

(** The outcome of [getAccessTokenSilently] followed by [fetch] and
    [response.json()]: an exception with its message, a response that is
    not [ok], or the body of an [ok] response. *)
Inductive Response (A : Type) : Type :=
| Failed (message : string)
| NotOk
| Body (data : A).
Arguments Failed {A} message.
Arguments NotOk {A}.
Arguments Body {A} data.

(** ** EncryptionContext.tsx: the Encryption Session Manager *)

Module Session.
Section WithPlatform.
Context {P : Platform}.

(** The React state of [EncryptionProvider]; [hasCheckedSetup] is
    [hasCheckedSetupRef.current]. *)
Record State : Type := {
  isSetup : bool;
  isUnlocked : bool;
  isLoading : bool;
  encryptionKey : option CryptoKey;
  userSalt : option string;
  hasCheckedSetup : bool;
}.

(** Truthiness of [encryptionKey]. *)
Definition hasKey (s : State) : bool :=
  match encryptionKey s with
  | Some _ => true
  | None => false
  end.

Definition initialState : State :=
  {| isSetup := false; isUnlocked := false; isLoading := true;
     encryptionKey := None; userSalt := None; hasCheckedSetup := false |}.

Definition setIsSetup (b : bool) (s : State) : State :=
  {| isSetup := b; isUnlocked := isUnlocked s; isLoading := isLoading s;
     encryptionKey := encryptionKey s; userSalt := userSalt s;
     hasCheckedSetup := hasCheckedSetup s |}.
Definition setIsUnlocked (b : bool) (s : State) : State :=
  {| isSetup := isSetup s; isUnlocked := b; isLoading := isLoading s;
     encryptionKey := encryptionKey s; userSalt := userSalt s;
     hasCheckedSetup := hasCheckedSetup s |}.
Definition setIsLoading (b : bool) (s : State) : State :=
  {| isSetup := isSetup s; isUnlocked := isUnlocked s; isLoading := b;
     encryptionKey := encryptionKey s; userSalt := userSalt s;
     hasCheckedSetup := hasCheckedSetup s |}.
Definition setEncryptionKey (k : option CryptoKey) (s : State) : State :=
  {| isSetup := isSetup s; isUnlocked := isUnlocked s;
     isLoading := isLoading s;
     encryptionKey := k; userSalt := userSalt s;
     hasCheckedSetup := hasCheckedSetup s |}.
Definition setUserSalt (v : option string) (s : State) : State :=
  {| isSetup := isSetup s; isUnlocked := isUnlocked s;
     isLoading := isLoading s;
     encryptionKey := encryptionKey s; userSalt := v;
     hasCheckedSetup := hasCheckedSetup s |}.
Definition setHasCheckedSetup (b : bool) (s : State) : State :=
  {| isSetup := isSetup s; isUnlocked := isUnlocked s;
     isLoading := isLoading s;
     encryptionKey := encryptionKey s; userSalt := userSalt s;
     hasCheckedSetup := b |}.

(** What lies outside React: the local database, the random generator
    and the console (the first argument of each [console.error]). *)
Record World : Type := {
  idb : IndexedDB.Database;
  rng : Rng;
  console : list string;
}.

Definition console_error (line : string) (w : World) : World :=
  {| idb := idb w; rng := rng w; console := console w ++ [line] |}.
Definition with_idb (db : IndexedDB.Database) (w : World) : World :=
  {| idb := db; rng := rng w; console := console w |}.
Definition with_rng (g : Rng) (w : World) : World :=
  {| idb := idb w; rng := g; console := console w |}.

(** What [useAuth] provides: [isAuthenticated] and [user?.sub]. *)
Record Auth : Type := {
  isAuthenticated : bool;
  userSub : option string;
}.

(** The body of [GET /api/encryption/status]; the two flags are the
    truthiness of [data.hasSalt] and [data.hasAnalyses]. *)
Record StatusBody : Type := {
  hasSalt : bool;
  hasAnalyses : bool;
  salt : option string;
}.

(** What one operation receives from outside: the clock, the responses
    of the three endpoints ([items] of [GET /api/analyses?limit=1] is
    [None] when the body has none), and what goes wrong, if anything,
    when the operation calls [storeEncryptedKey]. *)
Record Net : Type := {
  now : Z;
  statusResponse : Response StatusBody;
  analysesResponse : Response (option (list Crypto.EncryptedAnalysisData));
  saltResponse : Response unit;
  storeFault : option IndexedDB.Fault;
}.

Definition noStatus : StatusBody :=
  {| hasSalt := false; hasAnalyses := false; salt := None |}.

Definition getEncryptionStatus (a : Auth) (net : Net) (w : World)
    (s : State) : StatusBody * World * State :=
  if negb (Js.truthy_opt (userSub a)) then (noStatus, w, s)
  else
    match statusResponse net with
    | Body data =>
        ({| hasSalt := hasSalt data;
            hasAnalyses := hasAnalyses data;
            salt := Js.or_null (salt data) |},
         w,
         if Js.truthy_opt (salt data) then setUserSalt (salt data) s else s)
    | NotOk => (noStatus, w, s)
    | Failed _ =>
        (noStatus, console_error "Failed to fetch encryption status:" w, s)
    end.

(** The body of the first effect. Its early returns leave [isLoading]
    as it was; [getEncryptionStatus] never throws, so the inner [catch]
    is not reached. *)
Definition checkSetup (a : Auth) (net : Net) (w : World) (s : State)
    : World * State :=
  if negb (isAuthenticated a) || negb (Js.truthy_opt (userSub a)) then
    (w, setHasCheckedSetup false
          (setIsLoading false (setIsUnlocked false (setIsSetup false s))))
  else if isUnlocked s && hasKey s then (w, s)
  else if hasCheckedSetup s && isSetup s then (w, s)
  else
    match IndexedDB.hasEncryptedKey (default "" (userSub a)) (idb w) with
    | Ok true =>
        let s1 := setHasCheckedSetup true (setIsSetup true s) in
        let s2 := if hasKey s then s1
                  else setIsUnlocked false s1 in
        let s3 := if hasKey s then s2
                  else setEncryptionKey None s2 in
        (w, setIsLoading false s3)
    | Ok false =>
        let '(status, w1, s1) := getEncryptionStatus a net w s in
        if hasSalt status then
          let s2 := if Js.truthy_opt (salt status)
                    then setUserSalt (salt status) s1 else s1 in
          let s3 := setHasCheckedSetup true (setIsSetup true s2) in
          let s4 := if hasKey s then s3
                    else setIsUnlocked false s3 in
          (w1, setIsLoading false s4)
        else if hasAnalyses status then
          (console_error
             "User has analyses but no salt found - data inconsistency" w1,
           setIsLoading false (setIsUnlocked false (setIsSetup false s1)))
        else
          (w1, setIsLoading false (setIsUnlocked false (setIsSetup false s1)))
    | Throw _ =>
        (console_error "Failed to check encryption setup:" w,
         setIsLoading false
           (if isUnlocked s then s else setIsSetup false s))
    end.

Definition lockEncryption (s : State) : State :=
  setHasCheckedSetup false (setIsUnlocked false (setEncryptionKey None s)).

(** The second effect: [if (!isAuthenticated) lockEncryption()]. *)
Definition lockOnLogout (a : Auth) (s : State) : State :=
  if negb (isAuthenticated a) then lockEncryption s else s.

Definition getSalt (a : Auth) (net : Net) (w : World) (s : State)
    : option string * World * State :=
  if Js.truthy_opt (userSalt s) then (userSalt s, w, s)
  else if negb (Js.truthy_opt (userSub a)) then (None, w, s)
  else
    let '(status, w1, s1) := getEncryptionStatus a net w s in
    (salt status, w1, s1).

Definition saveSalt (a : Auth) (saltText : string) (net : Net)
    (w : World) (s : State) : result unit * World * State :=
  if negb (Js.truthy_opt (userSub a)) then
    (Throw "User not authenticated", w, s)
  else
    match saltResponse net with
    | Body _ => (Ok tt, w, setUserSalt (Some saltText) s)
    | NotOk =>
        (Throw "Failed to save salt", console_error "Failed to save salt:" w, s)
    | Failed m => (Throw m, console_error "Failed to save salt:" w, s)
    end.

(** [JSON.stringify({ timestamp: Date.now(), userSub })] *)
Definition verificationData (user : string) (net : Net) : string :=
  JSON_stringify
    (Json.JObj [("timestamp", Json.JNum (number_of_Z (now net)));
                ("userSub", Json.JStr user)]).

(** [encryptKeyMaterial(verificationData, key)] followed by
    [storeEncryptedKey(userSub, encrypted)]. *)
Definition storeVerification (user : string) (key : CryptoKey) (net : Net)
    (w : World) : result unit * World :=
  let (encrypted, g) :=
    Crypto.encryptKeyMaterial (verificationData user net) key (rng w) in
  match IndexedDB.storeEncryptedKey (storeFault net) user encrypted
          (toISOString (now net)) (idb w) with
  | Ok db => (Ok tt, with_idb db (with_rng g w))
  | Throw m => (Throw m, with_rng g w)
  end.

Definition unlocked (key : CryptoKey) (saltText : string) (s : State)
    : State :=
  setHasCheckedSetup true
    (setIsUnlocked true
       (setIsSetup true
          (setUserSalt (Some saltText) (setEncryptionKey (Some key) s)))).

Definition setupEncryption (passphrase : string) (a : Auth) (net : Net)
    (w : World) (s : State) : result unit * World * State :=
  match userSub a with
  | Some user =>
      if negb (Js.truthy user) then (Throw "User not authenticated", w, s)
      else
        let (saltBytes, g) := Crypto.generateSalt (rng w) in
        let saltBase64 := btoa (string_of_list_byte saltBytes) in
        let key := Crypto.deriveKey passphrase saltBytes
                     Crypto.PBKDF2_ITERATIONS in
        match storeVerification user key net (with_rng g w) with
        | (Ok _, w1) =>
            match saveSalt a saltBase64 net w1 s with
            | (Ok _, w2, s2) =>
                (Ok tt, w2, setIsLoading false (unlocked key saltBase64 s2))
            | (Throw m, w2, s2) =>
                (Throw m, console_error "Failed to setup encryption:" w2,
                 setIsLoading false s2)
            end
        | (Throw m, w1) =>
            (Throw m, console_error "Failed to setup encryption:" w1,
             setIsLoading false s)
        end
  | None => (Throw "User not authenticated", w, s)
  end.

Definition InvalidPassphrase : string :=
  "Invalid passphrase. Please try again.".
Definition VerificationUnavailable : string :=
  "Failed to verify passphrase. Please try again.".

(** The branch for key material found locally: decrypt it, parse it,
    and compare the [userSub] it holds. [!data.userSub ||
    data.userSub !== userSub] is true for every value that is no
    string. *)
Definition verifyLocal (user : string) (key : CryptoKey)
    (encryptedKeyMaterial : string) : result unit :=
  try_catch
    (let* decrypted := Crypto.decryptKeyMaterial encryptedKeyMaterial key in
     let* data := Crypto.parse decrypted in
     let* sub := Json.member data "userSub" in
     match sub with
     | Some (Json.JStr v) =>
         if negb (Js.truthy v) || negb (String.eqb v user)
         then Throw "Invalid key material"
         else Ok tt
     | _ => Throw "Invalid key material"
     end)
    (fun _ => Throw InvalidPassphrase).

(** The branch for a device without key material: verify against the
    first record of the backend, or accept when there is none. *)
Definition verifyRemote (user : string) (key : CryptoKey) (net : Net)
    (w : World) : result unit * World :=
  let attempt : result unit * World :=
    match analysesResponse net with
    | Body items =>
        match items with
        | Some (encryptedRecord :: _) =>
            match Crypto.decryptAnalysisData encryptedRecord key with
            | Ok _ =>
                match storeVerification user key net w with
                | (Ok _, w1) => (Ok tt, w1)
                | (Throw _, w1) => (Throw InvalidPassphrase, w1)
                end
            | Throw _ => (Throw InvalidPassphrase, w)
            end
        | _ => storeVerification user key net w
        end
    | NotOk => (Throw "Failed to fetch encrypted data for verification", w)
    | Failed m => (Throw m, w)
    end in
  match attempt with
  | (Ok _, w1) => (Ok tt, w1)
  | (Throw m, w1) =>
      if Js.includes "Invalid passphrase" m then (Throw m, w1)
      else (Throw VerificationUnavailable, w1)
  end.

(** [Uint8Array.from(atob(saltBase64), c => c.charCodeAt(0))] *)
Definition saltOfBase64 (saltBase64 : string) : result (list byte) :=
  match atob saltBase64 with
  | Some binary => Ok (list_byte_of_string binary)
  | None => Throw "The string to be decoded is not correctly encoded."
  end.

(** [let saltBase64 = userSalt; if (!saltBase64) saltBase64 = await
    getSalt()] *)
Definition resolveSalt (a : Auth) (net : Net) (w : World) (s : State)
    : option string * World * State :=
  if Js.truthy_opt (userSalt s) then (userSalt s, w, s)
  else getSalt a net w s.

(** The body of the [try] of [unlockEncryption] up to the point where
    the key is accepted: the salt text and the key on success. *)
Definition unlockAttempt (passphrase : string) (user : string) (a : Auth)
    (net : Net) (w : World) (s : State)
    : result (CryptoKey * string) * World * State :=
  let '(saltOpt, w1, s1) := resolveSalt a net w s in
  match saltOpt with
  | Some saltBase64 =>
      if negb (Js.truthy saltBase64) then
        (Throw "Salt not found. Please set up encryption first.", w1, s1)
      else
        match saltOfBase64 saltBase64 with
        | Ok saltBytes =>
            let key := Crypto.deriveKey passphrase saltBytes
                         Crypto.PBKDF2_ITERATIONS in
            match IndexedDB.getEncryptedKey user (idb w1) with
            | Ok encryptedKeyMaterial =>
                if negb (Js.truthy_opt encryptedKeyMaterial) then
                  match verifyRemote user key net w1 with
                  | (Ok _, w2) => (Ok (key, saltBase64), w2, s1)
                  | (Throw m, w2) => (Throw m, w2, s1)
                  end
                else
                  match verifyLocal user key
                          (default "" encryptedKeyMaterial) with
                  | Ok _ => (Ok (key, saltBase64), w1, s1)
                  | Throw m => (Throw m, w1, s1)
                  end
            | Throw m => (Throw m, w1, s1)
            end
        | Throw m => (Throw m, w1, s1)
        end
  | None =>
      (Throw "Salt not found. Please set up encryption first.", w1, s1)
  end.

Definition unlockEncryption (passphrase : string) (a : Auth) (net : Net)
    (w : World) (s : State) : result unit * World * State :=
  match userSub a with
  | Some user =>
      if negb (Js.truthy user) then (Throw "User not authenticated", w, s)
      else
        match unlockAttempt passphrase user a net w s with
        | (Ok (key, saltBase64), w1, s1) =>
            (Ok tt, w1, setIsLoading false (unlocked key saltBase64 s1))
        | (Throw m, w1, s1) =>
            (Throw m, console_error "Failed to unlock encryption:" w1,
             setIsLoading false s1)
        end
  | None => (Throw "User not authenticated", w, s)
  end.

(** *** The setup check in stages *)

(** [checkSetup] is asynchronous. It runs up to its first [await]; the
    rest runs once [hasEncryptedKey] has answered, after whatever the
    provider did in the meantime. *)
Inductive Started : Type :=
| Finished (s : State)
| Awaiting (hasLocalKey : result bool).

(** The part before the first [await]: the early returns, and the call
    of [hasEncryptedKey]. *)
Definition checkSetupStart (a : Auth) (w : World) (s : State) : Started :=
  if negb (isAuthenticated a) || negb (Js.truthy_opt (userSub a)) then
    Finished
      (setHasCheckedSetup false
         (setIsLoading false (setIsUnlocked false (setIsSetup false s))))
  else if isUnlocked s && hasKey s then Finished s
  else if hasCheckedSetup s && isSetup s then Finished s
  else Awaiting (IndexedDB.hasEncryptedKey (default "" (userSub a)) (idb w)).

(** The part after it. [closure] and [a] are the state and the identity
    of the render whose effect started the check: where the body of
    [checkSetup] reads [encryptionKey] and [isUnlocked] it reads the
    values of that render. The setters and [hasCheckedSetupRef] act on
    [s], the state of the provider when the check resumes. *)
Definition checkSetupResumed (closure : State) (a : Auth)
    (hasLocalKey : result bool) (net : Net) (w : World) (s : State)
    : World * State :=
  match hasLocalKey with
  | Ok true =>
      let s1 := setHasCheckedSetup true (setIsSetup true s) in
      let s2 := if hasKey closure then s1
                else setIsUnlocked false s1 in
      let s3 := if hasKey closure then s2
                else setEncryptionKey None s2 in
      (w, setIsLoading false s3)
  | Ok false =>
      let '(status, w1, s1) := getEncryptionStatus a net w s in
      if hasSalt status then
        let s2 := if Js.truthy_opt (salt status)
                  then setUserSalt (salt status) s1 else s1 in
        let s3 := setHasCheckedSetup true (setIsSetup true s2) in
        let s4 := if hasKey closure then s3
                  else setIsUnlocked false s3 in
        (w1, setIsLoading false s4)
      else if hasAnalyses status then
        (console_error
           "User has analyses but no salt found - data inconsistency" w1,
         setIsLoading false (setIsUnlocked false (setIsSetup false s1)))
      else
        (w1, setIsLoading false (setIsUnlocked false (setIsSetup false s1)))
  | Throw _ =>
      (console_error "Failed to check encryption setup:" w,
       setIsLoading false
         (if isUnlocked closure then s else setIsSetup false s))
  end.

(** *** The provider as a transition system *)

(** The provider together with what surrounds it. *)
Record System : Type := {
  auth : Auth;
  world : World;
  session : State;
}.

(** The effects that run after a render in which [useAuth] returned
    [a]: [checkSetup], then the lock effect when [isAuthenticated] is
    among the dependencies that changed (always so on mount). *)
Definition runEffects (authChanged : bool) (a : Auth) (net : Net)
    (w : World) (s : State) : World * State :=
  let (w1, s1) := checkSetup a net w s in
  (w1, if authChanged then lockOnLogout a s1 else s1).

Definition mount (a : Auth) (net : Net) (w : World) : System :=
  let (w1, s1) := runEffects true a net w initialState in
  {| auth := a; world := w1; session := s1 |}.

(** [useAuth] now returns [a']: sign-in, sign-out, another user. *)
Definition authChange (a' : Auth) (net : Net) (st : System) : System :=
  let changed :=
    negb (Bool.eqb (isAuthenticated (auth st)) (isAuthenticated a')) in
  let (w1, s1) := runEffects changed a' net (world st) (session st) in
  {| auth := a'; world := w1; session := s1 |}.

(** [checkSetup] runs again because some other dependency changed. *)
Definition recheck (net : Net) (st : System) : System :=
  let (w1, s1) := checkSetup (auth st) net (world st) (session st) in
  {| auth := auth st; world := w1; session := s1 |}.

(** A check that was started in an earlier render resumes now. *)
Definition resume (closure : State) (a : Auth) (hasLocalKey : result bool)
    (net : Net) (st : System) : System :=
  let (w1, s1) :=
    checkSetupResumed closure a hasLocalKey net (world st) (session st) in
  {| auth := auth st; world := w1; session := s1 |}.

Definition setup (passphrase : string) (net : Net) (st : System)
    : result unit * System :=
  let '(r, w1, s1) :=
    setupEncryption passphrase (auth st) net (world st) (session st) in
  (r, {| auth := auth st; world := w1; session := s1 |}).

Definition unlock (passphrase : string) (net : Net) (st : System)
    : result unit * System :=
  let '(r, w1, s1) :=
    unlockEncryption passphrase (auth st) net (world st) (session st) in
  (r, {| auth := auth st; world := w1; session := s1 |}).

(** A call of [lockEncryption()]: only React state is touched. *)
Definition lock (st : System) : System :=
  {| auth := auth st; world := world st;
     session := lockEncryption (session st) |}.

(** One operation of the provider. In [step_check], [step_setup] and
    [step_unlock] nothing else happens while the operation awaits; in
    [step_resume] a setup check resumes that was started in any earlier
    render, with any answer of [hasEncryptedKey]. *)
Inductive step : System -> System -> Prop :=
| step_auth st a' net : step st (authChange a' net st)
| step_check st net : step st (recheck net st)
| step_resume st closure a hasLocalKey net :
    step st (resume closure a hasLocalKey net st)
| step_setup st passphrase net : step st (snd (setup passphrase net st))
| step_unlock st passphrase net : step st (snd (unlock passphrase net st))
| step_lock st : step st (lock st).

(** *** Vocabulary of the properties *)

(** A failed call leaves key and flag alone; a successful one sets both,
    and needs a user. *)
Definition outcome_sound (a : Auth) (s : State) (r : result unit)
    (s1 : State) : Prop :=
  match r with
  | Ok _ =>
      is_Some (encryptionKey s1) /\ isUnlocked s1 = true
      /\ Js.truthy_opt (userSub a) = true
  | Throw _ =>
      encryptionKey s1 = encryptionKey s /\ isUnlocked s1 = isUnlocked s
  end.

(** The status of a user whose backend holds records but no salt. *)
Definition inconsistentStatus : StatusBody :=
  {| hasSalt := false; hasAnalyses := true; salt := None |}.

(** The status of a user who never set encryption up. *)
Definition freshStatus : StatusBody :=
  {| hasSalt := false; hasAnalyses := false; salt := None |}.

Definition withStatus (body : StatusBody) (net : Net) : Net :=
  {| now := now net;
     statusResponse := Body body;
     analysesResponse := analysesResponse net;
     saltResponse := saltResponse net;
     storeFault := storeFault net |}.

(** [unlockEncryption] got as far as a candidate key: there is a user,
    a salt was found (in memory or at the backend; [w0] and [s0] are the
    world and the state after looking for it), it decodes, and [key] is
    derived from it. *)
Definition candidateKey (passphrase : string) (a : Auth) (net : Net)
    (w : World) (s : State) (user : string) (w0 : World) (s0 : State)
    (saltText : string) (key : CryptoKey) : Prop :=
  userSub a = Some user
  /\ Js.truthy user = true
  /\ resolveSalt a net w s = (Some saltText, w0, s0)
  /\ Js.truthy saltText = true
  /\ exists saltBytes,
       saltOfBase64 saltText = Ok saltBytes
       /\ key = Crypto.deriveKey passphrase saltBytes
                 Crypto.PBKDF2_ITERATIONS.

(** The key material decrypts under [key] and names [user]. *)
Definition vouches (user : string) (key : CryptoKey) (material : string)
    : Prop :=
  exists decrypted data,
    Crypto.decryptKeyMaterial material key = Ok decrypted
    /\ Crypto.parse decrypted = Ok data
    /\ Json.member data "userSub" = Ok (Some (Json.JStr user)).

(** The key material that an accepted unlock writes on a device that had
    none. *)
Definition freshMaterial (user : string) (key : CryptoKey) (net : Net)
    (w : World) : string :=
  fst (Crypto.encryptKeyMaterial (verificationData user net) key (rng w)).

(** The passphrase was accepted on a device without key material. *)
Definition acceptedAndStored (user : string) (key : CryptoKey) (net : Net)
    (w0 : World) (r : result unit) (w1 : World) (s1 : State) : Prop :=
  r = Ok tt
  /\ encryptionKey s1 = Some key
  /\ isUnlocked s1 = true
  /\ IndexedDB.getEncryptedKey user (idb w1)
     = Ok (Some (freshMaterial user key net w0)).

End WithPlatform.

End Session.

(** ** useRateLimitStatus.ts: the Lockout Tracker *)

Module RateLimit.

(** Timestamps and counters are integers (milliseconds since the epoch,
    numbers of attempts); [null] and [undefined] are [None]. *)
Record RateLimitStatus : Type := {
  isLocked : bool;
  remainingSeconds : Z;
  attempts : Z;
  lockedUntil : option Z;
}.

Definition defaultStatus : RateLimitStatus :=
  {| isLocked := false; remainingSeconds := 0; attempts := 0;
     lockedUntil := None |}.

(** The object kept under [lockout_<userSub>]. *)
Record LockoutRecord : Type := {
  cachedLockedUntil : option Z;
  cachedAttempts : option Z;
  timestamp : Z;
}.

(** A value of [localStorage]: the empty text, a text on which the [try]
    block throws, or the text of a lockout record. *)
Inductive Stored : Type :=
| Blank
| Malformed
| Entry (r : LockoutRecord).

(** The body of [GET /api/encryption/unlock-attempts]. *)
Record AttemptsBody : Type := {
  reportedAttempts : option Z;
  reportedLockedUntil : option Z;
}.

(** The hook: its state, its ref, and the browser around it. *)
Record Hook : Type := {
  status : RateLimitStatus;
  lastCheckTime : Z;
  localStorage : gmap string Stored;
  dispatched : list string;
}.

Definition initialHook (storage : gmap string Stored) : Hook :=
  {| status := defaultStatus; lastCheckTime := 0;
     localStorage := storage; dispatched := [] |}.

(** What a call receives: [Date.now()] when it starts, [Date.now()] once
    the response has arrived, and the response. *)
Record Inputs : Type := {
  now : Z;
  nowAfterFetch : Z;
  response : Response AttemptsBody;
}.

Definition MIN_CHECK_INTERVAL : Z := 1000.

Definition lockoutKey (userSub : string) : string :=
  String.append "lockout_" userSub.

(** Truthiness of [number | null | undefined]. *)
Definition truthyNumber (n : option Z) : bool :=
  match n with
  | Some v => negb (v =? 0)
  | None => false
  end.

(** [n || 0] *)
Definition orZero (n : option Z) : Z := default 0 n.

(** [n || null] *)
Definition orNull (n : option Z) : option Z :=
  if truthyNumber n then n else None.

(** [Math.ceil(x / 1000)] on an integer [x]. *)
Definition ceilSeconds (x : Z) : Z := - ((- x) / 1000).

Definition setStatus (st : RateLimitStatus) (h : Hook) : Hook :=
  {| status := st; lastCheckTime := lastCheckTime h;
     localStorage := localStorage h; dispatched := dispatched h |}.
Definition setLastCheckTime (t : Z) (h : Hook) : Hook :=
  {| status := status h; lastCheckTime := t;
     localStorage := localStorage h; dispatched := dispatched h |}.
Definition setItem (k : string) (v : Stored) (h : Hook) : Hook :=
  {| status := status h; lastCheckTime := lastCheckTime h;
     localStorage := <[k := v]> (localStorage h);
     dispatched := dispatched h |}.
Definition removeItem (k : string) (h : Hook) : Hook :=
  {| status := status h; lastCheckTime := lastCheckTime h;
     localStorage := delete k (localStorage h);
     dispatched := dispatched h |}.
Definition dispatchEvent (userSub : string) (h : Hook) : Hook :=
  {| status := status h; lastCheckTime := lastCheckTime h;
     localStorage := localStorage h;
     dispatched := dispatched h ++ [userSub] |}.

(** The status computed from a record of [localStorage]. *)
Definition statusOfCache (r : LockoutRecord) (t : Z) : RateLimitStatus :=
  let remaining :=
    if truthyNumber (cachedLockedUntil r)
    then Z.max 0 (orZero (cachedLockedUntil r) - t)
    else 0 in
  {| isLocked := 0 <? remaining;
     remainingSeconds := ceilSeconds remaining;
     attempts := orZero (cachedAttempts r);
     lockedUntil := orNull (cachedLockedUntil r) |}.

(** The status computed from the answer of the backend. *)
Definition statusOfBackend (data : AttemptsBody) (t : Z) : RateLimitStatus :=
  {| isLocked :=
       truthyNumber (reportedLockedUntil data)
       && (t <? orZero (reportedLockedUntil data));
     remainingSeconds :=
       if truthyNumber (reportedLockedUntil data)
       then ceilSeconds (orZero (reportedLockedUntil data) - t)
       else 0;
     attempts := orZero (reportedAttempts data);
     lockedUntil := orNull (reportedLockedUntil data) |}.

(** The part of [checkStatus] after the look at [localStorage]. *)
Definition checkBackend (userSub : string) (i : Inputs) (h : Hook) : Hook :=
  match response i with
  | Body data =>
      let st := statusOfBackend data (nowAfterFetch i) in
      let h1 := setStatus st h in
      if isLocked st
         || (truthyNumber (reportedAttempts data)
             && (0 <? orZero (reportedAttempts data)))
      then
        dispatchEvent userSub
          (setItem (lockoutKey userSub)
             (Entry {| cachedLockedUntil := reportedLockedUntil data;
                       cachedAttempts := reportedAttempts data;
                       timestamp := nowAfterFetch i |}) h1)
      else removeItem (lockoutKey userSub) h1
  | NotOk => setStatus defaultStatus h
  | Failed _ => setStatus defaultStatus h
  end.

(** [hasToken] tells whether [getAccessTokenSilently] was passed. *)
Definition checkStatus (userSub : option string) (hasToken : bool)
    (i : Inputs) (h : Hook) : Hook :=
  match userSub with
  | Some user =>
      if negb (Js.truthy user) || negb hasToken then h
      else if now i - lastCheckTime h <? MIN_CHECK_INTERVAL then h
      else
        let h1 := setLastCheckTime (now i) h in
        match localStorage h1 !! lockoutKey user with
        | Some (Entry r) => setStatus (statusOfCache r (now i)) h1
        | Some Malformed =>
            checkBackend user i (removeItem (lockoutKey user) h1)
        | Some Blank | None => checkBackend user i h1
        end
  | None => h
  end.

End RateLimit.

(** ** EncryptionContext.tsx: encrypting and decrypting records *)

Module Records.
Section WithPlatform.
Context {P : Platform}.

(** The fields of an analysis that stay in the clear. The types [Analysis]
    and [EncryptedAnalysis] are declared in [types/api]; the fields here
    are the ones [decryptData] copies. A field that the object lacks is
    [None]. *)
Record Metadata : Type := {
  id : option string;
  userSub : option string;
  inputType : option string;
  createdAt : option string;
  updatedAt : option string;
}.

(** [Partial<Analysis>]: what [encryptData] is given. *)
Record PartialAnalysis : Type := {
  meta : Metadata;
  userEmail : option string;
  inputContent : option string;
  analysisContext : Js.optional json;
  mlResult : option json;
}.

Record EncryptedAnalysis : Type := {
  encryptedMeta : Metadata;
  encryptedFields : Crypto.EncryptedAnalysisData;
}.

Record Analysis : Type := {
  analysisMeta : Metadata;
  analysisFields : Crypto.AnalysisData;
}.

Definition NotUnlocked : string := "Encryption not unlocked".
Definition MissingFields : string := "Missing required fields for encryption".

(** The result is [{ ...data, ...encrypted }]. *)
Definition encryptData (s : Session.State) (data : PartialAnalysis) (g : Rng)
    : result EncryptedAnalysis * Rng :=
  match Session.encryptionKey s with
  | None => (Throw NotUnlocked, g)
  | Some key =>
      match userEmail data, inputContent data, mlResult data with
      | Some email, Some content, Some ml =>
          if negb (Js.truthy email) || negb (Js.truthy content)
             || negb (Json.is_truthy number_truthy ml)
          then (Throw MissingFields, g)
          else
            let (encrypted, g') :=
              Crypto.encryptAnalysisData
                {| Crypto.userEmail := email;
                   Crypto.inputContent := content;
                   Crypto.analysisContext := analysisContext data;
                   Crypto.mlResult := ml |} key g in
            (Ok {| encryptedMeta := meta data;
                   encryptedFields := encrypted |}, g')
      | _, _, _ => (Throw MissingFields, g)
      end
  end.

Definition decryptData (s : Session.State) (encrypted : EncryptedAnalysis)
    : result Analysis :=
  match Session.encryptionKey s with
  | None => Throw NotUnlocked
  | Some key =>
      let* decrypted :=
        Crypto.decryptAnalysisData (encryptedFields encrypted) key in
      Ok {| analysisMeta := encryptedMeta encrypted;
            analysisFields := decrypted |}
  end.

(** *** HistoryDrawer.tsx: loading the history *)

(** What [loadHistory] shows for a record that does not decrypt. *)
Definition placeholder (encrypted : EncryptedAnalysis) : Analysis :=
  {| analysisMeta := encryptedMeta encrypted;
     analysisFields :=
       {| Crypto.userEmail := "[Encrypted]";
          Crypto.inputContent := "[Decryption failed]";
          Crypto.analysisContext := Js.Undefined;
          Crypto.mlResult :=
            Json.JObj [("is_phishing", Json.JBool false);
                       ("phishing_probability",
                        Json.JNum (number_of_Z 0))] |} |}.

(** The state of the drawer and the error toasts it raised. *)
Record Drawer : Type := {
  analyses : list Analysis;
  loading : bool;
  toasts : list string;
}.

(** [try { return await decryptData(encrypted) } catch { ...placeholder }] *)
Definition decryptOrPlaceholder (s : Session.State)
    (encrypted : EncryptedAnalysis) : Analysis :=
  match decryptData s encrypted with
  | Ok analysis => analysis
  | Throw _ => placeholder encrypted
  end.

(** [s] is the session the drawer was rendered with; [fetched] is the
    outcome of [getAccessTokenSilently] followed by
    [backendService.getAnalyses]: the items of the response, or the
    message of the error thrown. [loading] is set on entry and reset in
    the [finally] block. *)
Definition loadHistory (s : Session.State)
    (fetched : result (list EncryptedAnalysis)) (d : Drawer) : Drawer :=
  if negb (Session.isUnlocked s) then
    {| analyses := analyses d; loading := false;
       toasts :=
         toasts d
         ++ ["Encryption not unlocked. Please unlock encryption to view history."] |}
  else
    match fetched with
    | Ok items =>
        {| analyses := map (decryptOrPlaceholder s) items; loading := false;
           toasts := toasts d |}
    | Throw m =>
        {| analyses := analyses d; loading := false;
           toasts := toasts d ++ [Js.or_else (Some m) "Failed to load history"] |}
    end.

End WithPlatform.
End Records.

(** ** useRateLimitStatus.ts: changes made by other tabs *)

Module RateLimitEvents.

(** The listener of ['storage'] events; [key] is [e.key]. *)
Definition handleStorageChange (key : option string) (userSub : option string)
    (hasToken : bool) (i : RateLimit.Inputs) (h : RateLimit.Hook)
    : RateLimit.Hook :=
  match key with
  | Some k =>
      if String.prefix "lockout_" k && Js.includes (default "" userSub) k
      then RateLimit.checkStatus userSub hasToken i h
      else h
  | None => h
  end.

End RateLimitEvents.

(** ** EncryptionUnlock.tsx: the unlock dialog *)

Module UnlockDialog.
Section WithPlatform.
Context {P : Platform}.

Record Form : Type := {
  passphrase : string;
  error : string;
  toasts : list string;
}.

(** [`Account is locked. Try again in ${remainingSeconds} seconds.`] *)
Definition lockedMessage (st : RateLimit.RateLimitStatus) : string :=
  String.append "Account is locked. Try again in "
    (String.append (pretty (RateLimit.remainingSeconds st)) " seconds.").

(** The hook is given [user?.sub || null] and [getAccessTokenSilently]. *)
Definition checkRateLimitStatus (a : Session.Auth) (i : RateLimit.Inputs)
    (h : RateLimit.Hook) : RateLimit.Hook :=
  RateLimit.checkStatus (Js.or_null (Session.userSub a)) true i h.

(** [rateLimitStatus] is the status of the hook when the form is
    submitted. The state [logs] is only ever set to the empty list and
    is not part of [Form]. The [Form] returned is what the setters of
    the dialog that handled the submit are called with. [App] renders
    no dialog while the provider has [isLoading] set, and
    [unlockEncryption] sets it: in the third branch the dialog that
    handled the submit is unmounted by the time these setters run, and
    the dialog mounted afterwards starts from an empty form. *)
Definition handleSubmit (net : Session.Net) (i : RateLimit.Inputs)
    (st : Session.System) (h : RateLimit.Hook) (f : Form)
    : Session.System * RateLimit.Hook * Form :=
  if RateLimit.isLocked (RateLimit.status h) then
    (st, h,
     {| passphrase := passphrase f;
        error := lockedMessage (RateLimit.status h);
        toasts := toasts f |})
  else if negb (Js.truthy (passphrase f)) then
    (st, h,
     {| passphrase := passphrase f;
        error := "Please enter your passphrase";
        toasts := toasts f |})
  else
    match Session.unlock (passphrase f) net st with
    | (Ok _, st') =>
        (st', h,
         {| passphrase := ""; error := "";
            toasts := toasts f ++ ["Encryption unlocked"] |})
    | (Throw m, st') =>
        (st', checkRateLimitStatus (Session.auth st) i h,
         {| passphrase := passphrase f;
            error := Js.or_else (Some m) "Failed to unlock encryption";
            toasts := toasts f |})
    end.

End WithPlatform.
End UnlockDialog.

(** ** A reference platform

    A small executable platform, used to run the code above on concrete
    inputs: text is held in UTF-8 and decoding drops a leading byte order
    mark, the cipher prefixes the plaintext with a tag computed from key
    and nonce, base64 is the identity, and JSON is written in a prefix
    notation (lengths in unary, numbers in binary). *)

Module Reference.
Local Open Scope list_scope.

Definition byte_of_nat (n : nat) : byte :=
  default "000"%byte (Byte.of_N (N.of_nat (n mod 256))).

Definition random (n : nat) (g : nat) : list byte * nat :=
  (repeat (byte_of_nat g) n, S g).

Definition tag (key nonce : list byte) : byte :=
  byte_of_nat
    (fold_right (fun b acc => (N.to_nat (Byte.to_N b) + acc)%nat) 0%nat
       (key ++ nonce)).

Definition seal (key nonce plaintext : list byte) : list byte :=
  tag key nonce :: plaintext.

Definition open (key nonce sealed : list byte) : option (list byte) :=
  match sealed with
  | t :: plaintext =>
      if Byte.eqb t (tag key nonce) then Some plaintext else None
  | [] => None
  end.

Definition derive (password salt : list byte) (iterations length : Z)
    : list byte :=
  password ++ salt.

(** *** JSON in prefix notation *)

Definition put_nat (n : nat) : list ascii :=
  repeat "1"%char n ++ ["0"%char].

Fixpoint get_nat (input : list ascii) : option (nat * list ascii) :=
  match input with
  | c :: rest =>
      if Ascii.eqb c "1" then
        match get_nat rest with
        | Some (n, rest') => Some (S n, rest')
        | None => None
        end
      else if Ascii.eqb c "0" then Some (0%nat, rest)
      else None
  | [] => None
  end.

(** Binary digits, least significant first; ["."] is the leading one. *)
Fixpoint put_positive (p : positive) : list ascii :=
  match p with
  | xH => ["."%char]
  | xO q => "0"%char :: put_positive q
  | xI q => "1"%char :: put_positive q
  end.

Fixpoint get_positive (input : list ascii) : option (positive * list ascii) :=
  match input with
  | c :: rest =>
      if Ascii.eqb c "." then Some (xH, rest)
      else
        match get_positive rest with
        | Some (q, rest') =>
            if Ascii.eqb c "0" then Some (xO q, rest')
            else if Ascii.eqb c "1" then Some (xI q, rest')
            else None
        | None => None
        end
  | [] => None
  end.

Definition put_Z (z : Z) : list ascii :=
  match z with
  | Z0 => ["z"%char]
  | Zpos p => "+"%char :: put_positive p
  | Zneg p => "-"%char :: put_positive p
  end.

Definition get_Z (input : list ascii) : option (Z * list ascii) :=
  match input with
  | c :: rest =>
      if Ascii.eqb c "z" then Some (0, rest)
      else
        match get_positive rest with
        | Some (p, rest') =>
            if Ascii.eqb c "+" then Some (Zpos p, rest')
            else if Ascii.eqb c "-" then Some (Zneg p, rest')
            else None
        | None => None
        end
  | [] => None
  end.

Definition put_string (s : string) : list ascii :=
  put_nat (String.length s) ++ list_ascii_of_string s.

Definition get_string (input : list ascii) : option (string * list ascii) :=
  match get_nat input with
  | Some (n, rest) =>
      if (n <=? length rest)%nat
      then Some (string_of_list_ascii (take n rest), drop n rest)
      else None
  | None => None
  end.

Fixpoint write (v : Json.json Z) : list ascii :=
  match v with
  | Json.JNull => ["n"%char]
  | Json.JBool true => ["t"%char]
  | Json.JBool false => ["f"%char]
  | Json.JNum z => "#"%char :: put_Z z
  | Json.JStr s => "s"%char :: put_string s
  | Json.JArr items =>
      "a"%char :: put_nat (length items) ++ flat_map write items
  | Json.JObj members =>
      "o"%char :: put_nat (length members)
        ++ flat_map (fun kv => put_string (fst kv) ++ write (snd kv)) members
  end.

(** [n] values read one after the other with [p]. *)
Fixpoint many {A} (p : list ascii -> option (A * list ascii)) (n : nat)
    (input : list ascii) : option (list A * list ascii) :=
  match n with
  | O => Some ([], input)
  | S n' =>
      match p input with
      | Some (x, rest) =>
          match many p n' rest with
          | Some (xs, rest') => Some (x :: xs, rest')
          | None => None
          end
      | None => None
      end
  end.

(** A name followed by a value read with [p]. *)
Definition keyed {A} (p : list ascii -> option (A * list ascii))
    (input : list ascii) : option ((string * A) * list ascii) :=
  match get_string input with
  | Some (k, r) =>
      match p r with
      | Some (v, r') => Some ((k, v), r')
      | None => None
      end
  | None => None
  end.

Fixpoint read (fuel : nat) (input : list ascii)
    : option (Json.json Z * list ascii) :=
  match fuel with
  | O => None
  | S fuel' =>
      match input with
      | c :: rest =>
          if Ascii.eqb c "n" then Some (Json.JNull, rest)
          else if Ascii.eqb c "t" then Some (Json.JBool true, rest)
          else if Ascii.eqb c "f" then Some (Json.JBool false, rest)
          else if Ascii.eqb c "#" then
            match get_Z rest with
            | Some (z, rest') => Some (Json.JNum z, rest')
            | None => None
            end
          else if Ascii.eqb c "s" then
            match get_string rest with
            | Some (s, rest') => Some (Json.JStr s, rest')
            | None => None
            end
          else if Ascii.eqb c "a" then
            match get_nat rest with
            | Some (n, rest') =>
                match many (read fuel') n rest' with
                | Some (items, rest'') => Some (Json.JArr items, rest'')
                | None => None
                end
            | None => None
            end
          else if Ascii.eqb c "o" then
            match get_nat rest with
            | Some (n, rest') =>
                match many (keyed (read fuel')) n rest' with
                | Some (members, rest'') => Some (Json.JObj members, rest'')
                | None => None
                end
            | None => None
            end
          else None
      | [] => None
      end
  end.

Definition stringify (v : Json.json Z) : string :=
  string_of_list_ascii (write v).

(** U+FEFF in UTF-8. *)
Definition byteOrderMark : string :=
  String "239" (String "187" (String "191" EmptyString)).

Definition withoutMark (text : string) : string :=
  match text with
  | String a rest1 =>
      if Ascii.eqb a "239" then
        match rest1 with
        | String b rest2 =>
            if Ascii.eqb b "187" then
              match rest2 with
              | String c rest => if Ascii.eqb c "191" then rest else text
              | EmptyString => text
              end
            else text
        | EmptyString => text
        end
      else text
  | EmptyString => text
  end.

(** [new TextDecoder().decode(bytes)]: a leading byte order mark is not
    part of the text. *)
Definition decode (bytes : list byte) : string :=
  withoutMark (string_of_list_byte bytes).

Definition unstringify (text : string) : option (Json.json Z) :=
  match read (S (String.length text)) (list_ascii_of_string text) with
  | Some (v, []) => Some v
  | _ => None
  end.

Definition platform : Platform :=
  {| number := Z;
     number_truthy := fun z => negb (z =? 0);
     number_of_Z := fun z => z;
     CryptoKey := list byte;
     Rng := nat;
     getRandomValues := random;
     TextEncoder_encode := list_byte_of_string;
     TextDecoder_decode := decode;
     pbkdf2 := derive;
     aes_gcm_encrypt := seal;
     aes_gcm_decrypt := open;
     btoa := fun s => s;
     atob := fun s => Some s;
     JSON_stringify := stringify;
     JSON_parse := unstringify;
     toISOString := fun z => pretty z |}.

End Reference.

(** ** The code at work on the reference platform *)

Module Scenario.
Import Session.
#[local] Existing Instance Reference.platform.

Definition user : string := "auth0|u1".

Definition signedIn : Auth :=
  {| isAuthenticated := true; userSub := Some user |}.
Definition signedOut : Auth :=
  {| isAuthenticated := false; userSub := None |}.

Definition emptyWorld : World :=
  {| idb := {| IndexedDB.opens := true; IndexedDB.encryptionKeys := ∅ |};
     rng := 65%nat;
     console := [] |}.

(** The backend of a user who never set encryption up. *)
Definition netFresh : Net :=
  {| now := 1700000000000;
     statusResponse :=
       Body {| hasSalt := false; hasAnalyses := false; salt := None |};
     analysesResponse := Body (Some []);
     saltResponse := Body tt;
     storeFault := None |}.

(** The backend holds records of the user, but no salt. *)
Definition netInconsistent : Net :=
  {| now := 1700000000000;
     statusResponse :=
       Body {| hasSalt := false; hasAnalyses := true; salt := None |};
     analysesResponse := Body (Some []);
     saltResponse := Body tt;
     storeFault := None |}.

(** First device: mount, set up, lock. *)
Definition mounted : System := mount signedIn netFresh emptyWorld.
Definition afterSetup : System :=
  snd (setup "correct-horse-battery" netFresh mounted).
Definition locked : System := lock afterSetup.

Definition saltText : string := default "" (userSalt (session afterSetup)).
Definition storedMaterial : string :=
  match IndexedDB.getEncryptedKey user (idb (world locked)) with
  | Ok (Some material) => material
  | _ => ""
  end.
Definition rightKey : CryptoKey :=
  Crypto.deriveKey "correct-horse-battery" (list_byte_of_string saltText)
    Crypto.PBKDF2_ITERATIONS.

(** A record without context, and one with a context. *)
Definition verdict : json :=
  Json.JObj [("is_phishing", Json.JBool true);
             ("phishing_probability", Json.JNum 1)].
Definition plainRecord : Crypto.AnalysisData :=
  {| Crypto.userEmail := "user@example.org";
     Crypto.inputContent := "Click here to verify your account";
     Crypto.analysisContext := Js.Undefined;
     Crypto.mlResult := verdict |}.
Definition recordWithContext : Crypto.AnalysisData :=
  {| Crypto.userEmail := "user@example.org";
     Crypto.inputContent := "Click here to verify your account";
     Crypto.analysisContext :=
       Js.Defined (Json.JObj [("sender", Json.JStr "bank@example.org");
                              ("links", Json.JArr [Json.JStr "http://x.test"])]);
     Crypto.mlResult := verdict |}.

(** A record whose content begins with U+FEFF. *)
Definition recordWithMark : Crypto.AnalysisData :=
  {| Crypto.userEmail := "user@example.org";
     Crypto.inputContent :=
       String.append Reference.byteOrderMark "Click here";
     Crypto.analysisContext := Js.Null;
     Crypto.mlResult := verdict |}.

(** Second device of the same user: no key material, the backend holds
    the salt and one record encrypted under the right key. *)
Definition remoteRecord : Crypto.EncryptedAnalysisData :=
  fst (Crypto.encryptAnalysisData recordWithContext rightKey 7%nat).
Definition netOtherDevice : Net :=
  {| now := 1700000500000;
     statusResponse :=
       Body {| hasSalt := true; hasAnalyses := true; salt := Some saltText |};
     analysesResponse := Body (Some [remoteRecord]);
     saltResponse := NotOk;
     storeFault := None |}.
Definition netOffline : Net :=
  {| now := 1700000500000;
     statusResponse :=
       Body {| hasSalt := true; hasAnalyses := true; salt := Some saltText |};
     analysesResponse := Failed "Failed to fetch";
     saltResponse := NotOk;
     storeFault := None |}.
Definition otherDevice : System := mount signedIn netOtherDevice emptyWorld.

(** The second device when the write of the verification record goes
    wrong: with the record at the backend, and with no record there. *)
Definition netStoreFails : Net :=
  {| now := 1700000500000;
     statusResponse :=
       Body {| hasSalt := true; hasAnalyses := true; salt := Some saltText |};
     analysesResponse := Body (Some [remoteRecord]);
     saltResponse := NotOk;
     storeFault := Some IndexedDB.RequestFails |}.
Definition netNoRecordStoreFails : Net :=
  {| now := 1700000500000;
     statusResponse :=
       Body {| hasSalt := true; hasAnalyses := false; salt := Some saltText |};
     analysesResponse := Body (Some []);
     saltResponse := NotOk;
     storeFault := Some IndexedDB.RequestFails |}.

(** The fetch of the records throws an error whose message is the one of
    a wrong passphrase. *)
Definition netMisleading : Net :=
  {| now := 1700000500000;
     statusResponse :=
       Body {| hasSalt := true; hasAnalyses := true; salt := Some saltText |};
     analysesResponse := Failed InvalidPassphrase;
     saltResponse := NotOk;
     storeFault := None |}.

(** A setup check that resumes late. The provider mounts before the
    user is signed in, which leaves [isLoading] false. The user signs
    in; the check of that render starts and awaits. While it awaits the
    user sets encryption up. Then the check goes on with the values of
    the render that started it. *)
Definition beforeSignIn : System := mount signedOut netFresh emptyWorld.
Definition atSignIn : System :=
  {| auth := signedIn;
     world := world beforeSignIn;
     session := session beforeSignIn |}.
Definition setUpMeanwhile : System :=
  snd (setup "correct-horse-battery" netFresh atSignIn).
Definition lateSalt : string :=
  default "" (userSalt (session setUpMeanwhile)).
Definition lateKey : CryptoKey :=
  Crypto.deriveKey "correct-horse-battery" (list_byte_of_string lateSalt)
    Crypto.PBKDF2_ITERATIONS.

(** The status as the backend reports it once the salt is saved. *)
Definition netSaltSaved : Net :=
  {| now := 1700000001000;
     statusResponse :=
       Body {| hasSalt := true; hasAnalyses := false;
               salt := Some lateSalt |};
     analysesResponse := Body (Some []);
     saltResponse := Body tt;
     storeFault := None |}.

(** The check resumes with the status of before the setup, or with the
    one of after it. *)
Definition afterStaleCheck : System :=
  resume (session atSignIn) signedIn (Ok false) netFresh setUpMeanwhile.
Definition afterStaleCheckSalt : System :=
  resume (session atSignIn) signedIn (Ok false) netSaltSaved setUpMeanwhile.

End Scenario.

Module LockoutScenario.
Import RateLimit.

Definition lockedUser : string := "auth0|u1".
Definition lockedUntilT : Z := 1700000300000.

(** The backend reports five attempts and a lockout until [lockedUntilT]. *)
Definition firstCall : Inputs :=
  {| now := 1700000000000;
     nowAfterFetch := 1700000000200;
     response := Body {| reportedAttempts := Some 5;
                         reportedLockedUntil := Some lockedUntilT |} |}.

(** A refresh one second after the lockout ended; the backend has reset
    its counter by then. *)
Definition refreshCall : Inputs :=
  {| now := 1700000301000;
     nowAfterFetch := 1700000301200;
     response := Body {| reportedAttempts := Some 0;
                         reportedLockedUntil := None |} |}.

(** The backend still reports a lockout that ended five seconds ago. *)
Definition pastLockout : Inputs :=
  {| now := 1700000305000;
     nowAfterFetch := 1700000305000;
     response := Body {| reportedAttempts := Some 3;
                         reportedLockedUntil := Some lockedUntilT |} |}.

End LockoutScenario.

Module StoreScenario.

Definition sampleRecord : IndexedDB.KeyRecord :=
  {| IndexedDB.userSub := "auth0|u1";
     IndexedDB.encryptedKeyMaterial := "blob";
     IndexedDB.salt := Some "c2FsdA==";
     IndexedDB.createdAt := "2024-01-01T00:00:00.000Z";
     IndexedDB.updatedAt := None |}.

Definition sampleDatabase : IndexedDB.Database :=
  {| IndexedDB.opens := true;
     IndexedDB.encryptionKeys := {[ "auth0|u1" := sampleRecord ]} |}.

End StoreScenario.

Module RecordScenario.
Import Session Scenario.
#[local] Existing Instance Reference.platform.

Definition sampleMeta : Records.Metadata :=
  {| Records.id := Some "a1";
     Records.userSub := Some user;
     Records.inputType := Some "email";
     Records.createdAt := Some "2024-01-01T00:00:00.000Z";
     Records.updatedAt := None |}.

(** An analysis as [PhishingChecker] hands it to [encryptData], and one
    that lacks [userEmail]. *)
Definition sampleAnalysis : Records.PartialAnalysis :=
  {| Records.meta := sampleMeta;
     Records.userEmail := Some "user@example.org";
     Records.inputContent := Some "Click here to verify your account";
     Records.analysisContext := Js.Undefined;
     Records.mlResult := Some verdict |}.
Definition withoutEmail : Records.PartialAnalysis :=
  {| Records.meta := sampleMeta;
     Records.userEmail := None;
     Records.inputContent := Some "Click here to verify your account";
     Records.analysisContext := Js.Undefined;
     Records.mlResult := Some verdict |}.

(** What the backend returns: a record encrypted under the right key,
    and one whose fields are no ciphertexts. *)
Definition storedAnalysis : Records.EncryptedAnalysis :=
  {| Records.encryptedMeta := sampleMeta;
     Records.encryptedFields := remoteRecord |}.
Definition damagedAnalysis : Records.EncryptedAnalysis :=
  {| Records.encryptedMeta :=
       {| Records.id := Some "a2";
          Records.userSub := Some user;
          Records.inputType := Some "url";
          Records.createdAt := Some "2024-01-02T00:00:00.000Z";
          Records.updatedAt := None |};
     Records.encryptedFields :=
       {| Crypto.encUserEmail := "damaged";
          Crypto.encInputContent := "damaged";
          Crypto.encAnalysisContext := None;
          Crypto.encMlResult := "damaged" |} |}.
Definition emptyDrawer : Records.Drawer :=
  {| Records.analyses := []; Records.loading := false;
     Records.toasts := [] |}.

(** The backend of a new user that does not accept the salt. *)
Definition netSaltRejected : Net :=
  {| now := 1700000000000;
     statusResponse :=
       Body {| hasSalt := false; hasAnalyses := false; salt := None |};
     analysesResponse := Body (Some []);
     saltResponse := NotOk;
     storeFault := None |}.

(** The unlock form when it is empty, and a call of the tracker. *)
Definition emptyForm : UnlockDialog.Form :=
  {| UnlockDialog.passphrase := ""; UnlockDialog.error := "";
     UnlockDialog.toasts := [] |}.
Definition trackerCall : RateLimit.Inputs :=
  {| RateLimit.now := 1700000600000;
     RateLimit.nowAfterFetch := 1700000600200;
     RateLimit.response :=
       Body {| RateLimit.reportedAttempts := Some 1;
               RateLimit.reportedLockedUntil := None |} |}.

End RecordScenario.

(** * Properties *)

(** ** The reference platform obeys the platform laws *)

Module ReferenceFacts.
Import Reference.
Local Open Scope list_scope.

(** Induction on JSON values, with the hypothesis for every item of an
    array and every member of an object. *)
Lemma json_induction (number : Type) (Q : Json.json number -> Prop) :
  Q Json.JNull ->
  (forall b, Q (Json.JBool b)) ->
  (forall n, Q (Json.JNum n)) ->
  (forall s, Q (Json.JStr s)) ->
  (forall items, Forall Q items -> Q (Json.JArr items)) ->
  (forall members,
      Forall (fun kv => Q (snd kv)) members -> Q (Json.JObj members)) ->
  forall v, Q v.
Proof.
  intros Hnull Hbool Hnum Hstr Harr Hobj.
  fix IH 1. intros [ | b | n | s | items | members ].
  - exact Hnull.
  - apply Hbool.
  - apply Hnum.
  - apply Hstr.
  - apply Harr. induction items as [ | v items IHitems ].
    + constructor.
    + constructor; [ apply IH | exact IHitems ].
  - apply Hobj. induction members as [ | [k v] members IHmembers ].
    + constructor.
    + constructor; [ apply IH | exact IHmembers ].
Qed.

Lemma get_put_nat n rest : get_nat (put_nat n ++ rest) = Some (n, rest).
Proof.
  unfold put_nat. induction n as [ | n IHn ]; simpl.
  - reflexivity.
  - simpl in IHn. rewrite IHn. reflexivity.
Qed.

Lemma get_put_positive p rest :
  get_positive (put_positive p ++ rest) = Some (p, rest).
Proof.
  induction p as [ q IHq | q IHq | ]; simpl; rewrite ?IHq; reflexivity.
Qed.

Lemma get_put_Z z rest : get_Z (put_Z z ++ rest) = Some (z, rest).
Proof.
  destruct z as [ | p | p ]; simpl; rewrite ?get_put_positive; reflexivity.
Qed.

Lemma length_list_ascii_of_string s :
  length (list_ascii_of_string s) = String.length s.
Proof. induction s as [ | c s IHs ]; simpl; congruence. Qed.

Lemma length_string_of_list_ascii l :
  String.length (string_of_list_ascii l) = length l.
Proof. induction l as [ | c l IHl ]; simpl; congruence. Qed.

Lemma get_put_string s rest :
  get_string (put_string s ++ rest) = Some (s, rest).
Proof.
  unfold put_string, get_string.
  rewrite <- app_assoc, get_put_nat.
  rewrite <- length_list_ascii_of_string.
  destruct (Nat.leb_spec (length (list_ascii_of_string s))
              (length (list_ascii_of_string s ++ rest))) as [ _ | Hlt ].
  - rewrite take_app_length, drop_app_length.
    rewrite string_of_list_ascii_of_string. reflexivity.
  - rewrite length_app in Hlt. lia.
Qed.

Lemma many_spec {A} (p : list ascii -> option (A * list ascii))
    (w : A -> list ascii) (xs : list A) rest :
  Forall (fun x => forall r, p (w x ++ r) = Some (x, r)) xs ->
  many p (length xs) (flat_map w xs ++ rest) = Some (xs, rest).
Proof.
  induction 1 as [ | x xs Hx _ IHxs ]; simpl.
  - reflexivity.
  - rewrite <- app_assoc, Hx, IHxs. reflexivity.
Qed.

Lemma length_flat_map_elem {A} (w : A -> list ascii) (xs : list A) x :
  In x xs -> (length (w x) <= length (flat_map w xs))%nat.
Proof.
  induction xs as [ | y xs IHxs ]; simpl; [ tauto | ].
  rewrite length_app. intros [ -> | Hin ]; [ lia | ].
  specialize (IHxs Hin). lia.
Qed.

Lemma length_write_pos (v : Json.json Z) : (1 <= length (write v))%nat.
Proof. destruct v as [ | [ | ] | | | | ]; simpl; lia. Qed.

Lemma read_num fuel input :
  read (S fuel) ("#"%char :: input)
  = match get_Z input with
    | Some (z, rest) => Some (Json.JNum z, rest)
    | None => None
    end.
Proof. reflexivity. Qed.

Lemma read_str fuel input :
  read (S fuel) ("s"%char :: input)
  = match get_string input with
    | Some (s, rest) => Some (Json.JStr s, rest)
    | None => None
    end.
Proof. reflexivity. Qed.

Lemma read_arr fuel input :
  read (S fuel) ("a"%char :: input)
  = match get_nat input with
    | Some (n, rest) =>
        match many (read fuel) n rest with
        | Some (items, rest') => Some (Json.JArr items, rest')
        | None => None
        end
    | None => None
    end.
Proof. reflexivity. Qed.

Lemma read_obj fuel input :
  read (S fuel) ("o"%char :: input)
  = match get_nat input with
    | Some (n, rest) =>
        match many (keyed (read fuel)) n rest with
        | Some (members, rest') => Some (Json.JObj members, rest')
        | None => None
        end
    | None => None
    end.
Proof. reflexivity. Qed.

Lemma read_write (v : Json.json Z) :
  forall fuel rest,
    (length (write v) <= fuel)%nat ->
    read fuel (write v ++ rest) = Some (v, rest).
Proof.
  induction v as [ | b | z | s | items IHitems | members IHmembers ]
    using json_induction; intros [ | fuel ] rest Hfuel;
    try (exfalso;
         match type of Hfuel with
         | (length (write ?x) <= 0)%nat =>
             pose proof (length_write_pos x); lia
         end).
  - reflexivity.
  - destruct b; reflexivity.
  - change (write (Json.JNum z) ++ rest)
      with ("#"%char :: (put_Z z ++ rest)).
    rewrite read_num, get_put_Z. reflexivity.
  - change (write (Json.JStr s) ++ rest)
      with ("s"%char :: (put_string s ++ rest)).
    rewrite read_str, get_put_string. reflexivity.
  - change (write (Json.JArr items))
      with ("a"%char :: (put_nat (length items) ++ flat_map write items))
      in *.
    simpl length in Hfuel. rewrite length_app in Hfuel.
    rewrite <- app_comm_cons, <- app_assoc, read_arr, get_put_nat.
    rewrite (many_spec (read fuel) write items rest); [ reflexivity | ].
    rewrite Forall_forall in IHitems |- *. intros v Hv r.
    apply IHitems; [ exact Hv | ].
    apply list_elem_of_In in Hv.
    pose proof (length_flat_map_elem write items v Hv) as Hle. lia.
  - change (write (Json.JObj members))
      with ("o"%char
            :: (put_nat (length members)
                ++ flat_map
                     (fun kv => put_string (fst kv) ++ write (snd kv))
                     members)) in *.
    simpl length in Hfuel. rewrite length_app in Hfuel.
    rewrite <- app_comm_cons, <- app_assoc, read_obj, get_put_nat.
    rewrite (many_spec (keyed (read fuel))
               (fun kv => put_string (fst kv) ++ write (snd kv))
               members rest); [ reflexivity | ].
    rewrite Forall_forall in IHmembers |- *. intros [k v] Hkv r.
    unfold keyed. cbn [fst snd].
    rewrite <- app_assoc, get_put_string.
    pose proof (IHmembers (k, v) Hkv fuel r) as Hv. cbn [snd] in Hv.
    rewrite Hv; [ reflexivity | ].
    apply list_elem_of_In in Hkv.
    pose proof (length_flat_map_elem
                  (fun kv => put_string (fst kv) ++ write (snd kv))
                  members (k, v) Hkv) as Hle.
    cbn [fst snd] in Hle. rewrite length_app in Hle. lia.
Qed.

Lemma unstringify_stringify v : unstringify (stringify v) = Some v.
Proof.
  unfold unstringify, stringify.
  rewrite list_ascii_of_string_of_list_ascii, length_string_of_list_ascii.
  pose proof (read_write v (S (length (write v))) []) as Hread.
  rewrite app_nil_r in Hread. rewrite Hread; [ reflexivity | lia ].
Qed.

Lemma stringify_nonempty v : stringify v <> "".
Proof.
  unfold stringify. destruct v as [ | [ | ] | | | | ]; simpl; discriminate.
Qed.

Lemma open_seal key nonce plaintext :
  open key nonce (seal key nonce plaintext) = Some plaintext.
Proof.
  unfold open, seal.
  rewrite (Byte.byte_dec_lb (x := tag key nonce) eq_refl).
  reflexivity.
Qed.

Lemma decode_encode_stringify v :
  decode (list_byte_of_string (stringify v)) = stringify v.
Proof.
  unfold decode. rewrite string_of_list_byte_of_string. unfold stringify.
  destruct v as [ | [ | ] | z | text | items | members ]; reflexivity.
Qed.

Lemma laws : PlatformLaws platform.
Proof.
  constructor; simpl.
  - intros n g. apply repeat_length.
  - apply decode_encode_stringify.
  - reflexivity.
  - intros k nonce p _. apply open_seal.
  - intros k nonce p. unfold seal. discriminate.
  - reflexivity.
  - intros s Hs. exact Hs.
  - intros v _. apply unstringify_stringify.
  - apply stringify_nonempty.
Qed.

End ReferenceFacts.

(** ** The Local Key-Material Store *)

Section StoreFacts.
Import IndexedDB.

Lemma lookup_put r db :
  encryptionKeys (put r db) !! userSub r = Some r.
Proof. unfold put. simpl. apply lookup_insert_eq. Qed.

Lemma opens_put r db : opens (put r db) = opens db.
Proof. reflexivity. Qed.

Lemma getEncryptedKey_put r db :
  opens db = true ->
  getEncryptedKey (userSub r) (put r db) = Ok (Some (encryptedKeyMaterial r)).
Proof.
  intros Hopen. unfold getEncryptedKey, initDB. rewrite opens_put, Hopen.
  simpl. rewrite lookup_insert_eq. reflexivity.
Qed.

Lemma hasEncryptedKey_put r db :
  opens db = true -> hasEncryptedKey (userSub r) (put r db) = Ok true.
Proof.
  intros Hopen. unfold hasEncryptedKey.
  rewrite getEncryptedKey_put by exact Hopen. reflexivity.
Qed.

Lemma clearEncryptedKey_existing user nowIso db r :
  opens db = true ->
  encryptionKeys db !! user = Some r ->
  clearEncryptedKey user nowIso db = Ok (put (cleared user nowIso r) db).
Proof.
  intros Hopen Hr. unfold clearEncryptedKey, initDB. rewrite Hopen. simpl.
  rewrite Hr. reflexivity.
Qed.

(** The salt read back through [getSalt] is the one read before. *)
Lemma clear_preserves_salt user nowIso db r db' :
  opens db = true ->
  encryptionKeys db !! user = Some r ->
  clearEncryptedKey user nowIso db = Ok db' ->
  getSalt user db' = getSalt user db.
Proof.
  intros Hopen Hr Hclear.
  rewrite (clearEncryptedKey_existing _ _ _ _ Hopen Hr) in Hclear.
  injection Hclear as <-.
  unfold getSalt, initDB. rewrite opens_put, Hopen. simpl.
  rewrite lookup_insert_eq, Hr. simpl.
  destruct (salt r) as [ v | ]; simpl; [ | reflexivity ].
  unfold Js.or_null, Js.truthy_opt.
  destruct (Js.truthy v) eqn:Hv; simpl; rewrite ?Hv; reflexivity.
Qed.

(** C10. For a user whose local store holds a record, after
    [clearEncryptedKey] has blanked the key material,
    [hasEncryptedKey] still answers [true] and [getEncryptedKey] answers
    the empty text, not [null]. A record that only ever received a salt
    (through [storeSalt]) reads exactly the same through both, so
    [getEncryptedKey] alone does not tell a cleared blob from one that was
    never stored; and [hasEncryptedKey] does not mean that a usable blob
    is there, for the text it answers for is falsy. *)
Theorem cleared_record_still_present user nowIso db r :
  opens db = true ->
  encryptionKeys db !! user = Some r ->
  exists db' blob,
    clearEncryptedKey user nowIso db = Ok db'
    /\ hasEncryptedKey user db' = Ok true
    /\ getEncryptedKey user db' = Ok blob
    /\ blob = Some ""
    /\ Js.truthy_opt blob = false
    /\ forall db0 saltText t,
         opens db0 = true ->
         encryptionKeys db0 !! user = None ->
         exists db1,
           storeSalt user saltText t db0 = Ok db1
           /\ getEncryptedKey user db1 = getEncryptedKey user db'
           /\ hasEncryptedKey user db1 = hasEncryptedKey user db'.
Proof.
  intros Hopen Hr.
  exists (put (cleared user nowIso r) db), (Some "").
  assert (Hget : getEncryptedKey user (put (cleared user nowIso r) db)
                 = Ok (Some "")).
  { apply (getEncryptedKey_put (cleared user nowIso r) db Hopen). }
  assert (Hhas : hasEncryptedKey user (put (cleared user nowIso r) db)
                 = Ok true).
  { apply (hasEncryptedKey_put (cleared user nowIso r) db Hopen). }
  split; [ apply clearEncryptedKey_existing; assumption | ].
  split; [ exact Hhas | ].
  split; [ exact Hget | ].
  split; [ reflexivity | ].
  split; [ reflexivity | ].
  intros db0 saltText t Hopen0 Hnone.
  eexists. split.
  - unfold storeSalt, initDB. rewrite Hopen0. simpl. rewrite Hnone. simpl.
    reflexivity.
  - rewrite Hget, Hhas. split.
    + apply (getEncryptedKey_put
               {| userSub := user; encryptedKeyMaterial := "";
                  salt := Some saltText; createdAt := t;
                  updatedAt := Some t |} db0 Hopen0).
    + apply (hasEncryptedKey_put
               {| userSub := user; encryptedKeyMaterial := "";
                  salt := Some saltText; createdAt := t;
                  updatedAt := Some t |} db0 Hopen0).
Qed.

End StoreFacts.

Lemma cleared_record_still_present_witness :
  IndexedDB.encryptionKeys StoreScenario.sampleDatabase !! "auth0|u1"
  = Some StoreScenario.sampleRecord
  /\ exists db',
      IndexedDB.clearEncryptedKey "auth0|u1" "2024-02-02T00:00:00.000Z"
        StoreScenario.sampleDatabase = Ok db'
      /\ IndexedDB.hasEncryptedKey "auth0|u1" db' = Ok true
      /\ IndexedDB.getEncryptedKey "auth0|u1" db' = Ok (Some "").
Proof.
  assert (Hrecord :
    IndexedDB.encryptionKeys StoreScenario.sampleDatabase !! "auth0|u1"
    = Some StoreScenario.sampleRecord).
  { apply lookup_singleton_eq. }
  split; [ exact Hrecord | ].
  destruct (cleared_record_still_present "auth0|u1"
              "2024-02-02T00:00:00.000Z" StoreScenario.sampleDatabase
              StoreScenario.sampleRecord eq_refl Hrecord)
    as (db' & blob & Hclear & Hhas & Hget & -> & _).
  exists db'. repeat split; assumption.
Defined.

(** ** The Lockout Tracker *)

Section LockoutFacts.
Import RateLimit.

Lemma ceilSeconds_nonneg x : 0 <= x -> 0 <= ceilSeconds x.
Proof.
  intros Hx. unfold ceilSeconds.
  assert (- x / 1000 <= 0) by (apply Z.div_le_upper_bound; lia). lia.
Qed.

Lemma ceilSeconds_pos x : 0 < x -> 0 < ceilSeconds x.
Proof.
  intros Hx. unfold ceilSeconds.
  assert (- x / 1000 < 0) by (apply Z.div_lt_upper_bound; lia). lia.
Qed.

Lemma ceilSeconds_neg x : x <= -1000 -> ceilSeconds x < 0.
Proof.
  intros Hx. unfold ceilSeconds.
  assert (1 <= - x / 1000) by (apply Z.div_le_lower_bound; lia). lia.
Qed.

Lemma truthy_nonzero T : T <> 0 -> truthyNumber (Some T) = true.
Proof.
  intros HT. unfold truthyNumber. destruct (Z.eqb_spec T 0); [ contradiction | ].
  reflexivity.
Qed.

(** The status read from [localStorage] never counts below zero. *)
Lemma statusOfCache_remaining_nonneg r t :
  0 <= remainingSeconds (statusOfCache r t).
Proof.
  unfold statusOfCache. simpl. apply ceilSeconds_nonneg.
  destruct (truthyNumber (cachedLockedUntil r)); lia.
Qed.

(** The status computed from the backend counts below zero as soon as
    the lockout ended a second ago. *)
Lemma statusOfBackend_remaining_negative data t T :
  reportedLockedUntil data = Some T ->
  T <> 0 ->
  T + 1000 <= t ->
  remainingSeconds (statusOfBackend data t) < 0.
Proof.
  intros HT Hnz Hpast. unfold statusOfBackend. cbn [remainingSeconds].
  rewrite HT, (truthy_nonzero T) by exact Hnz. unfold orZero; cbn [from_option id].
  apply ceilSeconds_neg. lia.
Qed.

Lemma checkStatus_not_throttled user i h :
  Js.truthy user = true ->
  MIN_CHECK_INTERVAL <= now i - lastCheckTime h ->
  checkStatus (Some user) true i h
  = let h1 := setLastCheckTime (now i) h in
    match localStorage h1 !! lockoutKey user with
    | Some (Entry r) => setStatus (statusOfCache r (now i)) h1
    | Some Malformed => checkBackend user i (removeItem (lockoutKey user) h1)
    | Some Blank | None => checkBackend user i h1
    end.
Proof.
  intros Huser Hgap. unfold checkStatus. rewrite Huser. simpl.
  destruct (Z.ltb_spec (now i - lastCheckTime h) MIN_CHECK_INTERVAL);
    [ lia | reflexivity ].
Qed.

(** While the lockout lasts, the first answer of the backend is shown
    as a lockout with the seconds that remain, and it is cached. *)
Lemma checkStatus_reports_lockout user i h n T :
  Js.truthy user = true ->
  MIN_CHECK_INTERVAL <= now i - lastCheckTime h ->
  localStorage h !! lockoutKey user = None ->
  response i
  = Body {| reportedAttempts := Some n; reportedLockedUntil := Some T |} ->
  0 <= nowAfterFetch i < T ->
  let h' := checkStatus (Some user) true i h in
  status h'
  = {| isLocked := true;
       remainingSeconds := ceilSeconds (T - nowAfterFetch i);
       attempts := n;
       lockedUntil := Some T |}
  /\ localStorage h' !! lockoutKey user
     = Some (Entry {| cachedLockedUntil := Some T;
                      cachedAttempts := Some n;
                      timestamp := nowAfterFetch i |})
  /\ lastCheckTime h' = now i.
Proof.
  intros Huser Hgap Hnone Hresp Htime.
  rewrite checkStatus_not_throttled by assumption. simpl.
  rewrite Hnone. unfold checkBackend. rewrite Hresp.
  unfold statusOfBackend, orNull. cbn [reportedLockedUntil reportedAttempts].
  rewrite (truthy_nonzero T) by lia. unfold orZero; cbn [from_option id andb].
  destruct (Z.ltb_spec (nowAfterFetch i) T) as [ _ | ]; [ | lia ].
  cbn [isLocked orb].
  split; [ reflexivity | ].
  split; [ apply lookup_insert_eq | reflexivity ].
Qed.

(** Once a record is cached it answers every later call, whatever the
    backend would say: after the lockout has ended the tracker shows
    "not locked" together with the attempts of the cached record. *)
Lemma checkStatus_serves_stale_cache user i h n T written :
  Js.truthy user = true ->
  MIN_CHECK_INTERVAL <= now i - lastCheckTime h ->
  localStorage h !! lockoutKey user
  = Some (Entry {| cachedLockedUntil := Some T;
                   cachedAttempts := Some n;
                   timestamp := written |}) ->
  0 < T <= now i ->
  let h' := checkStatus (Some user) true i h in
  status h'
  = {| isLocked := false; remainingSeconds := 0; attempts := n;
       lockedUntil := Some T |}
  /\ localStorage h' = localStorage h.
Proof.
  intros Huser Hgap Hcache Htime.
  rewrite checkStatus_not_throttled by assumption. simpl.
  rewrite Hcache. unfold statusOfCache, orNull.
  cbn [cachedLockedUntil cachedAttempts].
  rewrite (truthy_nonzero T) by lia. unfold orZero; cbn [from_option id].
  rewrite Z.max_l by lia. split; reflexivity.
Qed.

End LockoutFacts.

(** C3. The tracker is meant to use the cache only while it is fresh and
    to return to "not locked, zero attempts" on a refresh after the
    lockout. The code never expires a cached record: after the backend
    reported five attempts and a lockout until [T] (shown as locked, 300
    seconds remaining), a refresh after [T] is answered from the cache
    and shows five attempts, although the backend now reports none. *)
Theorem refresh_after_lockout_keeps_attempts :
  let h1 := RateLimit.checkStatus (Some LockoutScenario.lockedUser) true
              LockoutScenario.firstCall (RateLimit.initialHook ∅) in
  let h2 := RateLimit.checkStatus (Some LockoutScenario.lockedUser) true
              LockoutScenario.refreshCall h1 in
  RateLimit.status h1
  = {| RateLimit.isLocked := true;
       RateLimit.remainingSeconds := 300;
       RateLimit.attempts := 5;
       RateLimit.lockedUntil := Some LockoutScenario.lockedUntilT |}
  /\ RateLimit.status h2
     = {| RateLimit.isLocked := false;
          RateLimit.remainingSeconds := 0;
          RateLimit.attempts := 5;
          RateLimit.lockedUntil := Some LockoutScenario.lockedUntilT |}
  /\ RateLimit.localStorage h2 = RateLimit.localStorage h1.
Proof.
  assert (Hfirst :
    let h1 := RateLimit.checkStatus (Some LockoutScenario.lockedUser) true
                LockoutScenario.firstCall (RateLimit.initialHook ∅) in
    RateLimit.status h1
    = {| RateLimit.isLocked := true;
         RateLimit.remainingSeconds := 300;
         RateLimit.attempts := 5;
         RateLimit.lockedUntil := Some LockoutScenario.lockedUntilT |}
    /\ RateLimit.localStorage h1
         !! RateLimit.lockoutKey LockoutScenario.lockedUser
       = Some (RateLimit.Entry
                 {| RateLimit.cachedLockedUntil :=
                      Some LockoutScenario.lockedUntilT;
                    RateLimit.cachedAttempts := Some 5;
                    RateLimit.timestamp := 1700000000200 |})
    /\ RateLimit.lastCheckTime h1 = 1700000000000).
  { apply (checkStatus_reports_lockout LockoutScenario.lockedUser
             LockoutScenario.firstCall (RateLimit.initialHook ∅) 5
             LockoutScenario.lockedUntilT).
    - reflexivity.
    - vm_compute. discriminate.
    - apply lookup_empty.
    - reflexivity.
    - vm_compute. split; [ discriminate | reflexivity ]. }
  destruct Hfirst as (Hstatus & Hcache & Hlast).
  split; [ exact Hstatus | ].
  set (h1 := RateLimit.checkStatus (Some LockoutScenario.lockedUser) true
               LockoutScenario.firstCall (RateLimit.initialHook ∅)) in *.
  cbv zeta.
  unfold RateLimit.checkStatus.
  change (Js.truthy LockoutScenario.lockedUser) with true. cbn [negb orb].
  rewrite Hlast. change (RateLimit.now LockoutScenario.refreshCall
                         - 1700000000000 <? RateLimit.MIN_CHECK_INTERVAL)
    with false. cbv iota.
  cbn [RateLimit.localStorage RateLimit.setLastCheckTime].
  rewrite Hcache. split; reflexivity.
Qed.

(** C9. Every status of the tracker is meant to carry
    [remainingSeconds >= 0]. The status read from the cache is clamped
    with [Math.max(0, ...)]; the one computed from the answer of the
    backend is not: a lockout that ended five seconds ago is shown with
    [-5] seconds remaining. *)
Theorem backend_status_negative_seconds :
  RateLimit.status
    (RateLimit.checkStatus (Some LockoutScenario.lockedUser) true
       LockoutScenario.pastLockout (RateLimit.initialHook ∅))
  = {| RateLimit.isLocked := false;
       RateLimit.remainingSeconds := -5;
       RateLimit.attempts := 3;
       RateLimit.lockedUntil := Some LockoutScenario.lockedUntilT |}.
Proof.
  rewrite checkStatus_not_throttled;
    [ | reflexivity | vm_compute; discriminate ].
  cbn [RateLimit.localStorage RateLimit.setLastCheckTime
       RateLimit.initialHook].
  rewrite lookup_empty. reflexivity.
Qed.

(** ** The Encryption Session Manager *)

Section SessionFacts.
Context {P : Platform}.
Import Session.

Lemma getEncryptionStatus_frame a net w s status w1 s1 :
  getEncryptionStatus a net w s = (status, w1, s1) ->
  encryptionKey s1 = encryptionKey s
  /\ isUnlocked s1 = isUnlocked s
  /\ isSetup s1 = isSetup s
  /\ hasCheckedSetup s1 = hasCheckedSetup s
  /\ idb w1 = idb w
  /\ rng w1 = rng w.
Proof.
  unfold getEncryptionStatus. intros Heq.
  repeat case_match; simplify_eq; simpl; repeat split; reflexivity.
Qed.

Lemma lockEncryption_locked s :
  encryptionKey (lockEncryption s) = None
  /\ isUnlocked (lockEncryption s) = false
  /\ hasCheckedSetup (lockEncryption s) = false
  /\ userSalt (lockEncryption s) = userSalt s
  /\ isSetup (lockEncryption s) = isSetup s.
Proof. repeat split; reflexivity. Qed.

(** For a signed-out user it resets the flags and keeps the key. *)
Lemma checkSetup_signed_out a net w s :
  negb (isAuthenticated a) || negb (Js.truthy_opt (userSub a)) = true ->
  checkSetup a net w s
  = (w, setHasCheckedSetup false
          (setIsLoading false (setIsUnlocked false (setIsSetup false s)))).
Proof. intros Hout. unfold checkSetup. rewrite Hout. reflexivity. Qed.

Lemma checkSetup_idb a net w s :
  idb (fst (checkSetup a net w s)) = idb w.
Proof.
  unfold checkSetup.
  repeat case_match; cbn [fst]; try reflexivity;
    match goal with
    | H : getEncryptionStatus _ _ _ _ = _ |- _ =>
        destruct (getEncryptionStatus_frame _ _ _ _ _ _ _ H)
          as (_ & _ & _ & _ & Hidb & _); simpl; exact Hidb
    end.
Qed.

Lemma resolveSalt_frame a net w s saltOpt w1 s1 :
  resolveSalt a net w s = (saltOpt, w1, s1) ->
  encryptionKey s1 = encryptionKey s
  /\ isUnlocked s1 = isUnlocked s
  /\ idb w1 = idb w
  /\ rng w1 = rng w.
Proof.
  unfold resolveSalt, getSalt. intros Heq.
  repeat case_match; simplify_eq; try (repeat split; reflexivity);
    match goal with
    | H : getEncryptionStatus _ _ _ _ = _ |- _ =>
        destruct (getEncryptionStatus_frame _ _ _ _ _ _ _ H)
          as (? & ? & _ & _ & ? & ?); repeat split; assumption
    end.
Qed.

Lemma saveSalt_frame a saltText net w s r w1 s1 :
  saveSalt a saltText net w s = (r, w1, s1) ->
  encryptionKey s1 = encryptionKey s /\ isUnlocked s1 = isUnlocked s.
Proof.
  unfold saveSalt. intros Heq.
  repeat case_match; simplify_eq; split; reflexivity.
Qed.

Lemma unlockAttempt_frame passphrase user a net w s r w1 s1 :
  unlockAttempt passphrase user a net w s = (r, w1, s1) ->
  encryptionKey s1 = encryptionKey s /\ isUnlocked s1 = isUnlocked s.
Proof.
  unfold unlockAttempt. intros Heq.
  destruct (resolveSalt a net w s) as [ [saltOpt w0] s0 ] eqn:Hsalt.
  destruct (resolveSalt_frame _ _ _ _ _ _ _ Hsalt) as (Hk & Hu & _).
  repeat case_match; simplify_eq; split; assumption.
Qed.

Lemma unlockEncryption_sound passphrase a net w s r w1 s1 :
  unlockEncryption passphrase a net w s = (r, w1, s1) ->
  outcome_sound a s r s1.
Proof.
  unfold unlockEncryption, outcome_sound. intros Heq.
  destruct (userSub a) as [ user | ] eqn:Hsub; [ | simplify_eq; done ].
  destruct (Js.truthy user) eqn:Huser; cbn [negb] in Heq;
    [ | simplify_eq; done ].
  destruct (unlockAttempt passphrase user a net w s)
    as [ [ [ [key saltText] | m ] w0 ] s0 ] eqn:Hattempt;
    destruct (unlockAttempt_frame _ _ _ _ _ _ _ _ _ Hattempt) as (Hk & Hu);
    simplify_eq; simpl.
  - repeat split; eauto.
  - split; assumption.
Qed.

Lemma setupEncryption_sound passphrase a net w s r w1 s1 :
  setupEncryption passphrase a net w s = (r, w1, s1) ->
  outcome_sound a s r s1.
Proof.
  unfold setupEncryption, outcome_sound. intros Heq.
  destruct (userSub a) as [ user | ] eqn:Hsub; [ | simplify_eq; done ].
  destruct (Js.truthy user) eqn:Huser; cbn [negb] in Heq;
    [ | simplify_eq; done ].
  destruct (Crypto.generateSalt (rng w)) as [saltBytes g].
  destruct (storeVerification _ _ _ _) as [ [ [] | m ] w0 ];
    [ | simplify_eq; done ].
  destruct (saveSalt _ _ _ _ _) as [ [ [ [] | m ] w2 ] s2 ] eqn:Hsave;
    destruct (saveSalt_frame _ _ _ _ _ _ _ _ Hsave) as (Hk & Hu);
    simplify_eq; simpl.
  - repeat split; eauto.
  - split; assumption.
Qed.

(** Run without interruption, the stages are [checkSetup]. *)
Lemma checkSetup_staged a net w s :
  checkSetup a net w s
  = match checkSetupStart a w s with
    | Finished s' => (w, s')
    | Awaiting hasLocalKey => checkSetupResumed s a hasLocalKey net w s
    end.
Proof.
  unfold checkSetup, checkSetupStart, checkSetupResumed.
  destruct (negb (isAuthenticated a) || negb (Js.truthy_opt (userSub a)));
    [ reflexivity | ].
  destruct (isUnlocked s && hasKey s); [ reflexivity | ].
  destruct (hasCheckedSetup s && isSetup s); reflexivity.
Qed.

End SessionFacts.

(** ** Key derivation and the authenticated cipher *)

Section CryptoFacts.
Context {P : Platform} {L : PlatformLaws P}.
Import Crypto.

Lemma base64_of_buffer buffer :
  base64ToArrayBuffer (arrayBufferToBase64 buffer) = Ok buffer.
Proof.
  unfold base64ToArrayBuffer, arrayBufferToBase64.
  rewrite base64_roundtrip, list_byte_of_string_of_list_byte. reflexivity.
Qed.

(** What [encrypt] produces decrypts, under the same key, to the
    plaintext as encoding and decoding leave it. *)
Lemma decrypt_encrypt plaintext key g :
  let e := fst (encrypt plaintext key g) in
  decrypt (ciphertext e) (iv e) key = Ok (decodedText plaintext).
Proof.
  unfold encrypt.
  pose proof (random_length IV_LENGTH g) as Hlen.
  destruct (getRandomValues IV_LENGTH g) as [nonce g'].
  cbn [fst ciphertext iv] in *. unfold decrypt.
  rewrite !base64_of_buffer. cbn [bind].
  rewrite gcm_roundtrip by exact Hlen.
  reflexivity.
Qed.

(** The text that [JSON.stringify] wrote comes back as it was. *)
Lemma decrypt_encrypt_json (v : json) key g :
  let e := fst (encrypt (JSON_stringify v) key g) in
  decrypt (ciphertext e) (iv e) key = Ok (JSON_stringify v).
Proof.
  cbv zeta. rewrite decrypt_encrypt. unfold decodedText.
  rewrite utf8_json. reflexivity.
Qed.

(** The base64 text of a ciphertext is never empty: it carries the tag. *)
Lemma ciphertext_truthy plaintext key g :
  Js.truthy (ciphertext (fst (encrypt plaintext key g))) = true.
Proof.
  unfold encrypt. destruct (getRandomValues IV_LENGTH g) as [nonce g'].
  cbn [fst ciphertext]. unfold Js.truthy, arrayBufferToBase64.
  apply negb_true_iff, String.eqb_neq, base64_nonempty.
  destruct (aes_gcm_encrypt key nonce (TextEncoder_encode plaintext))
    as [ | b rest ] eqn:Hc.
  - exfalso. exact (gcm_tag _ _ _ Hc).
  - discriminate.
Qed.

Lemma parse_stringify (v : json) :
  Json.valid v = true -> parse (JSON_stringify v) = Ok v.
Proof.
  intros Hv. unfold parse. rewrite json_roundtrip by exact Hv. reflexivity.
Qed.

Lemma parse_stringifyEncrypted e :
  parse (stringifyEncrypted e)
  = Ok (Json.JObj [("ciphertext", Json.JStr (ciphertext e));
                   ("iv", Json.JStr (iv e))]).
Proof. apply parse_stringify. reflexivity. Qed.

Lemma stringifyEncrypted_truthy e : Js.truthy (stringifyEncrypted e) = true.
Proof.
  unfold Js.truthy, stringifyEncrypted.
  apply negb_true_iff, String.eqb_neq, json_nonempty.
Qed.

Lemma text_member_ciphertext c i :
  text_member (Json.JObj [("ciphertext", Json.JStr c); ("iv", Json.JStr i)])
    "ciphertext" = Ok c.
Proof. reflexivity. Qed.

Lemma text_member_iv c i :
  text_member (Json.JObj [("ciphertext", Json.JStr c); ("iv", Json.JStr i)])
    "iv" = Ok i.
Proof. reflexivity. Qed.

Lemma decryptKeyMaterial_encryptKeyMaterial plaintext key g :
  decryptKeyMaterial (fst (encryptKeyMaterial plaintext key g)) key
  = Ok (decodedText plaintext).
Proof.
  unfold encryptKeyMaterial, decryptKeyMaterial.
  pose proof (decrypt_encrypt plaintext key g) as Hdec.
  destruct (encrypt plaintext key g) as [e g']. cbn [fst] in *.
  rewrite parse_stringifyEncrypted. cbn [bind].
  rewrite text_member_ciphertext; cbn [bind].
  rewrite text_member_iv; cbn [bind]. exact Hdec.
Qed.

Lemma decryptKeyMaterial_encryptKeyMaterial_json (v : json) key g :
  decryptKeyMaterial (fst (encryptKeyMaterial (JSON_stringify v) key g)) key
  = Ok (JSON_stringify v).
Proof.
  rewrite decryptKeyMaterial_encryptKeyMaterial. unfold decodedText.
  rewrite utf8_json. reflexivity.
Qed.

Lemma decryptContext_encrypt c key g :
  match c with Js.Defined v => isRecord v | _ => true end = true ->
  decryptContext
    (Some (Json.JObj
             [("ciphertext",
               Json.JStr (ciphertext (fst (encrypt (contextText c) key g))));
              ("iv", Json.JStr (iv (fst (encrypt (contextText c) key g))))]))
    key
  = Ok (returnedContext c).
Proof.
  intros Hc. unfold decryptContext.
  cbn [Json.is_truthy Json.member Json.assoc String.eqb Ascii.eqb Bool.eqb
       bind].
  change (("ciphertext" =? "ciphertext")%string) with true. cbv iota.
  cbn [Json.is_truthy]. rewrite ciphertext_truthy.
  rewrite text_member_ciphertext; cbn [bind].
  rewrite text_member_iv; cbn [bind].
  rewrite decrypt_encrypt. cbn [bind]. unfold decodedText.
  destruct c as [ | | v ]; cbn [contextText returnedContext].
  - rewrite utf8_empty. reflexivity.
  - rewrite utf8_empty. reflexivity.
  - destruct v as [ | | | | | members ]; try discriminate.
    cbn [Json.is_truthy]. cbn [isRecord] in Hc. rewrite utf8_json.
    assert (Htext : Js.truthy (JSON_stringify (Json.JObj members)) = true).
    { apply negb_true_iff, String.eqb_neq, json_nonempty. }
    rewrite Htext, parse_stringify by exact Hc. reflexivity.
Qed.

(** The record that [encryptAnalysisData] produces, field by field. *)
Lemma decryptAnalysisData_encryptAnalysisData (data : AnalysisData) key g :
  wellFormed data = true ->
  decryptAnalysisData (fst (encryptAnalysisData data key g)) key
  = Ok {| userEmail := decodedText (userEmail data);
          inputContent := decodedText (inputContent data);
          analysisContext := returnedContext (analysisContext data);
          mlResult := mlResult data |}.
Proof.
  intros Hwf. unfold wellFormed in Hwf.
  apply andb_true_iff in Hwf as [Hml Hctx].
  unfold encryptAnalysisData.
  pose proof (decrypt_encrypt (userEmail data) key g) as H1.
  destruct (encrypt (userEmail data) key g) as [e1 g1].
  pose proof (decrypt_encrypt (inputContent data) key g1) as H2.
  destruct (encrypt (inputContent data) key g1) as [e2 g2].
  pose proof (decryptContext_encrypt (analysisContext data) key g2 Hctx)
    as H3.
  destruct (encrypt (contextText (analysisContext data)) key g2)
    as [e3 g3].
  pose proof (decrypt_encrypt_json (mlResult data) key g3) as H4.
  destruct (encrypt (JSON_stringify (mlResult data)) key g3) as [e4 g4].
  cbn [fst] in *. unfold decryptAnalysisData.
  cbn [encUserEmail encInputContent encAnalysisContext encMlResult].
  cbn [Js.truthy_opt]. rewrite stringifyEncrypted_truthy.
  cbn [default from_option id].
  rewrite !parse_stringifyEncrypted. cbn [bind].
  rewrite text_member_ciphertext; cbn [bind].
  rewrite text_member_iv; cbn [bind]. rewrite H1; cbn [bind].
  rewrite text_member_ciphertext; cbn [bind].
  rewrite text_member_iv; cbn [bind]. rewrite H2; cbn [bind].
  rewrite H3; cbn [bind].
  rewrite text_member_ciphertext; cbn [bind].
  rewrite text_member_iv; cbn [bind]. rewrite H4; cbn [bind].
  rewrite parse_stringify by exact Hml. reflexivity.
Qed.

(** C4, as the code has it. For every well-formed record and every key,
    decrypting what [encryptAnalysisData] produced returns the same
    [mlResult], the [userEmail] and [inputContent] as [TextEncoder] and
    [TextDecoder] hand them back (the same texts unless they begin with
    U+FEFF or hold a lone surrogate), and the same [analysisContext]
    when it was an object; an [analysisContext] that was absent or
    [null] comes back as [null]. Hence a record whose texts survive
    encoding and decoding and whose context is an object or [null] is
    returned unchanged. *)
Theorem decrypt_encrypt_analysis (data : AnalysisData) key g :
  wellFormed data = true ->
  decryptAnalysisData (fst (encryptAnalysisData data key g)) key
  = Ok {| userEmail := decodedText (userEmail data);
          inputContent := decodedText (inputContent data);
          analysisContext := returnedContext (analysisContext data);
          mlResult := mlResult data |}
  /\ (decodedText (userEmail data) = userEmail data ->
      decodedText (inputContent data) = inputContent data ->
      analysisContext data <> Js.Undefined ->
      decryptAnalysisData (fst (encryptAnalysisData data key g)) key
      = Ok data).
Proof.
  intros Hwf.
  pose proof (decryptAnalysisData_encryptAnalysisData data key g Hwf)
    as Hmain.
  split; [ exact Hmain | ].
  intros Hemail Hcontent Hdef. rewrite Hmain, Hemail, Hcontent.
  destruct data as [email content c ml].
  cbn [userEmail inputContent analysisContext mlResult] in *.
  destruct c as [ | | v ]; [ contradiction | reflexivity | reflexivity ].
Qed.

End CryptoFacts.

(** ** Locking, the setup check and the passphrase verifier *)

Section VerifierFacts.
Context {P : Platform}.
Import Session.

(** C1, as the code has it. [lockEncryption] discards the key in memory,
    marks the session locked and resets [hasCheckedSetup]; it keeps the
    salt in memory and does not touch the local store, whose record keeps
    both its encrypted key material and its salt. The same holds for the
    lock that follows a sign-out. *)
Theorem lock_discards_key_and_keeps_store (st : System) a' net :
  isAuthenticated (auth st) = true ->
  isAuthenticated a' = false ->
  (encryptionKey (session (lock st)) = None
   /\ isUnlocked (session (lock st)) = false
   /\ hasCheckedSetup (session (lock st)) = false
   /\ userSalt (session (lock st)) = userSalt (session st)
   /\ world (lock st) = world st)
  /\ (encryptionKey (session (authChange a' net st)) = None
      /\ isUnlocked (session (authChange a' net st)) = false
      /\ hasCheckedSetup (session (authChange a' net st)) = false
      /\ userSalt (session (authChange a' net st)) = userSalt (session st)
      /\ world (authChange a' net st) = world st).
Proof.
  intros Hin Hout. split.
  - repeat split; reflexivity.
  - unfold authChange, runEffects. rewrite Hin, Hout. cbn [Bool.eqb negb].
    rewrite checkSetup_signed_out by (rewrite Hout; reflexivity).
    unfold lockOnLogout. rewrite Hout. cbn [negb].
    repeat split; reflexivity.
Qed.

(** Records without a salt leave the session exactly where a new user is
    left; only the console differs. *)
Lemma checkSetup_inconsistent_as_fresh a net w s :
  snd (checkSetup a (withStatus inconsistentStatus net) w s)
  = snd (checkSetup a (withStatus freshStatus net) w s).
Proof.
  unfold checkSetup, getEncryptionStatus. cbn [statusResponse withStatus].
  repeat case_match; simplify_eq; reflexivity.
Qed.

Lemma unlockEncryption_candidate passphrase a net w s user w0 s0 saltText
    key blobOpt :
  candidateKey passphrase a net w s user w0 s0 saltText key ->
  IndexedDB.getEncryptedKey user (idb w0) = Ok blobOpt ->
  unlockEncryption passphrase a net w s
  = if negb (Js.truthy_opt blobOpt) then
      match verifyRemote user key net w0 with
      | (Ok _, w2) =>
          (Ok tt, w2, setIsLoading false (unlocked key saltText s0))
      | (Throw m, w2) =>
          (Throw m, console_error "Failed to unlock encryption:" w2,
           setIsLoading false s0)
      end
    else
      match verifyLocal user key (default "" blobOpt) with
      | Ok _ => (Ok tt, w0, setIsLoading false (unlocked key saltText s0))
      | Throw m =>
          (Throw m, console_error "Failed to unlock encryption:" w0,
           setIsLoading false s0)
      end.
Proof.
  intros (Hsub & Huser & Hsalt & Htext & saltBytes & Hbytes & ->) Hget.
  unfold unlockEncryption, unlockAttempt.
  rewrite Hsub, Huser, Hsalt, Htext, Hbytes, Hget. cbn [negb].
  destruct (negb (Js.truthy_opt blobOpt)).
  - destruct (verifyRemote _ _ _ _) as [ [ [] | m ] w2 ]; reflexivity.
  - destruct (verifyLocal _ _ _) as [ [] | m ]; reflexivity.
Qed.

Lemma candidateKey_frame passphrase a net w s user w0 s0 saltText key :
  candidateKey passphrase a net w s user w0 s0 saltText key ->
  encryptionKey s0 = encryptionKey s
  /\ isUnlocked s0 = isUnlocked s
  /\ idb w0 = idb w.
Proof.
  intros (_ & _ & Hsalt & _).
  destruct (resolveSalt_frame _ _ _ _ _ _ _ Hsalt) as (? & ? & ? & _).
  repeat split; assumption.
Qed.

Lemma vouches_or_not user key material :
  vouches user key material \/ ~ vouches user key material.
Proof.
  unfold vouches.
  destruct (Crypto.decryptKeyMaterial material key)
    as [ decrypted | m ] eqn:Hdec;
    [ | right; intros (d & v & H & _); discriminate ].
  destruct (Crypto.parse decrypted) as [ data | m ] eqn:Hparse;
    [ | right; intros (d & v & H1 & H2 & _); congruence ].
  destruct (Json.member data "userSub")
    as [ [ [ | | | v | | ] | ] | m ] eqn:Hsub;
    try (right; intros (d' & v' & H1 & H2 & H3); congruence).
  destruct (String.eqb_spec v user) as [ -> | Hne ].
  - left. exists decrypted, data. auto.
  - right. intros (d' & v' & H1 & H2 & H3). congruence.
Qed.

Lemma verifyLocal_accepts user key material :
  Js.truthy user = true ->
  vouches user key material -> verifyLocal user key material = Ok tt.
Proof.
  intros Huser (decrypted & data & Hdec & Hparse & Hsub).
  unfold verifyLocal. rewrite Hdec. cbn [bind].
  rewrite Hparse. cbn [bind]. rewrite Hsub. cbn [bind].
  rewrite Huser, String.eqb_refl. reflexivity.
Qed.

Lemma verifyLocal_rejects user key material :
  ~ vouches user key material ->
  verifyLocal user key material = Throw InvalidPassphrase.
Proof.
  intros Hno. unfold verifyLocal.
  destruct (Crypto.decryptKeyMaterial material key)
    as [ decrypted | m ] eqn:Hdec; [ | reflexivity ].
  cbn [bind].
  destruct (Crypto.parse decrypted) as [ data | m ] eqn:Hparse;
    [ | reflexivity ].
  cbn [bind].
  destruct (Json.member data "userSub") as [ sub | m ] eqn:Hsub;
    [ | reflexivity ].
  cbn [bind].
  destruct sub as [ [ | | | v | | ] | ]; try reflexivity.
  destruct (negb (Js.truthy v) || negb (String.eqb v user)) eqn:Hcheck;
    [ reflexivity | ].
  exfalso. apply Hno. exists decrypted, data.
  apply orb_false_iff in Hcheck as [_ Heq].
  apply negb_false_iff, String.eqb_eq in Heq. subst v. auto.
Qed.

(** C5. When key material is stored locally, [unlockEncryption] accepts
    the candidate key exactly when the material decrypts under it and
    the user it names is the current user. Then the key is held in
    memory and the session is unlocked. In every other case the call
    fails with "Invalid passphrase", no key is placed in memory, the
    session stays as it was, and the store is not written. *)
Theorem unlock_with_local_material passphrase a net w s user w0 s0 saltText
    key material :
  candidateKey passphrase a net w s user w0 s0 saltText key ->
  IndexedDB.getEncryptedKey user (idb w0) = Ok (Some material) ->
  Js.truthy material = true ->
  let '(r, w1, s1) := unlockEncryption passphrase a net w s in
  (r = Ok tt <-> vouches user key material)
  /\ (r = Ok tt -> encryptionKey s1 = Some key /\ isUnlocked s1 = true)
  /\ (r <> Ok tt ->
      r = Throw InvalidPassphrase
      /\ encryptionKey s1 = encryptionKey s
      /\ isUnlocked s1 = isUnlocked s
      /\ idb w1 = idb w).
Proof.
  intros Hkey Hget Hmaterial.
  rewrite (unlockEncryption_candidate _ _ _ _ _ _ _ _ _ _ _ Hkey Hget).
  cbn [Js.truthy_opt default from_option id]. rewrite Hmaterial. cbn [negb].
  destruct (candidateKey_frame _ _ _ _ _ _ _ _ _ _ Hkey) as (Hk & Hu & Hdb).
  destruct Hkey as (_ & Huser & _).
  destruct (verifyLocal user key material) as [ [] | m ] eqn:Hverify.
  - split; [ | split ].
    + split; [ | reflexivity ]. intros _.
      destruct (vouches_or_not user key material) as [ Hyes | Hno ];
        [ exact Hyes | ].
      rewrite (verifyLocal_rejects _ _ _ Hno) in Hverify. discriminate.
    + intros _. split; reflexivity.
    + intros Hne. contradiction.
  - assert (Hno : ~ vouches user key material).
    { intros Hyes.
      rewrite (verifyLocal_accepts _ _ _ Huser Hyes) in Hverify.
      discriminate. }
    rewrite (verifyLocal_rejects _ _ _ Hno) in Hverify.
    injection Hverify as <-.
    split; [ | split ].
    + split; [ discriminate | intros Hyes; contradiction ].
    + discriminate.
    + intros _. repeat split; assumption.
Qed.

Lemma getEncryptedKey_opens user db blobOpt :
  IndexedDB.getEncryptedKey user db = Ok blobOpt -> IndexedDB.opens db = true.
Proof.
  unfold IndexedDB.getEncryptedKey, IndexedDB.initDB.
  destruct (IndexedDB.opens db); [ reflexivity | discriminate ].
Qed.

Lemma storeVerification_stores user key net w :
  storeFault net = None ->
  IndexedDB.opens (idb w) = true ->
  exists w1,
    storeVerification user key net w = (Ok tt, w1)
    /\ IndexedDB.getEncryptedKey user (idb w1)
       = Ok (Some (freshMaterial user key net w)).
Proof.
  intros Hfault Hopen. unfold storeVerification, freshMaterial.
  destruct (Crypto.encryptKeyMaterial _ key (rng w)) as [encrypted g].
  unfold IndexedDB.storeEncryptedKey, IndexedDB.initDB.
  rewrite Hfault, Hopen. cbn [bind]. eexists. split; [ reflexivity | ].
  cbn [idb with_idb fst].
  apply (getEncryptedKey_put
           {| IndexedDB.userSub := user;
              IndexedDB.encryptedKeyMaterial := encrypted;
              IndexedDB.salt := None;
              IndexedDB.createdAt := toISOString (now net);
              IndexedDB.updatedAt := None |}).
  exact Hopen.
Qed.

(** A write that goes wrong stores nothing, and its error does not speak
    of a passphrase. *)
Lemma storeVerification_fails user key net w fault :
  storeFault net = Some fault ->
  exists m w1,
    storeVerification user key net w = (Throw m, w1)
    /\ idb w1 = idb w
    /\ Js.includes "Invalid passphrase" m = false.
Proof.
  intros Hfault. unfold storeVerification.
  destruct (Crypto.encryptKeyMaterial _ key (rng w)) as [encrypted g].
  unfold IndexedDB.storeEncryptedKey, IndexedDB.initDB. rewrite Hfault.
  destruct fault; [ | destruct (IndexedDB.opens (idb w)) ]; cbn [bind];
    eexists; eexists; (split; [ reflexivity | split; reflexivity ]).
Qed.

(** The outcomes of [unlockEncryption] on a device without key
    material, by the answer of the backend and the fate of the write. *)
Lemma unlock_on_new_device passphrase a net w s user w0 s0 saltText key
    blobOpt :
  candidateKey passphrase a net w s user w0 s0 saltText key ->
  IndexedDB.getEncryptedKey user (idb w0) = Ok blobOpt ->
  Js.truthy_opt blobOpt = false ->
  let '(r, w1, s1) := unlockEncryption passphrase a net w s in
  let refused message :=
    r = Throw message
    /\ encryptionKey s1 = encryptionKey s
    /\ isUnlocked s1 = isUnlocked s
    /\ idb w1 = idb w in
  match analysesResponse net with
  | Body (Some (encryptedRecord :: _)) =>
      match Crypto.decryptAnalysisData encryptedRecord key with
      | Ok _ =>
          match storeFault net with
          | None => acceptedAndStored user key net w0 r w1 s1
          | Some _ => refused InvalidPassphrase
          end
      | Throw _ => refused InvalidPassphrase
      end
  | Body _ =>
      match storeFault net with
      | None => acceptedAndStored user key net w0 r w1 s1
      | Some _ => refused VerificationUnavailable
      end
  | NotOk => refused VerificationUnavailable
  | Failed m =>
      refused (if Js.includes "Invalid passphrase" m then m
               else VerificationUnavailable)
  end.
Proof.
  intros Hkey Hget Hnone.
  rewrite (unlockEncryption_candidate _ _ _ _ _ _ _ _ _ _ _ Hkey Hget).
  rewrite Hnone. cbn [negb].
  destruct (candidateKey_frame _ _ _ _ _ _ _ _ _ _ Hkey) as (Hk & Hu & Hdb).
  pose proof (getEncryptedKey_opens _ _ _ Hget) as Hopen.
  assert (Hwrite :
    match storeFault net with
    | None =>
        exists w1,
          storeVerification user key net w0 = (Ok tt, w1)
          /\ IndexedDB.getEncryptedKey user (idb w1)
             = Ok (Some (freshMaterial user key net w0))
    | Some _ =>
        exists m w1,
          storeVerification user key net w0 = (Throw m, w1)
          /\ idb w1 = idb w0
          /\ Js.includes "Invalid passphrase" m = false
    end).
  { destruct (storeFault net) as [ fault | ] eqn:Hfault.
    - exact (storeVerification_fails user key net w0 fault Hfault).
    - exact (storeVerification_stores user key net w0 Hfault Hopen). }
  unfold verifyRemote, acceptedAndStored. cbv zeta.
  destruct (analysesResponse net) as [ m | | [ [ | encryptedRecord rest ] | ] ].
  - destruct (Js.includes "Invalid passphrase" m);
      repeat split; assumption.
  - cbn. repeat split; assumption.
  - destruct (storeFault net).
    + destruct Hwrite as (m & w1 & -> & Hsame & ->). cbn.
      repeat split; try assumption. congruence.
    + destruct Hwrite as (w1 & -> & Hstored). repeat split; assumption.
  - destruct (Crypto.decryptAnalysisData encryptedRecord key) as [ d | m ].
    + destruct (storeFault net).
      * destruct Hwrite as (m & w1 & -> & Hsame & _). cbn.
        repeat split; try assumption. congruence.
      * destruct Hwrite as (w1 & -> & Hstored). repeat split; assumption.
    + cbn. repeat split; assumption.
  - destruct (storeFault net).
    + destruct Hwrite as (m & w1 & -> & Hsame & ->). cbn.
      repeat split; try assumption. congruence.
    + destruct Hwrite as (w1 & -> & Hstored). repeat split; assumption.
Qed.

(** Where "Invalid passphrase" can come from: the local check of stored
    key material, or a fetched record, whose decryption failed or was
    followed by a write that went wrong. *)
Lemma invalid_passphrase_origin passphrase a net w s w1 s1 :
  (forall m, analysesResponse net = Failed m ->
             Js.includes "Invalid passphrase" m = false) ->
  unlockEncryption passphrase a net w s = (Throw InvalidPassphrase, w1, s1) ->
  exists user w0 s0 saltText key,
    candidateKey passphrase a net w s user w0 s0 saltText key
    /\ ((exists material,
           IndexedDB.getEncryptedKey user (idb w0) = Ok (Some material)
           /\ Js.truthy material = true
           /\ ~ vouches user key material)
        \/ (exists encryptedRecord rest,
              analysesResponse net = Body (Some (encryptedRecord :: rest))
              /\ (is_ok (Crypto.decryptAnalysisData encryptedRecord key)
                  = false
                  \/ storeFault net <> None))).
Proof.
  intros Hnet Hrun.
  destruct (userSub a) as [ user | ] eqn:Hsub;
    [ | unfold unlockEncryption in Hrun; rewrite Hsub in Hrun;
        discriminate ].
  destruct (Js.truthy user) eqn:Huser;
    [ | unfold unlockEncryption in Hrun; rewrite Hsub, Huser in Hrun;
        discriminate ].
  destruct (resolveSalt a net w s) as [ [saltOpt w0] s0 ] eqn:Hsalt.
  destruct saltOpt as [ saltText | ];
    [ | unfold unlockEncryption, unlockAttempt in Hrun;
        rewrite Hsub, Huser, Hsalt in Hrun; discriminate ].
  destruct (Js.truthy saltText) eqn:Htext;
    [ | unfold unlockEncryption, unlockAttempt in Hrun;
        rewrite Hsub, Huser, Hsalt, Htext in Hrun; discriminate ].
  destruct (saltOfBase64 saltText) as [ saltBytes | m ] eqn:Hbytes;
    [ | unfold unlockEncryption, unlockAttempt in Hrun;
        rewrite Hsub, Huser, Hsalt, Htext, Hbytes in Hrun;
        unfold saltOfBase64 in Hbytes; destruct (atob saltText);
        simplify_eq ].
  set (key := Crypto.deriveKey passphrase saltBytes
                Crypto.PBKDF2_ITERATIONS).
  assert (Hkey : candidateKey passphrase a net w s user w0 s0 saltText key).
  { unfold candidateKey. repeat split; try assumption.
    exists saltBytes. split; [ assumption | reflexivity ]. }
  exists user, w0, s0, saltText, key. split; [ exact Hkey | ].
  destruct (IndexedDB.getEncryptedKey user (idb w0))
    as [ blobOpt | m ] eqn:Hget;
    [ | exfalso; unfold unlockEncryption, unlockAttempt in Hrun;
        rewrite Hsub, Huser, Hsalt, Htext, Hbytes, Hget in Hrun;
        unfold IndexedDB.getEncryptedKey, IndexedDB.initDB in Hget;
        unfold InvalidPassphrase in Hrun;
        destruct (IndexedDB.opens (idb w0)); cbn in Hget, Hrun;
        simplify_eq ].
  destruct (Js.truthy_opt blobOpt) eqn:Hblob.
  - left. destruct blobOpt as [ material | ]; [ | discriminate ].
    exists material. split; [ reflexivity | ]. split; [ exact Hblob | ].
    intros Hyes.
    rewrite (unlockEncryption_candidate _ _ _ _ _ _ _ _ _ _ _ Hkey Hget)
      in Hrun.
    rewrite Hblob in Hrun. cbn [negb default from_option id] in Hrun.
    rewrite (verifyLocal_accepts _ _ _ Huser Hyes) in Hrun. discriminate.
  - right.
    pose proof (unlock_on_new_device _ _ _ _ _ _ _ _ _ _ _
                  Hkey Hget Hblob) as Hcases.
    rewrite Hrun in Hcases. cbv zeta in Hcases.
    unfold acceptedAndStored in Hcases.
    destruct (analysesResponse net)
      as [ m | | [ [ | encryptedRecord rest ] | ] ] eqn:Hresp.
    + rewrite (Hnet m eq_refl) in Hcases. destruct Hcases as (Hr & _).
      discriminate.
    + destruct Hcases as (Hr & _). discriminate.
    + destruct (storeFault net); destruct Hcases as (Hr & _); discriminate.
    + exists encryptedRecord, rest. split; [ reflexivity | ].
      destruct (Crypto.decryptAnalysisData encryptedRecord key)
        as [ d | m ] eqn:Hdec; [ | left; reflexivity ].
      destruct (storeFault net); [ right; discriminate | ].
      destruct Hcases as (Hr & _). discriminate.
    + destruct (storeFault net); destruct Hcases as (Hr & _); discriminate.
Qed.

(** C7, as the code has it. On a device without key material, when the
    records cannot be fetched (the response is not [ok], or the call
    throws an error whose message does not contain "Invalid
    passphrase"), [unlockEncryption] fails with "Failed to verify
    passphrase", which is not the message of a wrong passphrase, and the
    session stays as it was. When no error of the fetch carries such a
    message, "Invalid passphrase" is only reported after a decryption
    was attempted: of the key material stored locally, which did not
    vouch for the key, or of a record that was fetched, which did not
    decrypt or whose verification record could not be written. *)
Theorem unlock_fetch_failure_is_not_wrong_passphrase passphrase a net w s :
  (forall m, analysesResponse net = Failed m ->
             Js.includes "Invalid passphrase" m = false) ->
  let '(r, w1, s1) := unlockEncryption passphrase a net w s in
  (forall user w0 s0 saltText key blobOpt,
      candidateKey passphrase a net w s user w0 s0 saltText key ->
      IndexedDB.getEncryptedKey user (idb w0) = Ok blobOpt ->
      Js.truthy_opt blobOpt = false ->
      (analysesResponse net = NotOk
       \/ exists m, analysesResponse net = Failed m) ->
      r = Throw VerificationUnavailable
      /\ r <> Throw InvalidPassphrase
      /\ Js.includes "Invalid passphrase" VerificationUnavailable = false
      /\ encryptionKey s1 = encryptionKey s
      /\ isUnlocked s1 = isUnlocked s)
  /\ (r = Throw InvalidPassphrase ->
      exists user w0 s0 saltText key,
        candidateKey passphrase a net w s user w0 s0 saltText key
        /\ ((exists material,
               IndexedDB.getEncryptedKey user (idb w0) = Ok (Some material)
               /\ Js.truthy material = true
               /\ ~ vouches user key material)
            \/ (exists encryptedRecord rest,
                  analysesResponse net
                  = Body (Some (encryptedRecord :: rest))
                  /\ (is_ok
                        (Crypto.decryptAnalysisData encryptedRecord key)
                      = false
                      \/ storeFault net <> None)))).
Proof.
  intros Hnet.
  destruct (unlockEncryption passphrase a net w s) as [ [r w1] s1 ] eqn:Hrun.
  split.
  - intros user w0 s0 saltText key blobOpt Hkey Hget Hnone Hfail.
    pose proof (unlock_on_new_device _ _ _ _ _ _ _ _ _ _ _
                  Hkey Hget Hnone) as Hcases.
    rewrite Hrun in Hcases. cbv zeta in Hcases.
    destruct Hfail as [ Hresp | [m Hresp] ]; rewrite Hresp in Hcases.
    + destruct Hcases as (-> & Hk & Hu & _).
      repeat split; try assumption. discriminate.
    + rewrite (Hnet m Hresp) in Hcases.
      destruct Hcases as (-> & Hk & Hu & _).
      repeat split; try assumption. discriminate.
  - intros ->. exact (invalid_passphrase_origin _ _ _ _ _ _ _ Hnet Hrun).
Qed.

End VerifierFacts.

Section VerifierFactsWithLaws.
Context {P : Platform} {L : PlatformLaws P}.
Import Session.

(** The material written by an accepted unlock passes the local check
    under the same key. *)
Lemma freshMaterial_vouches user key net w :
  vouches user key (freshMaterial user key net w).
Proof.
  unfold vouches, freshMaterial.
  exists (verificationData user net),
    (Json.JObj [("timestamp", Json.JNum (number_of_Z (now net)));
                ("userSub", Json.JStr user)]).
  split; [ apply decryptKeyMaterial_encryptKeyMaterial_json | ].
  split; [ apply parse_stringify; reflexivity | reflexivity ].
Qed.

(** C6, as the code has it. On a device without key material: when the
    backend returns at least one record, its fields decrypt under the
    candidate key and the write of the verification record goes
    through, [unlockEncryption] succeeds, holds the key, and has stored
    key material that vouches for this key and user; when the fields do
    not decrypt it fails with "Invalid passphrase" and changes neither
    the session nor the store. When the backend has no record it accepts
    and stores key material as well, provided the write goes through;
    when the write goes wrong it fails with "Failed to verify
    passphrase" and changes neither the session nor the store. *)
Theorem unlock_without_local_material passphrase a net w s user w0 s0
    saltText key blobOpt :
  candidateKey passphrase a net w s user w0 s0 saltText key ->
  IndexedDB.getEncryptedKey user (idb w0) = Ok blobOpt ->
  Js.truthy_opt blobOpt = false ->
  let '(r, w1, s1) := unlockEncryption passphrase a net w s in
  let accepted :=
    acceptedAndStored user key net w0 r w1 s1
    /\ vouches user key (freshMaterial user key net w0) in
  let refused message :=
    r = Throw message
    /\ encryptionKey s1 = encryptionKey s
    /\ isUnlocked s1 = isUnlocked s
    /\ idb w1 = idb w in
  (forall encryptedRecord rest,
      analysesResponse net = Body (Some (encryptedRecord :: rest)) ->
      (is_ok (Crypto.decryptAnalysisData encryptedRecord key) = true ->
       storeFault net = None ->
       accepted)
      /\ (is_ok (Crypto.decryptAnalysisData encryptedRecord key) = false ->
          refused InvalidPassphrase))
  /\ (analysesResponse net = Body (Some [])
      \/ analysesResponse net = Body None ->
      (storeFault net = None -> accepted)
      /\ (storeFault net <> None -> refused VerificationUnavailable)).
Proof.
  intros Hkey Hget Hnone.
  pose proof (unlock_on_new_device _ _ _ _ _ _ _ _ _ _ _ Hkey Hget Hnone)
    as Hcases.
  destruct (unlockEncryption passphrase a net w s) as [ [r w1] s1 ].
  cbv zeta in *. split.
  - intros encryptedRecord rest Hresp. rewrite Hresp in Hcases.
    destruct (Crypto.decryptAnalysisData encryptedRecord key) as [ d | m ];
      cbn [is_ok]; split; try discriminate.
    + intros _ Hfault. rewrite Hfault in Hcases.
      split; [ exact Hcases | apply freshMaterial_vouches ].
    + intros _. exact Hcases.
  - intros [ Hresp | Hresp ]; rewrite Hresp in Hcases;
      (split;
       [ intros Hfault; rewrite Hfault in Hcases;
         split; [ exact Hcases | apply freshMaterial_vouches ]
       | intros Hfault; destruct (storeFault net);
         [ exact Hcases | contradiction ] ]).
Qed.

End VerifierFactsWithLaws.

Section ScenarioChecks.
Import Session Scenario.
#[local] Existing Instance Reference.platform.
#[local] Existing Instance ReferenceFacts.laws.

Example mounted_not_setup :
  session mounted
  = {| isSetup := false; isUnlocked := false; isLoading := false;
       encryptionKey := None; userSalt := None; hasCheckedSetup := false |}.
Proof. vm_compute. reflexivity. Qed.

Example afterSetup_unlocked :
  isUnlocked (session afterSetup) = true
  /\ encryptionKey (session afterSetup) = Some rightKey
  /\ saltText = "AAAAAAAAAAAAAAAA".
Proof. vm_compute. repeat split; reflexivity. Qed.

Example otherDevice_locked :
  session otherDevice
  = {| isSetup := true; isUnlocked := false; isLoading := false;
       encryptionKey := None; userSalt := Some saltText;
       hasCheckedSetup := true |}.
Proof. vm_compute. reflexivity. Qed.

Example unlock_after_lock :
  fst (unlock "correct-horse-battery" netFresh locked) = Ok tt
  /\ fst (unlock "wrong-passphrase" netFresh locked)
     = Throw InvalidPassphrase.
Proof. vm_compute. split; reflexivity. Qed.

(** On the second device a wrong passphrase is told apart by the record
    of the backend; after one accepted unlock the device verifies locally,
    also when the backend cannot be reached. *)
Example other_device_unlocks :
  fst (unlock "wrong-passphrase" netOtherDevice otherDevice)
  = Throw InvalidPassphrase
  /\ fst (unlock "correct-horse-battery" netOtherDevice otherDevice) = Ok tt
  /\ fst (unlock "correct-horse-battery" netOffline
            (lock (snd (unlock "correct-horse-battery" netOtherDevice
                          otherDevice))))
     = Ok tt
  /\ fst (unlock "wrong-passphrase" netOffline
            (lock (snd (unlock "correct-horse-battery" netOtherDevice
                          otherDevice))))
     = Throw InvalidPassphrase.
Proof. vm_compute. repeat split; reflexivity. Qed.

(** Signing out from the unlocked session locks it and keeps the store. *)
Example sign_out_locks :
  session (authChange signedOut netFresh afterSetup)
  = {| isSetup := false; isUnlocked := false; isLoading := false;
       encryptionKey := None; userSalt := Some saltText;
       hasCheckedSetup := false |}
  /\ idb (world (authChange signedOut netFresh afterSetup))
     = idb (world afterSetup).
Proof. vm_compute. split; reflexivity. Qed.

End ScenarioChecks.

Section Witnesses.
Import Session Scenario.
#[local] Existing Instance Reference.platform.
#[local] Existing Instance ReferenceFacts.laws.

Lemma lock_discards_key_and_keeps_store_witness :
  isUnlocked (session afterSetup) = true
  /\ encryptionKey (session (lock afterSetup)) = None
  /\ world (lock afterSetup) = world afterSetup
  /\ encryptionKey (session (authChange signedOut netFresh afterSetup)) = None
  /\ world (authChange signedOut netFresh afterSetup) = world afterSetup.
Proof.
  destruct (lock_discards_key_and_keeps_store afterSetup signedOut netFresh)
    as ((H1 & _ & _ & _ & H2) & (H3 & _ & _ & _ & H4)).
  - vm_compute. reflexivity.
  - reflexivity.
  - split; [ vm_compute; reflexivity | ].
    repeat split; assumption.
Defined.

(** C1, as the specification has it, fails: after [lockEncryption] on an
    unlocked session the record of the user still holds the encrypted
    key material that setup stored; it was not blanked. *)
Lemma lock_blanks_key_material_counterexample :
  isUnlocked (session afterSetup) = true
  /\ IndexedDB.getEncryptedKey user (idb (world (lock afterSetup)))
     = Ok (Some storedMaterial)
  /\ Js.truthy storedMaterial = true
  /\ IndexedDB.getEncryptedKey user (idb (world (lock afterSetup)))
     <> Ok (Some "").
Proof.
  split; [ vm_compute; reflexivity | ].
  split; [ vm_compute; reflexivity | ].
  split; [ vm_compute; reflexivity | ].
  intros H. vm_compute in H. discriminate.
Qed.

Lemma decrypt_encrypt_analysis_witness :
  Crypto.wellFormed recordWithContext = true
  /\ Crypto.decodedText (Crypto.userEmail recordWithContext)
     = Crypto.userEmail recordWithContext
  /\ Crypto.decodedText (Crypto.inputContent recordWithContext)
     = Crypto.inputContent recordWithContext
  /\ Crypto.decryptAnalysisData
       (fst (Crypto.encryptAnalysisData recordWithContext rightKey 7%nat))
       rightKey
     = Ok recordWithContext.
Proof.
  assert (Hemail : Crypto.decodedText (Crypto.userEmail recordWithContext)
                   = Crypto.userEmail recordWithContext).
  { vm_compute. reflexivity. }
  assert (Hcontent :
            Crypto.decodedText (Crypto.inputContent recordWithContext)
            = Crypto.inputContent recordWithContext).
  { vm_compute. reflexivity. }
  split; [ reflexivity | ]. split; [ exact Hemail | ].
  split; [ exact Hcontent | ].
  apply (decrypt_encrypt_analysis recordWithContext rightKey 7%nat).
  - reflexivity.
  - exact Hemail.
  - exact Hcontent.
  - discriminate.
Defined.

(** C4, as the specification has it, fails for a record without
    [analysisContext]: the decrypted record carries
    [analysisContext: null]. It also fails for a record whose
    [inputContent] begins with U+FEFF: the decrypted content lacks it. *)
Lemma roundtrip_changes_record_counterexample :
  (Crypto.wellFormed plainRecord = true
   /\ Crypto.analysisContext plainRecord = Js.Undefined
   /\ Crypto.decryptAnalysisData
        (fst (Crypto.encryptAnalysisData plainRecord rightKey 7%nat))
        rightKey
      = Ok {| Crypto.userEmail := Crypto.userEmail plainRecord;
              Crypto.inputContent := Crypto.inputContent plainRecord;
              Crypto.analysisContext := Js.Null;
              Crypto.mlResult := Crypto.mlResult plainRecord |}
   /\ Crypto.decryptAnalysisData
        (fst (Crypto.encryptAnalysisData plainRecord rightKey 7%nat))
        rightKey
      <> Ok plainRecord)
  /\ (Crypto.wellFormed recordWithMark = true
      /\ Crypto.decryptAnalysisData
           (fst (Crypto.encryptAnalysisData recordWithMark rightKey 7%nat))
           rightKey
         = Ok {| Crypto.userEmail := Crypto.userEmail recordWithMark;
                 Crypto.inputContent := "Click here";
                 Crypto.analysisContext := Js.Null;
                 Crypto.mlResult := Crypto.mlResult recordWithMark |}
      /\ Crypto.decryptAnalysisData
           (fst (Crypto.encryptAnalysisData recordWithMark rightKey 7%nat))
           rightKey
         <> Ok recordWithMark).
Proof.
  split.
  - split; [ reflexivity | ].
    split; [ reflexivity | ].
    split; [ vm_compute; reflexivity | ].
    intros H.
    apply (f_equal
             (fun r => match r with
                       | Ok d =>
                           match Crypto.analysisContext d with
                           | Js.Undefined => true
                           | _ => false
                           end
                       | Throw _ => false
                       end)) in H.
    vm_compute in H. discriminate H.
  - split; [ reflexivity | ].
    split; [ vm_compute; reflexivity | ].
    intros H.
    apply (f_equal
             (fun r => match r with
                       | Ok d => String.eqb (Crypto.inputContent d)
                                   "Click here"
                       | Throw _ => false
                       end)) in H.
    vm_compute in H. discriminate H.
Qed.

(** C8. A key in memory and the unlocked flag do not always go
    together. The setup check reads [encryptionKey] from the render
    that started it. When the user sets encryption up while the check
    awaits, the check resumes, finds no key in its render and calls
    [setIsUnlocked(false)]: the key of the setup stays in memory and the
    session is not unlocked. The checks that run afterwards leave it
    so. *)
Theorem stale_setup_check_keeps_key_locked :
  isLoading (session atSignIn) = false
  /\ checkSetupStart signedIn (world atSignIn) (session atSignIn)
     = Awaiting (Ok false)
  /\ fst (setup "correct-horse-battery" netFresh atSignIn) = Ok tt
  /\ encryptionKey (session setUpMeanwhile) = Some lateKey
  /\ isUnlocked (session setUpMeanwhile) = true
  /\ step setUpMeanwhile afterStaleCheck
  /\ encryptionKey (session afterStaleCheck) = Some lateKey
  /\ isUnlocked (session afterStaleCheck) = false
  /\ encryptionKey (session (recheck netSaltSaved afterStaleCheck))
     = Some lateKey
  /\ isUnlocked (session (recheck netSaltSaved afterStaleCheck)) = false
  /\ step setUpMeanwhile afterStaleCheckSalt
  /\ encryptionKey (session afterStaleCheckSalt) = Some lateKey
  /\ isUnlocked (session afterStaleCheckSalt) = false
  /\ encryptionKey (session (recheck netSaltSaved afterStaleCheckSalt))
     = Some lateKey
  /\ isUnlocked (session (recheck netSaltSaved afterStaleCheckSalt))
     = false.
Proof.
  repeat split; try apply step_resume; vm_compute; reflexivity.
Qed.

(** C2. Records without a salt are meant to put the provider in an
    error state of its own. In the code the branch that handles them
    (its comment calls it an error state) sets exactly the flags of the
    branch for a new user: after mounting, the session is the one of a
    user who never set encryption up, and only the console tells the
    two apart. *)
Theorem inconsistent_backend_left_as_not_setup :
  session (mount signedIn netInconsistent emptyWorld)
  = session (mount signedIn netFresh emptyWorld)
  /\ session (mount signedIn netInconsistent emptyWorld)
     = {| isSetup := false; isUnlocked := false; isLoading := false;
          encryptionKey := None; userSalt := None;
          hasCheckedSetup := false |}
  /\ console (world (mount signedIn netInconsistent emptyWorld))
     = ["User has analyses but no salt found - data inconsistency"]
  /\ console (world (mount signedIn netFresh emptyWorld)) = [].
Proof. vm_compute. repeat split; reflexivity. Qed.

Lemma rightKey_candidate st net :
  auth st = signedIn ->
  userSalt (session st) = Some saltText ->
  candidateKey "correct-horse-battery" signedIn net (world st) (session st)
    user (world st) (session st) saltText rightKey.
Proof.
  intros Hauth Hsalt. unfold candidateKey.
  split; [ reflexivity | ]. split; [ reflexivity | ].
  split; [ unfold resolveSalt; rewrite Hsalt; reflexivity | ].
  split; [ reflexivity | ].
  exists (list_byte_of_string saltText). split; reflexivity.
Qed.

Lemma unlock_with_local_material_witness :
  IndexedDB.getEncryptedKey user (idb (world locked))
  = Ok (Some storedMaterial)
  /\ Js.truthy storedMaterial = true
  /\ vouches user rightKey storedMaterial
  /\ fst (unlock "correct-horse-battery" netFresh locked) = Ok tt.
Proof.
  assert (Hget : IndexedDB.getEncryptedKey user (idb (world locked))
                 = Ok (Some storedMaterial)).
  { vm_compute. reflexivity. }
  assert (Htruthy : Js.truthy storedMaterial = true).
  { vm_compute. reflexivity. }
  assert (Hvouch : vouches user rightKey storedMaterial).
  { exists (verificationData user netFresh),
      (Json.JObj [("timestamp", Json.JNum (now netFresh));
                  ("userSub", Json.JStr user)]).
    repeat split; vm_compute; reflexivity. }
  pose proof (unlock_with_local_material "correct-horse-battery" signedIn
                netFresh (world locked) (session locked) user
                (world locked) (session locked) saltText rightKey
                storedMaterial
                (rightKey_candidate locked netFresh eq_refl eq_refl)
                Hget Htruthy) as H.
  unfold unlock.
  change (auth locked) with signedIn.
  destruct (unlockEncryption "correct-horse-battery" signedIn netFresh
              (world locked) (session locked)) as [ [r w1] s1 ].
  destruct H as (Hiff & _).
  repeat split; try assumption.
  cbn [fst]. apply Hiff. exact Hvouch.
Defined.

Lemma unlock_without_local_material_witness :
  IndexedDB.getEncryptedKey user (idb (world otherDevice)) = Ok None
  /\ is_ok (Crypto.decryptAnalysisData remoteRecord rightKey) = true
  /\ storeFault netOtherDevice = None
  /\ fst (unlock "correct-horse-battery" netOtherDevice otherDevice) = Ok tt
  /\ is_Some
       (encryptionKey
          (session (snd (unlock "correct-horse-battery" netOtherDevice
                           otherDevice)))).
Proof.
  assert (Hget : IndexedDB.getEncryptedKey user (idb (world otherDevice))
                 = Ok None).
  { vm_compute. reflexivity. }
  assert (Hdec : is_ok (Crypto.decryptAnalysisData remoteRecord rightKey)
                 = true).
  { vm_compute. reflexivity. }
  pose proof (unlock_without_local_material "correct-horse-battery"
                signedIn netOtherDevice (world otherDevice)
                (session otherDevice) user (world otherDevice)
                (session otherDevice) saltText rightKey None
                (rightKey_candidate otherDevice netOtherDevice
                   eq_refl eq_refl)
                Hget eq_refl) as H.
  unfold unlock.
  change (auth otherDevice) with signedIn.
  destruct (unlockEncryption "correct-horse-battery" signedIn
              netOtherDevice (world otherDevice) (session otherDevice))
    as [ [r w1] s1 ].
  cbv zeta in H. destruct H as (Hrecord & _).
  destruct (Hrecord remoteRecord [] eq_refl) as (Haccept & _).
  destruct (Haccept Hdec eq_refl) as ((Hr & Hkey & _) & _).
  cbn [fst snd session].
  repeat split; try assumption. rewrite Hkey. eauto.
Defined.

(** C6, as the specification has it, fails when the write of the
    verification record goes wrong. With no record at the backend the
    unlock is not accepted: it fails with "Failed to verify passphrase"
    and stores nothing. With a record that decrypts under the candidate
    key it fails as well, here with "Invalid passphrase". *)
Lemma unlock_needs_the_write_counterexample :
  IndexedDB.getEncryptedKey user (idb (world otherDevice)) = Ok None
  /\ (analysesResponse netNoRecordStoreFails = Body (Some [])
      /\ fst (unlock "correct-horse-battery" netNoRecordStoreFails
                otherDevice)
         = Throw VerificationUnavailable
      /\ IndexedDB.getEncryptedKey user
           (idb (world (snd (unlock "correct-horse-battery"
                               netNoRecordStoreFails otherDevice))))
         = Ok None)
  /\ (analysesResponse netStoreFails = Body (Some [remoteRecord])
      /\ is_ok (Crypto.decryptAnalysisData remoteRecord rightKey) = true
      /\ fst (unlock "correct-horse-battery" netStoreFails otherDevice)
         = Throw InvalidPassphrase
      /\ IndexedDB.getEncryptedKey user
           (idb (world (snd (unlock "correct-horse-battery" netStoreFails
                               otherDevice))))
         = Ok None).
Proof.
  split; [ vm_compute; reflexivity | ].
  split; (split; [ reflexivity | ]); repeat split; vm_compute; reflexivity.
Qed.

Lemma unlock_fetch_failure_is_not_wrong_passphrase_witness :
  analysesResponse netOffline = Failed "Failed to fetch"
  /\ fst (unlock "correct-horse-battery" netOffline otherDevice)
     = Throw VerificationUnavailable
  /\ fst (unlock "correct-horse-battery" netOffline otherDevice)
     <> Throw InvalidPassphrase.
Proof.
  assert (Hget : IndexedDB.getEncryptedKey user (idb (world otherDevice))
                 = Ok None).
  { vm_compute. reflexivity. }
  assert (Hnet : forall m, analysesResponse netOffline = Failed m ->
                           Js.includes "Invalid passphrase" m = false).
  { intros m Hm. injection Hm as <-. reflexivity. }
  pose proof (unlock_fetch_failure_is_not_wrong_passphrase
                "correct-horse-battery" signedIn netOffline
                (world otherDevice) (session otherDevice) Hnet) as H.
  unfold unlock.
  change (auth otherDevice) with signedIn.
  destruct (unlockEncryption "correct-horse-battery" signedIn netOffline
              (world otherDevice) (session otherDevice))
    as [ [r w1] s1 ].
  destruct H as (Hfail & _).
  destruct (Hfail user (world otherDevice) (session otherDevice) saltText
              rightKey None
              (rightKey_candidate otherDevice netOffline eq_refl eq_refl)
              Hget eq_refl
              (or_intror (ex_intro _ "Failed to fetch" eq_refl)))
    as (Hr & Hne & _).
  cbn [fst]. repeat split; assumption.
Defined.

(** C7, as the specification has it, fails when the fetch of the
    records throws an error whose message contains "Invalid passphrase":
    the code passes that error on. Here the device holds no key material
    and no record was fetched, so no decryption was attempted, and the
    unlock fails with the message of a wrong passphrase. *)
Lemma fetch_error_passed_on_counterexample :
  IndexedDB.getEncryptedKey user (idb (world otherDevice)) = Ok None
  /\ analysesResponse netMisleading = Failed InvalidPassphrase
  /\ fst (unlock "correct-horse-battery" netMisleading otherDevice)
     = Throw InvalidPassphrase
  /\ fst (unlock "correct-horse-battery" netMisleading otherDevice)
     <> Throw VerificationUnavailable.
Proof.
  split; [ vm_compute; reflexivity | ].
  split; [ reflexivity | ].
  split; [ vm_compute; reflexivity | ].
  intros H. vm_compute in H. discriminate H.
Qed.

End Witnesses.

(** ** More on the Local Key-Material Store *)

Section MoreStoreFacts.
Import IndexedDB.

Lemma initDB_ok db store : initDB db = Ok store -> opens db = true.
Proof. unfold initDB. destruct (opens db); [ reflexivity | discriminate ]. Qed.

Lemma initDB_opens db : opens db = true -> initDB db = Ok (encryptionKeys db).
Proof. unfold initDB. intros ->. reflexivity. Qed.

Lemma lookup_put_ne r db v :
  v <> userSub r -> encryptionKeys (put r db) !! v = encryptionKeys db !! v.
Proof.
  intros Hne. unfold put. cbn [encryptionKeys].
  apply lookup_insert_ne. congruence.
Qed.

Lemma lookup_put_at r db user :
  userSub r = user -> encryptionKeys (put r db) !! user = Some r.
Proof. intros <-. apply lookup_put. Qed.

Lemma storeEncryptedKey_ok fault user material nowIso db db' :
  storeEncryptedKey fault user material nowIso db = Ok db' ->
  opens db = true
  /\ db' = put {| userSub := user; encryptedKeyMaterial := material;
                  salt := None; createdAt := nowIso; updatedAt := None |} db.
Proof.
  unfold storeEncryptedKey, initDB.
  destruct fault as [ [ | ] | ], (opens db); cbn [bind]; intros H;
    try discriminate H; injection H as <-; split; reflexivity.
Qed.

Lemma storeSalt_ok user s nowIso db db' :
  storeSalt user s nowIso db = Ok db' ->
  opens db = true
  /\ db' = put {| userSub := user;
                  encryptedKeyMaterial :=
                    Js.or_else (encryptedKeyMaterial
                                  <$> encryptionKeys db !! user) "";
                  salt := Some s;
                  createdAt :=
                    Js.or_else (createdAt <$> encryptionKeys db !! user)
                      nowIso;
                  updatedAt := Some nowIso |} db.
Proof.
  unfold storeSalt, initDB.
  destruct (opens db); cbn [bind]; intros H; [ | discriminate ].
  injection H as <-. split; reflexivity.
Qed.

Lemma clearEncryptedKey_ok user nowIso db db' :
  clearEncryptedKey user nowIso db = Ok db' ->
  opens db = true
  /\ db' = match encryptionKeys db !! user with
           | Some existing => put (cleared user nowIso existing) db
           | None => db
           end.
Proof.
  unfold clearEncryptedKey, initDB.
  destruct (opens db); cbn [bind]; intros H; [ | discriminate ].
  destruct (encryptionKeys db !! user); injection H as <-; split; reflexivity.
Qed.

(** X1. Key material stored with [storeEncryptedKey] is what
    [getEncryptedKey] returns for that user afterwards, whatever the
    record held before, and [hasEncryptedKey] answers [true]. *)
Theorem stored_key_is_read_back fault user material nowIso db db' :
  storeEncryptedKey fault user material nowIso db = Ok db' ->
  getEncryptedKey user db' = Ok (Some material)
  /\ hasEncryptedKey user db' = Ok true.
Proof.
  intros H. apply storeEncryptedKey_ok in H as (Hopen & ->).
  split.
  - apply (getEncryptedKey_put
             {| userSub := user; encryptedKeyMaterial := material;
                salt := None; createdAt := nowIso; updatedAt := None |}).
    exact Hopen.
  - apply (hasEncryptedKey_put
             {| userSub := user; encryptedKeyMaterial := material;
                salt := None; createdAt := nowIso; updatedAt := None |}).
    exact Hopen.
Qed.

(** X2. [storeEncryptedKey] replaces the whole record of the user: a
    salt that [storeSalt] had saved for that user is gone afterwards,
    [getSalt] returns [null]. *)
Theorem storing_key_drops_stored_salt fault user s t0 material t1 db db0
    db1 :
  storeSalt user s t0 db = Ok db0 ->
  Js.truthy s = true ->
  storeEncryptedKey fault user material t1 db0 = Ok db1 ->
  getSalt user db0 = Ok (Some s) /\ getSalt user db1 = Ok None.
Proof.
  intros Hs Htruthy Hk.
  apply storeSalt_ok in Hs as (Hopen & ->).
  apply storeEncryptedKey_ok in Hk as (Hopen1 & ->).
  split.
  - unfold getSalt. rewrite initDB_opens by (rewrite opens_put; exact Hopen).
    cbn [bind].
    rewrite (lookup_put
               {| userSub := user;
                  encryptedKeyMaterial :=
                    Js.or_else (encryptedKeyMaterial
                                  <$> encryptionKeys db !! user) "";
                  salt := Some s;
                  createdAt :=
                    Js.or_else (createdAt <$> encryptionKeys db !! user) t0;
                  updatedAt := Some t0 |} db).
    cbn. unfold Js.or_null. cbn. rewrite Htruthy. reflexivity.
  - unfold getSalt. rewrite initDB_opens by (rewrite opens_put; exact Hopen1).
    cbn [bind].
    match goal with
    | |- context [encryptionKeys (put ?r ?d) !! user] =>
        rewrite (lookup_put_at r d user eq_refl)
    end.
    reflexivity.
Qed.

(** X3. [storeSalt] keeps the key material the user already has: after
    it, [getEncryptedKey] returns the material read before (the empty
    text when there was no record), and [getSalt] returns the new salt
    when it is not empty. *)
Theorem storeSalt_keeps_key_material user s nowIso db db' before :
  getEncryptedKey user db = Ok before ->
  storeSalt user s nowIso db = Ok db' ->
  getEncryptedKey user db' = Ok (Some (Js.or_else before ""))
  /\ getSalt user db' = Ok (Js.or_null (Some s)).
Proof.
  intros Hget Hs. apply storeSalt_ok in Hs as (Hopen & ->).
  unfold getEncryptedKey in Hget. rewrite initDB_opens in Hget by exact Hopen.
  cbn [bind] in Hget. injection Hget as <-.
  split.
  - match goal with
    | |- getEncryptedKey user (put ?r ?d) = _ =>
        etransitivity; [ exact (getEncryptedKey_put r d Hopen) | ]
    end.
    cbn [encryptedKeyMaterial].
    destruct (encryptionKeys db !! user); reflexivity.
  - unfold getSalt. rewrite initDB_opens by (rewrite opens_put; exact Hopen).
    cbn [bind].
    match goal with
    | |- context [encryptionKeys (put ?r ?d) !! user] =>
        rewrite (lookup_put_at r d user eq_refl)
    end.
    reflexivity.
Qed.

(** X4. Writing the record of one user never touches the record of
    another: after [storeEncryptedKey], [storeSalt] or
    [clearEncryptedKey] for [user], every other user reads the same key
    material and the same salt as before. *)
Theorem store_writes_leave_other_users fault user other material s nowIso
    db :
  other <> user ->
  forall db',
    storeEncryptedKey fault user material nowIso db = Ok db'
    \/ storeSalt user s nowIso db = Ok db'
    \/ clearEncryptedKey user nowIso db = Ok db' ->
    getEncryptedKey other db' = getEncryptedKey other db
    /\ getSalt other db' = getSalt other db
    /\ hasEncryptedKey other db' = hasEncryptedKey other db.
Proof.
  intros Hne db' H.
  assert (Hsame : opens db' = opens db
                  /\ encryptionKeys db' !! other = encryptionKeys db !! other).
  { destruct H as [H | [H | H]].
    - apply storeEncryptedKey_ok in H as (_ & ->).
      split; [ apply opens_put | apply lookup_put_ne; exact Hne ].
    - apply storeSalt_ok in H as (_ & ->).
      split; [ apply opens_put | apply lookup_put_ne; exact Hne ].
    - apply clearEncryptedKey_ok in H as (_ & ->).
      destruct (encryptionKeys db !! user); [ | split; reflexivity ].
      split; [ apply opens_put | apply lookup_put_ne; exact Hne ]. }
  destruct Hsame as (Hopens & Hlookup).
  assert (Hkey : getEncryptedKey other db' = getEncryptedKey other db).
  { unfold getEncryptedKey, initDB. rewrite Hopens.
    destruct (opens db); cbn [bind]; [ rewrite Hlookup | ]; reflexivity. }
  split; [ exact Hkey | ]. split.
  - unfold getSalt, initDB. rewrite Hopens.
    destruct (opens db); cbn [bind]; [ rewrite Hlookup | ]; reflexivity.
  - unfold hasEncryptedKey. rewrite Hkey. reflexivity.
Qed.

(** X5. [clearEncryptedKey] never changes the salt that [getSalt]
    returns for the user, whether the user has a record or not; without
    a record the database is left as it is. *)
Theorem clearing_key_keeps_salt user nowIso db db' :
  clearEncryptedKey user nowIso db = Ok db' ->
  getSalt user db' = getSalt user db
  /\ (encryptionKeys db !! user = None -> db' = db).
Proof.
  intros H. pose proof (clearEncryptedKey_ok _ _ _ _ H) as (Hopen & Hdb').
  destruct (encryptionKeys db !! user) as [r | ] eqn:Hr.
  - split; [ | discriminate ].
    exact (clear_preserves_salt user nowIso db r db' Hopen Hr H).
  - subst db'. split; [ reflexivity | intros _; reflexivity ].
Qed.

End MoreStoreFacts.

Lemma stored_key_is_read_back_witness :
  exists db',
    IndexedDB.storeEncryptedKey None "auth0|u1" "fresh"
      "2024-03-03T00:00:00.000Z" StoreScenario.sampleDatabase = Ok db'
    /\ IndexedDB.getEncryptedKey "auth0|u1" db' = Ok (Some "fresh")
    /\ IndexedDB.hasEncryptedKey "auth0|u1" db' = Ok true.
Proof.
  eexists. split; [ reflexivity | ].
  apply (stored_key_is_read_back None "auth0|u1" "fresh"
           "2024-03-03T00:00:00.000Z" StoreScenario.sampleDatabase).
  reflexivity.
Defined.

Lemma storing_key_drops_stored_salt_witness :
  exists db0 db1,
    IndexedDB.storeSalt "auth0|u1" "c2FsdA==" "2024-03-03T00:00:00.000Z"
      StoreScenario.sampleDatabase = Ok db0
    /\ IndexedDB.storeEncryptedKey None "auth0|u1" "fresh"
         "2024-03-04T00:00:00.000Z" db0 = Ok db1
    /\ IndexedDB.getSalt "auth0|u1" db0 = Ok (Some "c2FsdA==")
    /\ IndexedDB.getSalt "auth0|u1" db1 = Ok None.
Proof.
  eexists. eexists. split; [ reflexivity | ]. split; [ reflexivity | ].
  apply (storing_key_drops_stored_salt None "auth0|u1" "c2FsdA=="
           "2024-03-03T00:00:00.000Z" "fresh" "2024-03-04T00:00:00.000Z"
           StoreScenario.sampleDatabase); reflexivity.
Defined.

Lemma storeSalt_keeps_key_material_witness :
  exists db',
    IndexedDB.storeSalt "auth0|u1" "bmV3" "2024-03-03T00:00:00.000Z"
      StoreScenario.sampleDatabase = Ok db'
    /\ IndexedDB.getEncryptedKey "auth0|u1" db' = Ok (Some "blob")
    /\ IndexedDB.getSalt "auth0|u1" db' = Ok (Some "bmV3").
Proof.
  eexists. split; [ reflexivity | ].
  apply (storeSalt_keeps_key_material "auth0|u1" "bmV3"
           "2024-03-03T00:00:00.000Z" StoreScenario.sampleDatabase _
           (Some "blob")); reflexivity.
Defined.

Lemma store_writes_leave_other_users_witness :
  exists db',
    IndexedDB.storeEncryptedKey None "auth0|u2" "other"
      "2024-03-03T00:00:00.000Z" StoreScenario.sampleDatabase = Ok db'
    /\ IndexedDB.getEncryptedKey "auth0|u1" db' = Ok (Some "blob")
    /\ IndexedDB.getSalt "auth0|u1" db' = Ok (Some "c2FsdA==").
Proof.
  eexists. split; [ reflexivity | ].
  destruct (store_writes_leave_other_users None "auth0|u2" "auth0|u1"
              "other" ""
              "2024-03-03T00:00:00.000Z" StoreScenario.sampleDatabase
              ltac:(discriminate) _ (or_introl eq_refl)) as (H1 & H2 & _).
  split; [ exact H1 | exact H2 ].
Defined.

Lemma clearing_key_keeps_salt_witness :
  exists db',
    IndexedDB.clearEncryptedKey "auth0|u1" "2024-03-03T00:00:00.000Z"
      StoreScenario.sampleDatabase = Ok db'
    /\ IndexedDB.getSalt "auth0|u1" db' = Ok (Some "c2FsdA==").
Proof.
  eexists. split; [ reflexivity | ].
  apply (clearing_key_keeps_salt "auth0|u1" "2024-03-03T00:00:00.000Z"
           StoreScenario.sampleDatabase). reflexivity.
Defined.

(** ** More on the cipher *)

Section MoreCryptoFacts.
Context {P : Platform} {L : PlatformLaws P}.
Import Crypto.

(** X6. For every text, key and state of the random generator,
    [decrypt] applied to the [ciphertext] and [iv] that [encrypt]
    returned, under the same key, gives the text as [TextEncoder] and
    [TextDecoder] hand it back: the text itself unless it begins with
    U+FEFF or holds a lone surrogate. [decryptKeyMaterial] does the same
    with what [encryptKeyMaterial] returned, and [base64ToArrayBuffer]
    returns the bytes that [arrayBufferToBase64] wrote. *)
Theorem encrypt_then_decrypt plaintext key g buffer :
  decrypt (ciphertext (fst (encrypt plaintext key g)))
    (iv (fst (encrypt plaintext key g))) key
  = Ok (decodedText plaintext)
  /\ decryptKeyMaterial (fst (encryptKeyMaterial plaintext key g)) key
     = Ok (decodedText plaintext)
  /\ (decodedText plaintext = plaintext ->
      decrypt (ciphertext (fst (encrypt plaintext key g)))
        (iv (fst (encrypt plaintext key g))) key
      = Ok plaintext
      /\ decryptKeyMaterial (fst (encryptKeyMaterial plaintext key g)) key
         = Ok plaintext)
  /\ base64ToArrayBuffer (arrayBufferToBase64 buffer) = Ok buffer.
Proof.
  pose proof (decrypt_encrypt plaintext key g) as H1. cbv zeta in H1.
  pose proof (decryptKeyMaterial_encryptKeyMaterial plaintext key g) as H2.
  split; [ exact H1 | ]. split; [ exact H2 | ].
  split; [ | apply base64_of_buffer ].
  intros Hsame. rewrite H1, H2, Hsame. split; reflexivity.
Qed.

(** X7. A record encrypted under one key does not decrypt under a key
    for which the cipher rejects the first field: [decryptAnalysisData]
    throws the [OperationError] of the cipher and returns no record. *)
Theorem other_key_is_rejected (data : AnalysisData) key other g :
  aes_gcm_decrypt other (fst (getRandomValues IV_LENGTH g))
    (aes_gcm_encrypt key (fst (getRandomValues IV_LENGTH g))
       (TextEncoder_encode (userEmail data)))
  = None ->
  decryptAnalysisData (fst (encryptAnalysisData data key g)) other
  = Throw "OperationError".
Proof.
  intros Hreject. unfold encryptAnalysisData.
  assert (H1 : decrypt (ciphertext (fst (encrypt (userEmail data) key g)))
                 (iv (fst (encrypt (userEmail data) key g))) other
               = Throw "OperationError").
  { unfold encrypt.
    destruct (getRandomValues IV_LENGTH g) as [nonce g'].
    cbn [fst ciphertext iv] in *. unfold decrypt.
    rewrite !base64_of_buffer. cbn [bind]. rewrite Hreject. reflexivity. }
  destruct (encrypt (userEmail data) key g) as [e1 g1].
  destruct (encrypt (inputContent data) key g1) as [e2 g2].
  destruct (encrypt (contextText (analysisContext data)) key g2)
    as [e3 g3].
  destruct (encrypt (JSON_stringify (mlResult data)) key g3) as [e4 g4].
  cbn [fst] in *. unfold decryptAnalysisData.
  cbn [encUserEmail encInputContent encAnalysisContext encMlResult].
  cbn [Js.truthy_opt]. rewrite stringifyEncrypted_truthy.
  cbn [default from_option id].
  rewrite !parse_stringifyEncrypted. cbn [bind].
  rewrite text_member_ciphertext; cbn [bind].
  rewrite text_member_iv; cbn [bind]. rewrite H1. reflexivity.
Qed.

(** X8. Every field of the record that [encryptAnalysisData] returns
    is a non-empty text, and [analysisContext] is always among them,
    also for a record that had no context. *)
Theorem encrypted_record_has_every_field (data : AnalysisData) key g :
  let e := fst (encryptAnalysisData data key g) in
  Js.truthy (encUserEmail e) = true
  /\ Js.truthy (encInputContent e) = true
  /\ Js.truthy_opt (encAnalysisContext e) = true
  /\ Js.truthy (encMlResult e) = true.
Proof.
  unfold encryptAnalysisData.
  destruct (encrypt (userEmail data) key g) as [e1 g1].
  destruct (encrypt (inputContent data) key g1) as [e2 g2].
  destruct (encrypt (contextText (analysisContext data)) key g2)
    as [e3 g3].
  destruct (encrypt (JSON_stringify (mlResult data)) key g3) as [e4 g4].
  cbn [fst encUserEmail encInputContent encAnalysisContext encMlResult
       Js.truthy_opt].
  repeat split; apply stringifyEncrypted_truthy.
Qed.

End MoreCryptoFacts.

Section ContextFacts.
Context {P : Platform}.
Import Crypto.

Ltac step_bind H :=
  match type of H with
  | bind ?r _ = Ok _ =>
      let E := fresh "E" in
      destruct r eqn:E; cbn [bind] in H; [ | discriminate H ]
  end.

Lemma decryptContext_defined contextData key c :
  decryptContext contextData key = Ok c -> c <> Js.Undefined.
Proof.
  unfold decryptContext. intros H.
  repeat match type of H with
         | Ok _ = Ok _ => injection H as <-; discriminate
         | Throw _ = Ok _ => discriminate H
         | bind ?r _ = Ok _ => destruct r; cbn [bind] in H
         | (match ?x with _ => _ end) = Ok _ => destruct x
         | (if ?x then _ else _) = Ok _ => destruct x
         end.
Qed.

(** X9. The [analysisContext] of a record that [decryptAnalysisData]
    returns is never [undefined]: it is [null] when the encrypted record
    has no [analysisContext] (absent, [null] or the empty text), and an
    object or [null] otherwise. *)
Theorem decrypted_context_is_never_undefined encrypted key data :
  decryptAnalysisData encrypted key = Ok data ->
  analysisContext data <> Js.Undefined
  /\ (Js.truthy_opt (encAnalysisContext encrypted) = false ->
      analysisContext data = Js.Null).
Proof.
  unfold decryptAnalysisData. intros H.
  step_bind H. step_bind H.
  match type of H with
  | bind ?r _ = Ok _ =>
      destruct r as [contextData | ] eqn:Hcontext; cbn [bind] in H;
      [ | discriminate H ]
  end.
  do 7 step_bind H.
  match type of H with
  | bind ?r _ = Ok _ =>
      destruct r as [c | ] eqn:Hc; cbn [bind] in H; [ | discriminate H ]
  end.
  do 4 step_bind H.
  injection H as <-. cbn [analysisContext].
  split.
  - exact (decryptContext_defined _ _ _ Hc).
  - intros Hnone. rewrite Hnone in Hcontext. injection Hcontext as <-.
    unfold decryptContext in Hc. injection Hc as <-. reflexivity.
Qed.

End ContextFacts.

Section MoreCryptoWitnesses.
Import Scenario.
#[local] Existing Instance Reference.platform.
#[local] Existing Instance ReferenceFacts.laws.

Lemma encrypt_then_decrypt_witness :
  Crypto.decodedText "user@example.org" = "user@example.org"
  /\ Crypto.decrypt
       (Crypto.ciphertext
          (fst (Crypto.encrypt "user@example.org" rightKey 7%nat)))
       (Crypto.iv (fst (Crypto.encrypt "user@example.org" rightKey 7%nat)))
       rightKey
     = Ok "user@example.org"
  /\ Crypto.decryptKeyMaterial
       (fst (Crypto.encryptKeyMaterial "user@example.org" rightKey 7%nat))
       rightKey
     = Ok "user@example.org".
Proof.
  assert (Hsame : Crypto.decodedText "user@example.org" = "user@example.org").
  { vm_compute. reflexivity. }
  split; [ exact Hsame | ].
  destruct (encrypt_then_decrypt "user@example.org" rightKey 7%nat [])
    as (_ & _ & H & _).
  exact (H Hsame).
Defined.

Lemma other_key_is_rejected_witness :
  Crypto.decryptAnalysisData
    (fst (Crypto.encryptAnalysisData plainRecord rightKey 7%nat))
    (Crypto.deriveKey "wrong-passphrase" (list_byte_of_string saltText)
       Crypto.PBKDF2_ITERATIONS)
  = Throw "OperationError".
Proof.
  apply (other_key_is_rejected plainRecord rightKey
           (Crypto.deriveKey "wrong-passphrase" (list_byte_of_string saltText)
              Crypto.PBKDF2_ITERATIONS) 7%nat).
  vm_compute. reflexivity.
Defined.

Lemma encrypted_record_has_every_field_witness :
  Crypto.analysisContext plainRecord = Js.Undefined
  /\ Js.truthy_opt
       (Crypto.encAnalysisContext
          (fst (Crypto.encryptAnalysisData plainRecord rightKey 7%nat)))
     = true.
Proof.
  split; [ reflexivity | ].
  exact (proj1 (proj2 (proj2
           (encrypted_record_has_every_field plainRecord rightKey 7%nat)))).
Defined.

Lemma decrypted_context_is_never_undefined_witness :
  match Crypto.decryptAnalysisData
          (fst (Crypto.encryptAnalysisData plainRecord rightKey 7%nat))
          rightKey with
  | Ok data => Crypto.analysisContext data <> Js.Undefined
  | Throw _ => False
  end.
Proof.
  destruct (Crypto.decryptAnalysisData
              (fst (Crypto.encryptAnalysisData plainRecord rightKey 7%nat))
              rightKey) as [data | m] eqn:E.
  - exact (proj1 (decrypted_context_is_never_undefined _ _ _ E)).
  - assert (H : is_ok (Crypto.decryptAnalysisData
                         (fst (Crypto.encryptAnalysisData plainRecord
                                 rightKey 7%nat)) rightKey) = true).
    { vm_compute. reflexivity. }
    rewrite E in H. discriminate H.
Defined.

End MoreCryptoWitnesses.

(** ** Encrypting and decrypting records; the history *)

Section RecordFacts.
Context {P : Platform}.
Import Session Records.

Lemma decryptOrPlaceholder_meta s encrypted :
  analysisMeta (decryptOrPlaceholder s encrypted) = encryptedMeta encrypted.
Proof.
  unfold decryptOrPlaceholder, decryptData.
  destruct (encryptionKey s) as [key | ]; [ | reflexivity ].
  destruct (Crypto.decryptAnalysisData (encryptedFields encrypted) key);
    reflexivity.
Qed.

(** X11. With a key in memory, [encryptData] throws ['Missing required
    fields for encryption'] when [userEmail] or [inputContent] is absent
    or empty or [mlResult] is absent or falsy, and then draws no random
    bytes; otherwise it returns an encrypted record that keeps the
    other properties of its argument. *)
Theorem encryptData_requires_fields s key data g :
  encryptionKey s = Some key ->
  let complete :=
    Js.truthy_opt (userEmail data) && Js.truthy_opt (inputContent data)
    && from_option (Json.is_truthy number_truthy) false (mlResult data) in
  (complete = false -> encryptData s data g = (Throw MissingFields, g))
  /\ (complete = true ->
      exists encrypted,
        fst (encryptData s data g) = Ok encrypted
        /\ encryptedMeta encrypted = meta data).
Proof.
  intros Hkey. unfold encryptData. rewrite Hkey.
  destruct (userEmail data) as [email | ],
           (inputContent data) as [content | ],
           (mlResult data) as [ml | ];
    cbn [Js.truthy_opt from_option andb];
    try (split; [ reflexivity | intros H; try discriminate H ]).
  - destruct (Js.truthy email), (Js.truthy content),
      (Json.is_truthy number_truthy ml); cbn [negb orb andb];
      (split; [ intros H; try discriminate H; reflexivity
              | intros H; try discriminate H ]).
    destruct (Crypto.encryptAnalysisData _ key g) as [e g'].
    eexists. split; reflexivity.
  - destruct (Js.truthy email), (Js.truthy content); discriminate H.
  - destruct (Js.truthy email); discriminate H.
  - destruct (Js.truthy email); discriminate H.
Qed.

(** X12. When the session is unlocked and the records were fetched,
    [loadHistory] shows one entry for every record, in the same order
    and with the same [id], [userSub], [inputType], [createdAt] and
    [updatedAt]: the decrypted record, or the placeholder when
    [decryptData] throws. A record that does not decrypt hides no other,
    and no error toast is raised. *)
Theorem history_keeps_every_record s items d :
  isUnlocked s = true ->
  let d' := loadHistory s (Ok items) d in
  map analysisMeta (analyses d') = map encryptedMeta items
  /\ Forall2
       (fun encrypted shown =>
          decryptData s encrypted = Ok shown
          \/ (is_ok (decryptData s encrypted) = false
              /\ shown = placeholder encrypted))
       items (analyses d')
  /\ toasts d' = toasts d
  /\ loading d' = false.
Proof.
  intros Hun. unfold loadHistory. rewrite Hun. cbn [negb analyses toasts loading].
  split; [ | split; [ | split; reflexivity ] ].
  - rewrite map_map. apply map_ext. apply decryptOrPlaceholder_meta.
  - induction items as [ | e rest IH ]; cbn [map]; constructor.
    + unfold decryptOrPlaceholder.
      destruct (decryptData s e); [ left | right; split ]; reflexivity.
    + exact IH.
Qed.

End RecordFacts.

Section RecordFactsWithLaws.
Context {P : Platform} {L : PlatformLaws P}.
Import Session Records.

(** X13. With a key in memory, a record with its required fields that
    [encryptData] encrypted is returned by [decryptData] with the same
    [mlResult] and metadata, and with [userEmail] and [inputContent] as
    [TextEncoder] and [TextDecoder] hand them back (the same texts
    unless they begin with U+FEFF or hold a lone surrogate); its
    [analysisContext] comes back as it was when it was an object and as
    [null] when it was absent or [null]. *)
Theorem decryptData_encryptData s key data email content ml g :
  encryptionKey s = Some key ->
  userEmail data = Some email -> Js.truthy email = true ->
  inputContent data = Some content -> Js.truthy content = true ->
  mlResult data = Some ml -> Json.is_truthy number_truthy ml = true ->
  let fields :=
    {| Crypto.userEmail := email; Crypto.inputContent := content;
       Crypto.analysisContext := analysisContext data;
       Crypto.mlResult := ml |} in
  Crypto.wellFormed fields = true ->
  exists encrypted,
    fst (encryptData s data g) = Ok encrypted
    /\ decryptData s encrypted
       = Ok {| analysisMeta := meta data;
               analysisFields :=
                 {| Crypto.userEmail := Crypto.decodedText email;
                    Crypto.inputContent := Crypto.decodedText content;
                    Crypto.analysisContext :=
                      Crypto.returnedContext (analysisContext data);
                    Crypto.mlResult := ml |} |}.
Proof.
  intros Hkey Hemail Htemail Hcontent Htcontent Hml Html fields Hwf.
  unfold encryptData. rewrite Hkey, Hemail, Hcontent, Hml.
  rewrite Htemail, Htcontent, Html. cbn [negb orb].
  pose proof (decryptAnalysisData_encryptAnalysisData fields key g Hwf)
    as Hround.
  fold fields.
  destruct (Crypto.encryptAnalysisData fields key g) as [e g'].
  cbn [fst] in *. eexists. split; [ reflexivity | ].
  unfold decryptData. rewrite Hkey. cbn [encryptedFields encryptedMeta].
  rewrite Hround. reflexivity.
Qed.

(** X14. An unlocked session shows the records it encrypted: when every
    fetched record holds what [encryptAnalysisData] produced under the
    key in memory from a well-formed record, [loadHistory] shows each of
    them decrypted, none as a placeholder; [userEmail] and
    [inputContent] appear as [TextEncoder] and [TextDecoder] hand them
    back, that is, unchanged unless they begin with U+FEFF or hold a
    lone surrogate. *)
Theorem history_shows_own_records s key
    (sources : list (Metadata * Crypto.AnalysisData * Rng)) d :
  encryptionKey s = Some key ->
  isUnlocked s = true ->
  Forall (fun source => Crypto.wellFormed (snd (fst source)) = true) sources ->
  analyses
    (loadHistory s
       (Ok (map (fun source =>
                   {| encryptedMeta := fst (fst source);
                      encryptedFields :=
                        fst (Crypto.encryptAnalysisData (snd (fst source))
                               key (snd source)) |}) sources)) d)
  = map (fun source =>
           {| analysisMeta := fst (fst source);
              analysisFields :=
                {| Crypto.userEmail :=
                     Crypto.decodedText
                       (Crypto.userEmail (snd (fst source)));
                   Crypto.inputContent :=
                     Crypto.decodedText
                       (Crypto.inputContent (snd (fst source)));
                   Crypto.analysisContext :=
                     Crypto.returnedContext
                       (Crypto.analysisContext (snd (fst source)));
                   Crypto.mlResult := Crypto.mlResult (snd (fst source)) |} |})
      sources.
Proof.
  intros Hkey Hun Hall. unfold loadHistory. rewrite Hun.
  cbn [negb analyses]. rewrite map_map.
  induction Hall as [ | source rest Hwf _ IH ]; [ reflexivity | ].
  cbn [map]. rewrite IH. f_equal.
  unfold decryptOrPlaceholder, decryptData. rewrite Hkey.
  cbn [encryptedFields encryptedMeta].
  rewrite (decryptAnalysisData_encryptAnalysisData _ key _ Hwf).
  reflexivity.
Qed.

End RecordFactsWithLaws.

(** ** More on the Lockout Tracker *)

Section MoreLockoutFacts.
Import RateLimit.

Lemma ceilSeconds_pos_iff x : (0 <? ceilSeconds x) = (0 <? x).
Proof.
  unfold ceilSeconds.
  destruct (Z.ltb_spec 0 x) as [Hx | Hx].
  - apply Z.ltb_lt.
    assert ((- x) / 1000 < 0) by (apply Z.div_lt_upper_bound; lia). lia.
  - apply Z.ltb_ge.
    assert (0 <= (- x) / 1000) by (apply Z.div_pos; lia). lia.
Qed.

Lemma statusOfCache_coherent r t :
  isLocked (statusOfCache r t) = (0 <? remainingSeconds (statusOfCache r t)).
Proof.
  unfold statusOfCache. cbn [isLocked remainingSeconds].
  symmetry. apply ceilSeconds_pos_iff.
Qed.

(** What [checkBackend] leaves of the hook it is given. *)
Lemma checkBackend_frame user i h :
  lastCheckTime (checkBackend user i h) = lastCheckTime h
  /\ (forall k, k <> lockoutKey user ->
        localStorage (checkBackend user i h) !! k = localStorage h !! k).
Proof.
  unfold checkBackend.
  destruct (response i) as [m | | data]; cbn; try (split; reflexivity).
  match goal with |- context [if ?c then _ else _] => destruct c end; cbn.
  - split; [ reflexivity | ]. intros k Hk. apply lookup_insert_ne. congruence.
  - split; [ reflexivity | ]. intros k Hk. apply lookup_delete_ne. congruence.
Qed.

Lemma checkStatus_lastCheckTime user i h :
  Js.truthy user = true ->
  MIN_CHECK_INTERVAL <= now i - lastCheckTime h ->
  lastCheckTime (checkStatus (Some user) true i h) = now i.
Proof.
  intros Huser Hdue. rewrite checkStatus_not_throttled by assumption.
  cbv zeta. cbn [localStorage setLastCheckTime].
  destruct (localStorage h !! lockoutKey user) as [ [ | | r] | ].
  - rewrite (proj1 (checkBackend_frame _ _ _)). reflexivity.
  - rewrite (proj1 (checkBackend_frame _ _ _)). reflexivity.
  - reflexivity.
  - rewrite (proj1 (checkBackend_frame _ _ _)). reflexivity.
Qed.

(** X15. A call of [checkStatus] that comes less than a second (by the
    clock of the calls) after one that was not skipped changes nothing:
    status, cache and events stay as the first call left them, and the
    backend is not asked. *)
Theorem second_check_within_a_second_is_skipped user i1 i2 h :
  Js.truthy user = true ->
  MIN_CHECK_INTERVAL <= now i1 - lastCheckTime h ->
  now i2 - now i1 < MIN_CHECK_INTERVAL ->
  checkStatus (Some user) true i2 (checkStatus (Some user) true i1 h)
  = checkStatus (Some user) true i1 h.
Proof.
  intros Huser Hdue Hsoon.
  pose proof (checkStatus_lastCheckTime user i1 h Huser Hdue) as Hlast.
  remember (checkStatus (Some user) true i1 h) as h1.
  unfold checkStatus. rewrite Huser. cbn [negb orb]. rewrite Hlast.
  destruct (Z.ltb_spec (now i2 - now i1) MIN_CHECK_INTERVAL);
    [ reflexivity | lia ].
Qed.

(** X16. When no lockout record is cached and the backend answers with
    an error status or cannot be reached, a call that is not skipped
    shows the default status (not locked, no attempts) whatever was
    shown before, and dispatches no event. *)
Theorem failed_check_shows_default_status user i h :
  Js.truthy user = true ->
  MIN_CHECK_INTERVAL <= now i - lastCheckTime h ->
  (forall r, localStorage h !! lockoutKey user <> Some (Entry r)) ->
  (response i = NotOk \/ exists m, response i = Failed m) ->
  let h' := checkStatus (Some user) true i h in
  status h' = defaultStatus
  /\ dispatched h' = dispatched h
  /\ forall r, localStorage h' !! lockoutKey user <> Some (Entry r).
Proof.
  intros Huser Hdue Hcache Hresp.
  rewrite checkStatus_not_throttled by assumption.
  cbv zeta. cbn [localStorage setLastCheckTime].
  assert (Hback : forall h0,
            status (checkBackend user i h0) = defaultStatus
            /\ dispatched (checkBackend user i h0) = dispatched h0
            /\ localStorage (checkBackend user i h0) = localStorage h0).
  { intros h0. unfold checkBackend.
    destruct Hresp as [-> | [m ->] ]; repeat split; reflexivity. }
  destruct (localStorage h !! lockoutKey user) as [ [ | | r] | ] eqn:Hlook.
  - destruct (Hback (setLastCheckTime (now i) h)) as (-> & -> & ->).
    cbn. rewrite Hlook. repeat split; [ ]. intros r. discriminate.
  - destruct (Hback (removeItem (lockoutKey user)
                       (setLastCheckTime (now i) h))) as (-> & -> & ->).
    cbn. rewrite lookup_delete_eq. repeat split; [ ]. intros r. discriminate.
  - exfalso. exact (Hcache r eq_refl).
  - destruct (Hback (setLastCheckTime (now i) h)) as (-> & -> & ->).
    cbn. rewrite Hlook. repeat split; [ ]. intros r. discriminate.
Qed.

(** X17. [checkStatus] reads and writes one key of [localStorage], the
    key [lockout_<userSub>] of its user: every other key holds after the
    call what it held before. *)
Theorem checkStatus_touches_only_own_key userSub hasToken i h k :
  k <> lockoutKey (default "" userSub) ->
  localStorage (checkStatus userSub hasToken i h) !! k = localStorage h !! k.
Proof.
  intros Hk. unfold checkStatus.
  destruct userSub as [user | ]; [ | reflexivity ].
  cbn [default from_option id] in Hk.
  destruct (negb (Js.truthy user) || negb hasToken); [ reflexivity | ].
  destruct (now i - lastCheckTime h <? MIN_CHECK_INTERVAL); [ reflexivity | ].
  cbv zeta. cbn [localStorage setLastCheckTime].
  destruct (localStorage h !! lockoutKey user) as [ [ | | r] | ].
  - rewrite (proj2 (checkBackend_frame _ _ _) k Hk). reflexivity.
  - rewrite (proj2 (checkBackend_frame _ _ _) k Hk). cbn.
    apply lookup_delete_ne. congruence.
  - reflexivity.
  - rewrite (proj2 (checkBackend_frame _ _ _) k Hk). reflexivity.
Qed.

Lemma checkBackend_event user i h :
  (dispatched (checkBackend user i h) = (dispatched h ++ [user])%list
   /\ exists data,
        response i = Body data
        /\ localStorage (checkBackend user i h) !! lockoutKey user
           = Some (Entry {| cachedLockedUntil := reportedLockedUntil data;
                            cachedAttempts := reportedAttempts data;
                            timestamp := nowAfterFetch i |}))
  \/ (dispatched (checkBackend user i h) = dispatched h
      /\ (localStorage (checkBackend user i h) !! lockoutKey user
          = localStorage h !! lockoutKey user
          \/ localStorage (checkBackend user i h) !! lockoutKey user = None)).
Proof.
  unfold checkBackend.
  destruct (response i) as [m | | data]; cbn;
    try (right; split; [ reflexivity | left; reflexivity ]).
  match goal with |- context [if ?c then _ else _] => destruct c end; cbn.
  - left. split; [ reflexivity | ]. exists data. split; [ reflexivity | ].
    apply lookup_insert_eq.
  - right. split; [ reflexivity | ]. right. apply lookup_delete_eq.
Qed.

(** X18. A call of [checkStatus] dispatches at most one
    ['rateLimitUpdate'] event, and it dispatches one exactly when it
    writes the answer of the backend to the cache; otherwise the cached
    value is left as it was or removed. *)
Theorem event_dispatched_with_cache_write user hasToken i h :
  let h' := checkStatus (Some user) hasToken i h in
  (dispatched h' = (dispatched h ++ [user])%list
   /\ exists data,
        response i = Body data
        /\ localStorage h' !! lockoutKey user
           = Some (Entry {| cachedLockedUntil := reportedLockedUntil data;
                            cachedAttempts := reportedAttempts data;
                            timestamp := nowAfterFetch i |}))
  \/ (dispatched h' = dispatched h
      /\ (localStorage h' !! lockoutKey user
          = localStorage h !! lockoutKey user
          \/ localStorage h' !! lockoutKey user = None)).
Proof.
  cbv zeta. unfold checkStatus.
  destruct (negb (Js.truthy user) || negb hasToken);
    [ right; split; [ reflexivity | left; reflexivity ] | ].
  destruct (now i - lastCheckTime h <? MIN_CHECK_INTERVAL);
    [ right; split; [ reflexivity | left; reflexivity ] | ].
  cbv zeta. cbn [localStorage setLastCheckTime].
  destruct (localStorage h !! lockoutKey user) as [ [ | | r] | ] eqn:Hlook.
  - destruct (checkBackend_event user i (setLastCheckTime (now i) h))
      as [H | (Hd & Hs)]; [ left; exact H | right ].
    cbn in Hd, Hs. rewrite Hlook in Hs. split; assumption.
  - destruct (checkBackend_event user i
                (removeItem (lockoutKey user) (setLastCheckTime (now i) h)))
      as [H | (Hd & Hs)]; [ left; exact H | right ].
    cbn in Hd, Hs. rewrite lookup_delete_eq in Hs.
    split; [ exact Hd | right; destruct Hs; assumption ].
  - right. cbn. rewrite Hlook. split; [ reflexivity | left; reflexivity ].
  - destruct (checkBackend_event user i (setLastCheckTime (now i) h))
      as [H | (Hd & Hs)]; [ left; exact H | right ].
    cbn in Hd, Hs. rewrite Hlook in Hs. split; assumption.
Qed.

(** X19. A status computed from a cached lockout record is coherent,
    at whatever instant it is computed: [isLocked] holds exactly when
    [remainingSeconds] is positive, and [remainingSeconds] is never
    negative. It is the status that a call of [checkStatus] shows when
    it is not skipped and finds such a record. *)
Theorem locked_iff_seconds_remain user i h r t :
  (isLocked (statusOfCache r t) = (0 <? remainingSeconds (statusOfCache r t))
   /\ 0 <= remainingSeconds (statusOfCache r t))
  /\ (Js.truthy user = true ->
      MIN_CHECK_INTERVAL <= now i - lastCheckTime h ->
      localStorage h !! lockoutKey user = Some (Entry r) ->
      status (checkStatus (Some user) true i h) = statusOfCache r (now i)).
Proof.
  split.
  - split; [ apply statusOfCache_coherent
           | apply statusOfCache_remaining_nonneg ].
  - intros Huser Hint Hlook. unfold checkStatus. rewrite Huser.
    cbn [negb orb].
    destruct (now i - lastCheckTime h <? MIN_CHECK_INTERVAL) eqn:Hskip;
      [ apply Z.ltb_lt in Hskip; lia | ].
    cbv zeta. cbn [localStorage setLastCheckTime]. rewrite Hlook.
    reflexivity.
Qed.

(** X20. Once a lockout record is cached, [checkStatus] neither
    refreshes nor removes it: whatever the backend would answer, the
    call leaves [localStorage] and the events as they were and computes
    the status from the cached record alone. *)
Theorem cached_record_is_never_refreshed user hasToken i i' h r :
  localStorage h !! lockoutKey user = Some (Entry r) ->
  now i' = now i ->
  let h' := checkStatus (Some user) hasToken i h in
  localStorage h' = localStorage h
  /\ dispatched h' = dispatched h
  /\ (status h' = status h \/ status h' = statusOfCache r (now i))
  /\ checkStatus (Some user) hasToken i' h = h'.
Proof.
  intros Hlook Hnow. cbv zeta. unfold checkStatus. rewrite Hnow.
  destruct (negb (Js.truthy user) || negb hasToken);
    [ repeat split; left; reflexivity | ].
  destruct (now i - lastCheckTime h <? MIN_CHECK_INTERVAL);
    [ repeat split; left; reflexivity | ].
  cbv zeta. cbn [localStorage setLastCheckTime]. rewrite Hlook.
  repeat split. right. reflexivity.
Qed.

Lemma prefix_refl s : String.prefix s s = true.
Proof.
  induction s as [ | a s IH ]; [ reflexivity | ].
  cbn. destruct (Ascii.ascii_dec a a); [ exact IH | contradiction ].
Qed.

Lemma includes_unfold needle hay :
  Js.includes needle hay
  = String.prefix needle hay
    || match hay with
       | EmptyString => false
       | String _ rest => Js.includes needle rest
       end.
Proof. destruct hay; reflexivity. Qed.

Lemma includes_append needle before :
  Js.includes needle (String.append before needle) = true.
Proof.
  induction before as [ | a before IH ].
  - change (String.append "" needle) with needle.
    rewrite includes_unfold, prefix_refl. reflexivity.
  - change (String.append (String a before) needle)
      with (String a (String.append before needle)).
    rewrite includes_unfold, IH. apply orb_true_r.
Qed.

(** X21. A ['storage'] event for the lockout key of the hook's user
    makes the hook run [checkStatus]; an event without a key, or for a
    key that does not start with [lockout_], is ignored, and so is every
    event while the hook has no user. *)
Theorem storage_event_for_own_key user hasToken i h :
  RateLimitEvents.handleStorageChange (Some (lockoutKey user)) (Some user)
    hasToken i h
  = checkStatus (Some user) hasToken i h
  /\ RateLimitEvents.handleStorageChange None (Some user) hasToken i h = h
  /\ (forall k, String.prefix "lockout_" k = false ->
        RateLimitEvents.handleStorageChange (Some k) (Some user) hasToken i h
        = h)
  /\ (forall key,
        RateLimitEvents.handleStorageChange key None hasToken i h = h).
Proof.
  unfold RateLimitEvents.handleStorageChange.
  split; [ | split; [ reflexivity | split ] ].
  - cbn [default from_option id]. unfold lockoutKey.
    rewrite includes_append.
    change (String.prefix "lockout_" (String.append "lockout_" user))
      with (String.prefix "" user).
    destruct user; reflexivity.
  - intros k ->. reflexivity.
  - intros [k | ]; [ | reflexivity ].
    destruct (String.prefix "lockout_" k && Js.includes (default "" None) k);
      reflexivity.
Qed.

End MoreLockoutFacts.

Section MoreLockoutWitnesses.
Import RateLimit LockoutScenario.

Lemma second_check_within_a_second_is_skipped_witness :
  checkStatus (Some lockedUser) true
    {| now := 1700000000500; nowAfterFetch := 1700000000600;
       response := NotOk |}
    (checkStatus (Some lockedUser) true firstCall (initialHook ∅))
  = checkStatus (Some lockedUser) true firstCall (initialHook ∅).
Proof.
  apply (second_check_within_a_second_is_skipped lockedUser firstCall
           {| now := 1700000000500; nowAfterFetch := 1700000000600;
              response := NotOk |} (initialHook ∅)).
  - reflexivity.
  - vm_compute. discriminate.
  - vm_compute. reflexivity.
Defined.

Lemma failed_check_shows_default_status_witness :
  status (checkStatus (Some lockedUser) true
            {| now := 1700000000500; nowAfterFetch := 1700000000600;
               response := NotOk |} (initialHook ∅))
  = defaultStatus.
Proof.
  refine (proj1 (failed_check_shows_default_status lockedUser
                   {| now := 1700000000500; nowAfterFetch := 1700000000600;
                      response := NotOk |} (initialHook ∅) _ _ _ _)).
  - reflexivity.
  - vm_compute. discriminate.
  - intros r. vm_compute. discriminate.
  - left. reflexivity.
Defined.

Lemma checkStatus_touches_only_own_key_witness :
  localStorage (checkStatus (Some lockedUser) true firstCall
                  (initialHook {[ "theme" := Blank ]})) !! "theme"
  = Some Blank.
Proof.
  rewrite (checkStatus_touches_only_own_key (Some lockedUser) true firstCall
             (initialHook {[ "theme" := Blank ]}) "theme").
  - reflexivity.
  - vm_compute. discriminate.
Defined.

Lemma locked_iff_seconds_remain_witness :
  let h := checkStatus (Some lockedUser) true firstCall (initialHook ∅) in
  status (checkStatus (Some lockedUser) true refreshCall h)
  = statusOfCache {| cachedLockedUntil := Some lockedUntilT;
                     cachedAttempts := Some 5;
                     timestamp := 1700000000200 |} (now refreshCall).
Proof.
  cbv zeta.
  apply (proj2 (locked_iff_seconds_remain lockedUser refreshCall
                  (checkStatus (Some lockedUser) true firstCall
                     (initialHook ∅))
                  {| cachedLockedUntil := Some lockedUntilT;
                     cachedAttempts := Some 5;
                     timestamp := 1700000000200 |} 0)).
  - reflexivity.
  - vm_compute. discriminate.
  - vm_compute. reflexivity.
Defined.

Lemma cached_record_is_never_refreshed_witness :
  let h := checkStatus (Some lockedUser) true firstCall (initialHook ∅) in
  localStorage (checkStatus (Some lockedUser) true refreshCall h)
  = localStorage h.
Proof.
  cbv zeta.
  refine (proj1 (cached_record_is_never_refreshed lockedUser true refreshCall
                   refreshCall
                   (checkStatus (Some lockedUser) true firstCall
                      (initialHook ∅))
                   {| cachedLockedUntil := Some lockedUntilT;
                      cachedAttempts := Some 5;
                      timestamp := 1700000000200 |} _ _)).
  - vm_compute. reflexivity.
  - reflexivity.
Defined.

End MoreLockoutWitnesses.

(** ** More on the Encryption Session Manager *)

Section MoreSessionFacts.
Context {P : Platform}.
Import Session.

Lemma saveSalt_flags a saltText net w s r w1 s1 :
  saveSalt a saltText net w s = (r, w1, s1) ->
  isSetup s1 = isSetup s /\ hasCheckedSetup s1 = hasCheckedSetup s
  /\ idb w1 = idb w.
Proof.
  unfold saveSalt. intros Heq.
  repeat case_match; simplify_eq; repeat split; reflexivity.
Qed.

(** What a setup check that resumes can do to the session, whatever
    render it was started in. *)
Lemma checkSetupResumed_effect closure a hasLocalKey net w s :
  (encryptionKey (snd (checkSetupResumed closure a hasLocalKey net w s))
   = encryptionKey s
   \/ encryptionKey (snd (checkSetupResumed closure a hasLocalKey net w s))
      = None)
  /\ (isUnlocked (snd (checkSetupResumed closure a hasLocalKey net w s))
      = true ->
      isUnlocked s = true
      /\ encryptionKey
           (snd (checkSetupResumed closure a hasLocalKey net w s))
         = encryptionKey s)
  /\ idb (fst (checkSetupResumed closure a hasLocalKey net w s)) = idb w
  /\ rng (fst (checkSetupResumed closure a hasLocalKey net w s)) = rng w.
Proof.
  unfold checkSetupResumed.
  destruct hasLocalKey as [ [ | ] | m ].
  - destruct (hasKey closure); cbn.
    + repeat split; auto.
    + split; [ right; reflexivity | ].
      split; [ discriminate | split; reflexivity ].
  - destruct (getEncryptionStatus a net w s) as [ [status w1] s1 ] eqn:E.
    destruct (getEncryptionStatus_frame _ _ _ _ _ _ _ E)
      as (Hk & Hu & _ & _ & Hidb & Hrng).
    destruct (hasSalt status);
      [ destruct (Js.truthy_opt (salt status)), (hasKey closure)
      | destruct (hasAnalyses status) ];
      cbn; rewrite ?Hk, ?Hu;
      (split; [ left; reflexivity | ]);
      (split; [ first [ discriminate
                      | intros Hun; split; [ exact Hun | reflexivity ] ]
              | split; assumption ]).
  - destruct (isUnlocked closure); cbn;
      (split; [ left; reflexivity | ]);
      (split; [ intros Hun; split; [ exact Hun | reflexivity ]
              | split; reflexivity ]).
Qed.

(** The same for the check run without interruption. *)
Lemma checkSetup_effect a net w s :
  (encryptionKey (snd (checkSetup a net w s)) = encryptionKey s
   \/ encryptionKey (snd (checkSetup a net w s)) = None)
  /\ (isUnlocked (snd (checkSetup a net w s)) = true ->
      isUnlocked s = true
      /\ encryptionKey (snd (checkSetup a net w s)) = encryptionKey s)
  /\ idb (fst (checkSetup a net w s)) = idb w
  /\ rng (fst (checkSetup a net w s)) = rng w.
Proof.
  rewrite checkSetup_staged. unfold checkSetupStart.
  destruct (negb (isAuthenticated a) || negb (Js.truthy_opt (userSub a))).
  { cbn. split; [ left; reflexivity | ].
    split; [ discriminate | split; reflexivity ]. }
  destruct (isUnlocked s && hasKey s).
  { cbn. split; [ left; reflexivity | ].
    split; [ intros Hun; split; [ exact Hun | reflexivity ]
           | split; reflexivity ]. }
  destruct (hasCheckedSetup s && isSetup s).
  { cbn. split; [ left; reflexivity | ].
    split; [ intros Hun; split; [ exact Hun | reflexivity ]
           | split; reflexivity ]. }
  apply checkSetupResumed_effect.
Qed.

(** X23. The setup check never unlocks a session and never puts a key
    in memory, also when it resumes after other operations with the
    values of the render that started it: afterwards the key in memory
    is the one before or none, a session that is unlocked was unlocked
    before and holds the same key, and the local store and the random
    generator are as they were. *)
Theorem setup_check_never_unlocks closure a hasLocalKey net w s :
  ((encryptionKey (snd (checkSetupResumed closure a hasLocalKey net w s))
    = encryptionKey s
    \/ encryptionKey (snd (checkSetupResumed closure a hasLocalKey net w s))
       = None)
   /\ (isUnlocked (snd (checkSetupResumed closure a hasLocalKey net w s))
       = true ->
       isUnlocked s = true
       /\ encryptionKey
            (snd (checkSetupResumed closure a hasLocalKey net w s))
          = encryptionKey s)
   /\ idb (fst (checkSetupResumed closure a hasLocalKey net w s)) = idb w
   /\ rng (fst (checkSetupResumed closure a hasLocalKey net w s)) = rng w)
  /\ ((encryptionKey (snd (checkSetup a net w s)) = encryptionKey s
       \/ encryptionKey (snd (checkSetup a net w s)) = None)
      /\ (isUnlocked (snd (checkSetup a net w s)) = true ->
          isUnlocked s = true
          /\ encryptionKey (snd (checkSetup a net w s)) = encryptionKey s)
      /\ idb (fst (checkSetup a net w s)) = idb w
      /\ rng (fst (checkSetup a net w s)) = rng w).
Proof.
  split; [ apply checkSetupResumed_effect | apply checkSetup_effect ].
Qed.

(** X10. Every operation of the provider, a setup check that resumes
    with the values of an earlier render among them, keeps this: a
    session that is unlocked holds a key. After any of them an unlocked
    session never fails [encryptData] with ['Encryption not
    unlocked']. *)
Theorem unlocked_session_keeps_key st st' data g :
  step st st' ->
  (isUnlocked (session st) = true ->
   is_Some (encryptionKey (session st))) ->
  isUnlocked (session st') = true ->
  is_Some (encryptionKey (session st'))
  /\ fst (Records.encryptData (session st') data g)
     <> Throw Records.NotUnlocked.
Proof.
  intros Hstep Hinv Hun.
  assert (Hkey : is_Some (encryptionKey (session st'))).
  { destruct Hstep as [ st a' net | st net | st closure a hasLocalKey net
                      | st passphrase net | st passphrase net | st ].
    - unfold authChange, runEffects in *.
      pose proof (checkSetup_effect a' net (world st) (session st))
        as (_ & Hc & _).
      destruct (checkSetup a' net (world st) (session st)) as [w1 s1].
      cbn [snd session] in *.
      destruct (negb (Bool.eqb _ _)).
      + unfold lockOnLogout in *. destruct (negb (isAuthenticated a')).
        * cbn in Hun. discriminate.
        * destruct (Hc Hun) as (Hbefore & ->). exact (Hinv Hbefore).
      + destruct (Hc Hun) as (Hbefore & ->). exact (Hinv Hbefore).
    - unfold recheck in *.
      pose proof (checkSetup_effect (auth st) net (world st) (session st))
        as (_ & Hc & _).
      destruct (checkSetup (auth st) net (world st) (session st))
        as [w1 s1].
      cbn [snd session] in *.
      destruct (Hc Hun) as (Hbefore & ->). exact (Hinv Hbefore).
    - unfold resume in *.
      pose proof (checkSetupResumed_effect closure a hasLocalKey net
                    (world st) (session st)) as (_ & Hc & _).
      destruct (checkSetupResumed closure a hasLocalKey net (world st)
                  (session st)) as [w1 s1].
      cbn [snd session] in *.
      destruct (Hc Hun) as (Hbefore & ->). exact (Hinv Hbefore).
    - unfold setup in *.
      destruct (setupEncryption passphrase (auth st) net (world st)
                  (session st)) as [ [r w1] s1 ] eqn:Hrun.
      pose proof (setupEncryption_sound _ _ _ _ _ _ _ _ Hrun) as Hsound.
      cbn [snd session] in *. unfold outcome_sound in Hsound.
      destruct r as [ [] | m ].
      + exact (proj1 Hsound).
      + destruct Hsound as (-> & Hsame). rewrite Hsame in Hun.
        exact (Hinv Hun).
    - unfold unlock in *.
      destruct (unlockEncryption passphrase (auth st) net (world st)
                  (session st)) as [ [r w1] s1 ] eqn:Hrun.
      pose proof (unlockEncryption_sound _ _ _ _ _ _ _ _ Hrun) as Hsound.
      cbn [snd session] in *. unfold outcome_sound in Hsound.
      destruct r as [ [] | m ].
      + exact (proj1 Hsound).
      + destruct Hsound as (-> & Hsame). rewrite Hsame in Hun.
        exact (Hinv Hun).
    - cbn in Hun. discriminate. }
  split; [ exact Hkey | ].
  destruct Hkey as [key Hkey]. unfold Records.encryptData. rewrite Hkey.
  destruct (Records.userEmail data), (Records.inputContent data),
    (Records.mlResult data); try (cbn; discriminate).
  destruct (negb (Js.truthy s) || negb (Js.truthy s0)
            || negb (Json.is_truthy number_truthy j));
    [ cbn; discriminate | ].
  destruct (Crypto.encryptAnalysisData _ key g). cbn. discriminate.
Qed.

(** What a write of the verification record leaves of the store. *)
Lemma storeVerification_frame user key net w r w1 other :
  storeVerification user key net w = (r, w1) ->
  other <> user ->
  IndexedDB.opens (idb w1) = IndexedDB.opens (idb w)
  /\ IndexedDB.encryptionKeys (idb w1) !! other
     = IndexedDB.encryptionKeys (idb w) !! other.
Proof.
  unfold storeVerification, IndexedDB.storeEncryptedKey, IndexedDB.initDB.
  intros Heq Hne.
  destruct (Crypto.encryptKeyMaterial _ key (rng w)) as [encrypted g].
  destruct (storeFault net) as [ [ | ] | ],
           (IndexedDB.opens (idb w)) eqn:Hopen;
    cbn [bind] in Heq; simplify_eq; cbn;
    try (split; [ exact Hopen | reflexivity ]).
  split; [ exact Hopen | ]. apply lookup_insert_ne. congruence.
Qed.

Lemma verifyRemote_frame user key net w r w1 other :
  verifyRemote user key net w = (r, w1) ->
  other <> user ->
  IndexedDB.opens (idb w1) = IndexedDB.opens (idb w)
  /\ IndexedDB.encryptionKeys (idb w1) !! other
     = IndexedDB.encryptionKeys (idb w) !! other.
Proof.
  unfold verifyRemote. intros Heq Hne.
  repeat case_match; simplify_eq; try (split; reflexivity);
    match goal with
    | H : storeVerification _ _ _ _ = _ |- _ =>
        exact (storeVerification_frame _ _ _ _ _ _ _ H Hne)
    end.
Qed.

Lemma unlockAttempt_store passphrase user a net w s r w1 s1 other :
  unlockAttempt passphrase user a net w s = (r, w1, s1) ->
  other <> user ->
  IndexedDB.opens (idb w1) = IndexedDB.opens (idb w)
  /\ IndexedDB.encryptionKeys (idb w1) !! other
     = IndexedDB.encryptionKeys (idb w) !! other.
Proof.
  unfold unlockAttempt. intros Heq Hne.
  destruct (resolveSalt a net w s) as [ [saltOpt w0] s0 ] eqn:Hsalt.
  destruct (resolveSalt_frame _ _ _ _ _ _ _ Hsalt) as (_ & _ & Hidb & _).
  rewrite <- Hidb.
  repeat case_match; simplify_eq; try (split; reflexivity);
    match goal with
    | H : verifyRemote _ _ _ _ = _ |- _ =>
        exact (verifyRemote_frame _ _ _ _ _ _ _ H Hne)
    end.
Qed.

(** X24. The provider writes no record but the one of the signed-in
    user: whatever operation it performs, the record that the local
    store holds for any other user is the same afterwards, and so is the
    availability of the database. *)
Theorem provider_writes_only_own_record st st' other :
  step st st' ->
  userSub (auth st) <> Some other ->
  IndexedDB.opens (idb (world st')) = IndexedDB.opens (idb (world st))
  /\ IndexedDB.encryptionKeys (idb (world st')) !! other
     = IndexedDB.encryptionKeys (idb (world st)) !! other.
Proof.
  intros Hstep Hother.
  destruct Hstep as [ st a' net | st net | st closure a hasLocalKey net
                    | st passphrase net | st passphrase net | st ].
  - unfold authChange, runEffects.
    pose proof (checkSetup_idb a' net (world st) (session st)) as Hidb.
    destruct (checkSetup a' net (world st) (session st)) as [w1 s1].
    cbn [fst] in Hidb. cbn [world]. rewrite Hidb. split; reflexivity.
  - unfold recheck.
    pose proof (checkSetup_idb (auth st) net (world st) (session st)) as Hidb.
    destruct (checkSetup (auth st) net (world st) (session st)) as [w1 s1].
    cbn [fst] in Hidb. cbn [world]. rewrite Hidb. split; reflexivity.
  - unfold resume.
    pose proof (checkSetupResumed_effect closure a hasLocalKey net
                  (world st) (session st)) as (_ & _ & Hidb & _).
    destruct (checkSetupResumed closure a hasLocalKey net (world st)
                (session st)) as [w1 s1].
    cbn [fst] in Hidb. cbn [world]. rewrite Hidb. split; reflexivity.
  - unfold setup, setupEncryption.
    destruct (userSub (auth st)) as [ user | ]; [ | split; reflexivity ].
    assert (Hne : other <> user) by congruence.
    destruct (negb (Js.truthy user)); [ split; reflexivity | ].
    destruct (Crypto.generateSalt _) as [saltBytes g].
    destruct (storeVerification _ _ _ _) as [ [ [] | m ] w0 ] eqn:Hstore;
      pose proof (storeVerification_frame _ _ _ _ _ _ other Hstore Hne)
        as Hframe; cbn [idb with_rng] in Hframe; [ | exact Hframe ].
    destruct (saveSalt _ _ _ _ _) as [ [ [ [] | m ] w2 ] s2 ] eqn:Hsave;
      destruct (saveSalt_flags _ _ _ _ _ _ _ _ Hsave) as (_ & _ & Hidb);
      cbn [snd world idb console_error]; rewrite Hidb; exact Hframe.
  - unfold unlock, unlockEncryption.
    destruct (userSub (auth st)) as [ user | ]; [ | split; reflexivity ].
    assert (Hne : other <> user) by congruence.
    destruct (negb (Js.truthy user)); [ split; reflexivity | ].
    destruct (unlockAttempt _ _ _ _ _ _)
      as [ [ [ [key saltText] | m ] w0 ] s0 ] eqn:Hattempt;
      exact (unlockAttempt_store _ _ _ _ _ _ _ _ _ other Hattempt Hne).
  - split; reflexivity.
Qed.

(** X25. When the salt is in memory and the device holds key material,
    [unlockEncryption] does not use the network: its result, the state
    and the world it leaves are the same whatever the backend answers. *)
Theorem unlock_with_local_state_ignores_backend passphrase a net net' w s
    user material :
  userSub a = Some user ->
  Js.truthy_opt (userSalt s) = true ->
  IndexedDB.getEncryptedKey user (idb w) = Ok (Some material) ->
  Js.truthy material = true ->
  unlockEncryption passphrase a net w s
  = unlockEncryption passphrase a net' w s.
Proof.
  intros Hsub Hsalt Hget Hmat.
  unfold unlockEncryption, unlockAttempt, resolveSalt.
  rewrite Hsub, Hsalt.
  destruct (negb (Js.truthy user)); [ reflexivity | ].
  destruct (userSalt s) as [saltBase64 | ]; [ | reflexivity ].
  destruct (negb (Js.truthy saltBase64)); [ reflexivity | ].
  destruct (saltOfBase64 saltBase64) as [saltBytes | m]; [ | reflexivity ].
  rewrite Hget. cbn [Js.truthy_opt]. rewrite Hmat. reflexivity.
Qed.

(** X26. While neither the memory of the provider nor the backend has a
    salt, no passphrase unlocks: [unlockEncryption] throws ['Salt not
    found. Please set up encryption first.'] and leaves the key, the
    lock and the local store as they were, also when the device holds
    key material. *)
Theorem unlock_without_salt passphrase a net w s user :
  userSub a = Some user ->
  Js.truthy user = true ->
  Js.truthy_opt (userSalt s) = false ->
  (forall data, statusResponse net = Body data ->
                Js.truthy_opt (salt data) = false) ->
  let '(r, w1, s1) := unlockEncryption passphrase a net w s in
  r = Throw "Salt not found. Please set up encryption first."
  /\ encryptionKey s1 = encryptionKey s
  /\ isUnlocked s1 = isUnlocked s
  /\ idb w1 = idb w.
Proof.
  intros Hsub Huser Hsalt Hstatus.
  unfold unlockEncryption, unlockAttempt, resolveSalt, getSalt,
    getEncryptionStatus.
  rewrite Hsub, Huser, Hsalt. cbn [negb Js.truthy_opt]. rewrite Huser.
  cbn [negb].
  destruct (statusResponse net) as [m | | data] eqn:Hresp.
  - cbn. repeat split; reflexivity.
  - cbn. repeat split; reflexivity.
  - rewrite (Hstatus data eq_refl). unfold Js.or_null.
    rewrite (Hstatus data eq_refl). cbn. repeat split; reflexivity.
Qed.

(** X27. When the backend does not accept the salt, [setupEncryption]
    throws and leaves the session locked as it was. When the write of
    the key material went through before, that material stays in the
    local store, without a salt, and a provider mounted on that store
    afterwards reports encryption as set up. *)
Theorem setup_without_saved_salt passphrase a net w s user :
  userSub a = Some user ->
  Js.truthy user = true ->
  isAuthenticated a = true ->
  IndexedDB.opens (idb w) = true ->
  (forall u, saltResponse net <> Body u) ->
  let '(r, w1, s1) := setupEncryption passphrase a net w s in
  is_ok r = false
  /\ encryptionKey s1 = encryptionKey s
  /\ isUnlocked s1 = isUnlocked s
  /\ userSalt s1 = userSalt s
  /\ (storeFault net = None ->
      IndexedDB.hasEncryptedKey user (idb w1) = Ok true
      /\ IndexedDB.getSalt user (idb w1) = Ok None
      /\ forall net',
           isSetup (session (mount a net' w1)) = true
           /\ isUnlocked (session (mount a net' w1)) = false).
Proof.
  intros Hsub Huser Hauth Hopen Hsave.
  unfold setupEncryption. rewrite Hsub, Huser. cbn [negb].
  destruct (Crypto.generateSalt (rng w)) as [saltBytes g].
  unfold storeVerification. cbn [rng idb with_rng].
  destruct (Crypto.encryptKeyMaterial _ _ g) as [encrypted g'].
  unfold IndexedDB.storeEncryptedKey, IndexedDB.initDB.
  rewrite Hopen.
  destruct (storeFault net) as [ [ | ] | ] eqn:Hfault; cbn [bind].
  { cbn. repeat split; try reflexivity; discriminate. }
  { cbn. repeat split; try reflexivity; discriminate. }
  unfold saveSalt. rewrite Hsub. cbn [Js.truthy_opt]. rewrite Huser.
  cbn [negb].
  set (stored := IndexedDB.put _ (idb w)).
  assert (Hhas : IndexedDB.hasEncryptedKey user stored = Ok true).
  { unfold IndexedDB.hasEncryptedKey, IndexedDB.getEncryptedKey,
      IndexedDB.initDB. subst stored. unfold IndexedDB.put.
    cbn [IndexedDB.opens].
    rewrite Hopen. cbn [bind IndexedDB.encryptionKeys IndexedDB.userSub].
    rewrite lookup_insert_eq. reflexivity. }
  assert (Hnosalt : IndexedDB.getSalt user stored = Ok None).
  { unfold IndexedDB.getSalt, IndexedDB.initDB. subst stored.
    unfold IndexedDB.put. cbn [IndexedDB.opens].
    rewrite Hopen. cbn [bind IndexedDB.encryptionKeys IndexedDB.userSub].
    rewrite lookup_insert_eq. reflexivity. }
  assert (Hmount : forall net' w1,
            idb w1 = stored ->
            isSetup (session (mount a net' w1)) = true
            /\ isUnlocked (session (mount a net' w1)) = false).
  { intros net' w1 Hidb. unfold mount, runEffects, checkSetup.
    rewrite Hauth, Hsub. cbn [Js.truthy_opt]. rewrite Huser.
    cbn [negb orb initialState isUnlocked hasCheckedSetup andb
         default from_option id].
    rewrite Hidb, Hhas. cbn. unfold lockOnLogout. rewrite Hauth.
    cbn. split; reflexivity. }
  destruct (saltResponse net) as [m | | u] eqn:Hresp.
  - cbn. repeat split; try assumption; try reflexivity;
      apply Hmount; reflexivity.
  - cbn. repeat split; try assumption; try reflexivity;
      apply Hmount; reflexivity.
  - exfalso. exact (Hsave u eq_refl).
Qed.

End MoreSessionFacts.

Section MoreSessionFactsWithLaws.
Context {P : Platform} {L : PlatformLaws P}.
Import Session.

Lemma string_of_bytes_nonempty (bytes : list byte) :
  bytes <> [] -> string_of_list_byte bytes <> "".
Proof. destruct bytes; [ contradiction | discriminate ]. Qed.

Lemma generateSalt_nonempty g :
  Js.truthy (btoa (string_of_list_byte (fst (Crypto.generateSalt g)))) = true.
Proof.
  unfold Crypto.generateSalt.
  pose proof (random_length 16 g) as Hlen.
  destruct (getRandomValues 16 g) as [saltBytes g']. cbn [fst] in *.
  unfold Js.truthy. apply negb_true_iff, String.eqb_neq, base64_nonempty.
  apply string_of_bytes_nonempty. intros ->. discriminate Hlen.
Qed.

Lemma saltOfBase64_btoa bytes :
  saltOfBase64 (btoa (string_of_list_byte bytes)) = Ok bytes.
Proof.
  unfold saltOfBase64.
  rewrite base64_roundtrip, list_byte_of_string_of_list_byte. reflexivity.
Qed.

(** X28. A session that [setupEncryption] set up can be locked and
    unlocked again with the same passphrase, whatever the backend
    answers then: [unlockEncryption] succeeds, installs the key that
    setup derived, and leaves the local store as it was. *)
Theorem unlock_after_setup_and_lock passphrase net net' st st1 :
  setup passphrase net st = (Ok tt, st1) ->
  exists key,
    encryptionKey (session st1) = Some key
    /\ fst (unlock passphrase net' (lock st1)) = Ok tt
    /\ encryptionKey (session (snd (unlock passphrase net' (lock st1))))
       = Some key
    /\ isUnlocked (session (snd (unlock passphrase net' (lock st1)))) = true
    /\ world (snd (unlock passphrase net' (lock st1))) = world st1.
Proof.
  unfold setup, setupEncryption. intros Hsetup.
  destruct (userSub (auth st)) as [ user | ] eqn:Hsub; [ | discriminate ].
  destruct (Js.truthy user) eqn:Huser; cbn [negb] in Hsetup;
    [ | discriminate ].
  pose proof (generateSalt_nonempty (rng (world st))) as Hsalt.
  destruct (Crypto.generateSalt (rng (world st))) as [saltBytes g].
  cbn [fst] in Hsalt.
  set (key := Crypto.deriveKey passphrase saltBytes Crypto.PBKDF2_ITERATIONS)
    in *.
  set (saltText := btoa (string_of_list_byte saltBytes)) in *.
  destruct (storeVerification user key net (with_rng g (world st)))
    as [ [ [] | m ] w1 ] eqn:Hstore; [ | discriminate ].
  unfold saveSalt in Hsetup. rewrite Hsub in Hsetup.
  cbn [Js.truthy_opt] in Hsetup. rewrite Huser in Hsetup.
  cbn [negb] in Hsetup.
  destruct (saltResponse net) as [m | | u]; try discriminate.
  injection Hsetup as <-.
  assert (Hget : IndexedDB.getEncryptedKey user (idb w1)
                 = Ok (Some (freshMaterial user key net
                               (with_rng g (world st))))).
  { unfold storeVerification in Hstore. unfold freshMaterial.
    cbn [rng idb with_rng] in Hstore |- *.
    destruct (Crypto.encryptKeyMaterial _ key g) as [encrypted g'].
    unfold IndexedDB.storeEncryptedKey, IndexedDB.initDB in Hstore.
    destruct (storeFault net) as [ [ | ] | ],
             (IndexedDB.opens (idb (world st))) eqn:Hopen;
      cbn [bind] in Hstore; try discriminate Hstore.
    injection Hstore as <-. cbn [idb with_idb with_rng fst].
    unfold IndexedDB.getEncryptedKey, IndexedDB.initDB, IndexedDB.put.
    cbn [IndexedDB.opens]. rewrite Hopen.
    cbn [bind IndexedDB.encryptionKeys IndexedDB.userSub].
    rewrite lookup_insert_eq. reflexivity. }
  assert (Htruthy : Js.truthy (freshMaterial user key net
                                 (with_rng g (world st))) = true).
  { unfold freshMaterial, Crypto.encryptKeyMaterial.
    destruct (Crypto.encrypt _ key _) as [e g']. cbn [fst].
    apply stringifyEncrypted_truthy. }
  exists key. split; [ reflexivity | ].
  unfold unlock, lock. cbn [auth world session].
  set (s0 := lockEncryption _).
  assert (Hcand : candidateKey passphrase (auth st) net' w1 s0 user w1 s0
                    saltText key).
  { unfold candidateKey. split; [ exact Hsub | ]. split; [ exact Huser | ].
    split.
    - unfold resolveSalt. subst s0. cbn. rewrite Hsalt. reflexivity.
    - split; [ exact Hsalt | ]. exists saltBytes.
      split; [ apply saltOfBase64_btoa | reflexivity ]. }
  rewrite (unlockEncryption_candidate passphrase (auth st) net' w1 s0 user
             w1 s0 saltText key _ Hcand Hget).
  cbn [Js.truthy_opt]. rewrite Htruthy. cbn [negb default from_option id].
  rewrite (verifyLocal_accepts user key _ Huser
             (freshMaterial_vouches user key net (with_rng g (world st)))).
  cbn. repeat split; reflexivity.
Qed.

End MoreSessionFactsWithLaws.

(** ** The unlock dialog *)

Section DialogFacts.
Context {P : Platform}.
Import Session UnlockDialog.

(** X29. While the lockout tracker reports a lockout, or when the
    passphrase field is empty, submitting the unlock form attempts
    nothing: [unlockEncryption] is not called, so the provider, the
    local store and the tracker stay as they were; the form keeps the
    passphrase and shows an error. *)
Theorem blocked_submit_attempts_nothing net i st h f :
  RateLimit.isLocked (RateLimit.status h) = true \/ passphrase f = "" ->
  let '(st', h', f') := handleSubmit net i st h f in
  st' = st /\ h' = h
  /\ passphrase f' = passphrase f
  /\ Js.truthy (error f') = true
  /\ toasts f' = toasts f.
Proof.
  intros Hblocked. unfold handleSubmit.
  destruct (RateLimit.isLocked (RateLimit.status h)).
  - repeat split; reflexivity.
  - destruct Hblocked as [Hl | Hp]; [ discriminate | ].
    rewrite Hp. cbn. repeat split; reflexivity.
Qed.

End DialogFacts.

Section MoreWitnesses.
Import Session Scenario RecordScenario.
#[local] Existing Instance Reference.platform.
#[local] Existing Instance ReferenceFacts.laws.

Lemma unlocked_session_keeps_key_witness :
  isUnlocked (session afterSetup) = true
  /\ is_Some (encryptionKey (session afterSetup))
  /\ fst (Records.encryptData (session afterSetup) sampleAnalysis 7%nat)
     <> Throw Records.NotUnlocked.
Proof.
  assert (Hun : isUnlocked (session afterSetup) = true).
  { vm_compute. reflexivity. }
  split; [ exact Hun | ].
  apply (unlocked_session_keeps_key mounted afterSetup sampleAnalysis 7%nat).
  - apply step_setup.
  - intros H. vm_compute in H. discriminate H.
  - exact Hun.
Defined.

Lemma encryptData_requires_fields_witness :
  encryptionKey (session afterSetup) = Some rightKey
  /\ Records.encryptData (session afterSetup) withoutEmail 7%nat
     = (Throw Records.MissingFields, 7%nat).
Proof.
  assert (Hkey : encryptionKey (session afterSetup) = Some rightKey).
  { vm_compute. reflexivity. }
  split; [ exact Hkey | ].
  exact (proj1 (encryptData_requires_fields (session afterSetup) rightKey
                  withoutEmail 7%nat Hkey) eq_refl).
Defined.

Lemma decryptData_encryptData_witness :
  exists encrypted,
    fst (Records.encryptData (session afterSetup) sampleAnalysis 7%nat)
    = Ok encrypted
    /\ Records.decryptData (session afterSetup) encrypted
       = Ok {| Records.analysisMeta := sampleMeta;
               Records.analysisFields :=
                 {| Crypto.userEmail := "user@example.org";
                    Crypto.inputContent :=
                      "Click here to verify your account";
                    Crypto.analysisContext := Js.Null;
                    Crypto.mlResult := verdict |} |}.
Proof.
  apply (decryptData_encryptData (session afterSetup) rightKey sampleAnalysis
           "user@example.org" "Click here to verify your account" verdict
           7%nat); vm_compute; reflexivity.
Defined.

Lemma history_keeps_every_record_witness :
  isUnlocked (session afterSetup) = true
  /\ map Records.analysisMeta
       (Records.analyses
          (Records.loadHistory (session afterSetup)
             (Ok [damagedAnalysis; storedAnalysis]) emptyDrawer))
     = map Records.encryptedMeta [damagedAnalysis; storedAnalysis].
Proof.
  assert (Hun : isUnlocked (session afterSetup) = true).
  { vm_compute. reflexivity. }
  split; [ exact Hun | ].
  exact (proj1 (history_keeps_every_record (session afterSetup)
                  [damagedAnalysis; storedAnalysis] emptyDrawer Hun)).
Defined.

Lemma history_shows_own_records_witness :
  Records.analyses
    (Records.loadHistory (session afterSetup) (Ok [storedAnalysis])
       emptyDrawer)
  = [ {| Records.analysisMeta := sampleMeta;
         Records.analysisFields := recordWithContext |} ].
Proof.
  apply (history_shows_own_records (session afterSetup) rightKey
           [(sampleMeta, recordWithContext, 7%nat)] emptyDrawer).
  - vm_compute. reflexivity.
  - vm_compute. reflexivity.
  - repeat constructor.
Defined.

Lemma provider_writes_only_own_record_witness :
  IndexedDB.encryptionKeys (idb (world afterSetup)) !! "auth0|u2"
  = IndexedDB.encryptionKeys (idb (world mounted)) !! "auth0|u2".
Proof.
  refine (proj2 (provider_writes_only_own_record mounted afterSetup
                   "auth0|u2" _ _)).
  - apply step_setup.
  - vm_compute. discriminate.
Defined.

Lemma unlock_after_setup_and_lock_witness :
  setup "correct-horse-battery" netFresh mounted = (Ok tt, afterSetup)
  /\ fst (unlock "correct-horse-battery" netOffline (lock afterSetup))
     = Ok tt.
Proof.
  assert (Hsetup : setup "correct-horse-battery" netFresh mounted
                   = (Ok tt, afterSetup)).
  { vm_compute. reflexivity. }
  split; [ exact Hsetup | ].
  destruct (unlock_after_setup_and_lock "correct-horse-battery" netFresh
              netOffline mounted afterSetup Hsetup) as (key & _ & Hok & _).
  exact Hok.
Defined.

Lemma setup_without_saved_salt_witness :
  let '(r, w1, s1) :=
    setupEncryption "correct-horse-battery" signedIn netSaltRejected
      emptyWorld initialState in
  is_ok r = false
  /\ IndexedDB.hasEncryptedKey user (idb w1) = Ok true
  /\ isSetup (session (mount signedIn netSaltRejected w1)) = true.
Proof.
  pose proof (setup_without_saved_salt "correct-horse-battery" signedIn
                netSaltRejected emptyWorld initialState user
                eq_refl eq_refl eq_refl eq_refl
                ltac:(intros u; discriminate)) as H.
  destruct (setupEncryption "correct-horse-battery" signedIn netSaltRejected
              emptyWorld initialState) as [ [r w1] s1 ].
  destruct H as (Hr & _ & _ & _ & Hstored).
  destruct (Hstored eq_refl) as (Hhas & _ & Hmount).
  split; [ exact Hr | ]. split; [ exact Hhas | ].
  exact (proj1 (Hmount netSaltRejected)).
Defined.

Lemma unlock_without_salt_witness :
  fst (fst (unlockEncryption "correct-horse-battery" signedIn netFresh
              (world mounted) (session mounted)))
  = Throw "Salt not found. Please set up encryption first.".
Proof.
  pose proof (unlock_without_salt "correct-horse-battery" signedIn netFresh
                (world mounted) (session mounted) user eq_refl eq_refl
                eq_refl) as H.
  destruct (unlockEncryption "correct-horse-battery" signedIn netFresh
              (world mounted) (session mounted)) as [ [r w1] s1 ].
  apply H. intros data Hdata. injection Hdata as <-. reflexivity.
Defined.

Lemma unlock_with_local_state_ignores_backend_witness :
  unlockEncryption "correct-horse-battery" signedIn netFresh (world locked)
    (session locked)
  = unlockEncryption "correct-horse-battery" signedIn netOffline
      (world locked) (session locked).
Proof.
  apply (unlock_with_local_state_ignores_backend "correct-horse-battery"
           signedIn netFresh netOffline (world locked) (session locked)
           user storedMaterial).
  - reflexivity.
  - vm_compute. reflexivity.
  - vm_compute. reflexivity.
  - vm_compute. reflexivity.
Defined.

Lemma blocked_submit_attempts_nothing_witness :
  fst (fst (UnlockDialog.handleSubmit netFresh trackerCall locked
              (RateLimit.initialHook ∅) emptyForm))
  = locked.
Proof.
  pose proof (blocked_submit_attempts_nothing netFresh trackerCall locked
                (RateLimit.initialHook ∅) emptyForm
                (or_intror eq_refl)) as H.
  destruct (UnlockDialog.handleSubmit netFresh trackerCall locked
              (RateLimit.initialHook ∅) emptyForm) as [ [st' h'] f' ].
  exact (proj1 H).
Defined.

End MoreWitnesses.
